(** * Deal tracking in bbov3.js: auction, tricks, undo and double dummy checks

    A shallow embedding of the deal state machine of the BBO Helper content
    script (bbov3.js): [auctionContract], [trickcard], [undo], the
    [processWebsocket] branches that feed them, the validation done by
    [showDoubleDummy] before a double dummy table is rendered with the
    attempts of [historyDDcallback] around it, and the packing of the action
    times in [saveDealTiming].

    Conventions of the embedding.
    - The global [app] object is the record [App]; a handler is a function
      from [App] to a completion (normal, or a thrown exception) and the
      [App] left behind.  JavaScript keeps every mutation made before an
      exception is thrown, and so do the functions below.
    - [undefined] is [None]; a JavaScript number that can be [NaN] is
      [JS.num]; array indices that can leave the array are [Z].
    - Calls and cards are ASCII strings, as on the wire: ["p"], ["d"], ["r"],
      ["1N"], ["SK"].
    - Time stamps are kept as integers, whole milliseconds; only the
      packing of [saveDealTiming] depends on their arithmetic.
    - Console output, the socket to the Python bot, the DOM clocks and local
      storage are effects outside [App] and are not modelled; what the
      handlers compute for them (the packed action times, the bidder and the
      player of an event) is given by functions of its own.  The functions
      behind these effects ([playclock], [auctionclock], [saveCardSize],
      [dealCleanup], [sendCardToPython], [sendGameEvent],
      [browser.storage.local.set]) and the helpers kept
      in other files ([linhand2dothand], [linboard2dotboard], [bsolDealerVul],
      [doubledummy]) are taken to return.  [app.play], which [saveDealPlay]
      writes, is not part of [App].
    - An exception is what the code's own expressions raise: reading a
      property of [undefined] ([app.deal], [app.trick], [app.table],
      [app.deal.d], [app.deal.tricks], an array element that is not there)
      and [array.length = -1].
    - [app.table] is [undefined] until a [<sc_table_node>] arrives, which is
      not among the messages modelled: a table is [None] or the attributes of
      that message.  [app.table.players] is set together with [app.table]
      and is not kept in the record.
    - Whether the preference [pref.appDoubleDummyMode] is 'always' is read
      when a [<sc_deal>] arrives and is carried with that message. *)

From Stdlib Require Import ZArith Lia String Ascii Bool.
From stdpp Require Import base tactics option list.

Local Open Scope string_scope.
Local Open Scope Z_scope.
Local Open Scope list_scope.

(** ** JavaScript primitives used by the source *)

Module JS.

Inductive exn := TypeError | RangeError.

Inductive completion := Normal | Throw (e : exn).

(** A number that may be [NaN]. *)
Inductive num := Num (z : Z) | NaN.

Definition add (a b : num) : num :=
  match a, b with
  | Num x, Num y => Num (x + y)
  | _, _ => NaN
  end.

Definition sub (a b : num) : num :=
  match a, b with
  | Num x, Num y => Num (x - y)
  | _, _ => NaN
  end.

(** [a % m] for a non-zero integer [m]: the sign follows the dividend. *)
Definition rem (a : num) (m : Z) : num :=
  match a with
  | Num x => Num (Z.rem x m)
  | NaN => NaN
  end.

(** [undefined + 1] and the like: [undefined] converts to [NaN]. *)
Definition of_option (o : option Z) : num :=
  match o with
  | Some z => Num z
  | None => NaN
  end.

(** [a !== b] on numbers: [NaN] differs from everything. *)
Definition strict_ne (a b : num) : bool :=
  match a, b with
  | Num x, Num y => negb (x =? y)
  | _, _ => true
  end.

(** [s.charAt(n)]: the empty string when [n] is out of range. *)
Definition charAt (s : string) (n : nat) : string :=
  match String.get n s with
  | Some c => String c EmptyString
  | None => EmptyString
  end.

(** [s.indexOf(t)]: [-1] when [t] does not occur in [s]. *)
Definition indexOf (s t : string) : Z :=
  match String.index 0 t s with
  | Some n => Z.of_nat n
  | None => -1
  end.

(** [a[i]] for an array [a]: [undefined] outside the array. *)
Definition at_ {A : Type} (a : list A) (i : Z) : option A :=
  if i <? 0 then None else a !! Z.to_nat i.

(** [a[i] === v] for an array of strings. *)
Definition at_is (a : list string) (i : Z) (v : string) : bool :=
  match at_ a i with
  | Some c => String.eqb c v
  | None => false
  end.

(** [x === y] where [y] may be [undefined]. *)
Definition eq_opt (x : string) (y : option string) : bool :=
  match y with
  | Some v => String.eqb x v
  | None => false
  end.

Definition lower_ascii (c : ascii) : ascii :=
  let n := nat_of_ascii c in
  if ((65 <=? n)%nat && (n <=? 90)%nat)%bool then ascii_of_nat (n + 32) else c.

(** [s.toLowerCase()] on ASCII strings. *)
Fixpoint toLowerCase (s : string) : string :=
  match s with
  | EmptyString => EmptyString
  | String c s' => String (lower_ascii c) (toLowerCase s')
  end.

End JS.

(** ** The [app] object *)

(** [app.trick] and the elements of [app.deal.tricks]. *)
Record Trick := mkTrick {
  leader : JS.num;
  cards : list string
}.

(** [app.deal]: the attributes of the [<sc_deal>] message that the code
    reads, and the fields the handlers add. *)
Record Deal := mkDeal {
  board : string;
  table_id : string;
  dealer : string;
  south : string;
  west : string;
  north : string;
  east : string;
  blast1_complete : bool;
  blast2_complete : bool;
  seenOpeningLead : bool;
  lastActionTime : Z;
  actionTime : list Z;
  auction : list string;
  play : list string;
  amDummy : bool;
  reseating : bool;
  type1DealRepeat : bool;
  contract : option string;
  denom : option string;
  declarer : option Z;
  tricks : option (list Trick);
  (** [app.deal.timingSaved], set by [saveDealTiming] *)
  timingSaved : bool;
  (** [app.deal.d !== undefined]: the deal was handed to the double dummy
      solver when it arrived *)
  d_defined : bool
}.

(** The two attributes of [app.table] that the deal handlers read. *)
Record Table := mkTable {
  style : string;
  type : string
}.

Record App := mkApp {
  deal : option Deal;
  trick : option Trick;
  table : option Table
}.

Definition set_seenOpeningLead (v : bool) (d : Deal) : Deal :=
  mkDeal (board d) (table_id d) (dealer d) (south d) (west d) (north d) (east d)
    (blast1_complete d) (blast2_complete d) v (lastActionTime d)
    (actionTime d) (auction d) (play d) (amDummy d) (reseating d)
    (type1DealRepeat d) (contract d) (denom d) (declarer d) (tricks d) (timingSaved d) (d_defined d).

Definition set_lastActionTime (v : Z) (d : Deal) : Deal :=
  mkDeal (board d) (table_id d) (dealer d) (south d) (west d) (north d) (east d)
    (blast1_complete d) (blast2_complete d) (seenOpeningLead d) v
    (actionTime d) (auction d) (play d) (amDummy d) (reseating d)
    (type1DealRepeat d) (contract d) (denom d) (declarer d) (tricks d) (timingSaved d) (d_defined d).

Definition set_actionTime (v : list Z) (d : Deal) : Deal :=
  mkDeal (board d) (table_id d) (dealer d) (south d) (west d) (north d) (east d)
    (blast1_complete d) (blast2_complete d) (seenOpeningLead d) (lastActionTime d)
    v (auction d) (play d) (amDummy d) (reseating d)
    (type1DealRepeat d) (contract d) (denom d) (declarer d) (tricks d) (timingSaved d) (d_defined d).

Definition set_auction (v : list string) (d : Deal) : Deal :=
  mkDeal (board d) (table_id d) (dealer d) (south d) (west d) (north d) (east d)
    (blast1_complete d) (blast2_complete d) (seenOpeningLead d) (lastActionTime d)
    (actionTime d) v (play d) (amDummy d) (reseating d)
    (type1DealRepeat d) (contract d) (denom d) (declarer d) (tricks d) (timingSaved d) (d_defined d).

Definition set_play (v : list string) (d : Deal) : Deal :=
  mkDeal (board d) (table_id d) (dealer d) (south d) (west d) (north d) (east d)
    (blast1_complete d) (blast2_complete d) (seenOpeningLead d) (lastActionTime d)
    (actionTime d) (auction d) v (amDummy d) (reseating d)
    (type1DealRepeat d) (contract d) (denom d) (declarer d) (tricks d) (timingSaved d) (d_defined d).

Definition set_amDummy (v : bool) (d : Deal) : Deal :=
  mkDeal (board d) (table_id d) (dealer d) (south d) (west d) (north d) (east d)
    (blast1_complete d) (blast2_complete d) (seenOpeningLead d) (lastActionTime d)
    (actionTime d) (auction d) (play d) v (reseating d)
    (type1DealRepeat d) (contract d) (denom d) (declarer d) (tricks d) (timingSaved d) (d_defined d).

Definition set_contract (v : option string) (d : Deal) : Deal :=
  mkDeal (board d) (table_id d) (dealer d) (south d) (west d) (north d) (east d)
    (blast1_complete d) (blast2_complete d) (seenOpeningLead d) (lastActionTime d)
    (actionTime d) (auction d) (play d) (amDummy d) (reseating d)
    (type1DealRepeat d) v (denom d) (declarer d) (tricks d) (timingSaved d) (d_defined d).

Definition set_denom (v : option string) (d : Deal) : Deal :=
  mkDeal (board d) (table_id d) (dealer d) (south d) (west d) (north d) (east d)
    (blast1_complete d) (blast2_complete d) (seenOpeningLead d) (lastActionTime d)
    (actionTime d) (auction d) (play d) (amDummy d) (reseating d)
    (type1DealRepeat d) (contract d) v (declarer d) (tricks d) (timingSaved d) (d_defined d).

Definition set_declarer (v : option Z) (d : Deal) : Deal :=
  mkDeal (board d) (table_id d) (dealer d) (south d) (west d) (north d) (east d)
    (blast1_complete d) (blast2_complete d) (seenOpeningLead d) (lastActionTime d)
    (actionTime d) (auction d) (play d) (amDummy d) (reseating d)
    (type1DealRepeat d) (contract d) (denom d) v (tricks d) (timingSaved d) (d_defined d).

Definition set_tricks (v : option (list Trick)) (d : Deal) : Deal :=
  mkDeal (board d) (table_id d) (dealer d) (south d) (west d) (north d) (east d)
    (blast1_complete d) (blast2_complete d) (seenOpeningLead d) (lastActionTime d)
    (actionTime d) (auction d) (play d) (amDummy d) (reseating d)
    (type1DealRepeat d) (contract d) (denom d) (declarer d) v (timingSaved d) (d_defined d).

Definition set_timingSaved (v : bool) (d : Deal) : Deal :=
  mkDeal (board d) (table_id d) (dealer d) (south d) (west d) (north d) (east d)
    (blast1_complete d) (blast2_complete d) (seenOpeningLead d) (lastActionTime d)
    (actionTime d) (auction d) (play d) (amDummy d) (reseating d)
    (type1DealRepeat d) (contract d) (denom d) (declarer d) (tricks d) v (d_defined d).

Definition set_deal (v : option Deal) (a : App) : App :=
  mkApp v (trick a) (table a).

Definition set_trick (v : option Trick) (a : App) : App :=
  mkApp (deal a) v (table a).

(** ** [auctionContract] *)

(** The guard of [auctionContract]:
    [ncalls < 4 || au[ncalls-1] !== 'p' || au[ncalls-2] !== 'p' || au[ncalls-3] !== 'p']. *)
Definition auction_incomplete (au : list string) : bool :=
  let ncalls := Z.of_nat (length au) in
  (ncalls <? 4) || negb (JS.at_is au (ncalls - 1) "p")
  || negb (JS.at_is au (ncalls - 2) "p") || negb (JS.at_is au (ncalls - 3) "p").

(** The completion predicate the resolver uses: the guard does not fire. *)
Definition auction_complete (au : list string) : bool :=
  negb (auction_incomplete au).

(** [for (i1=ncalls-4; i1>=0; i1--) { if (au[i1].length === 2) { break; } }]
    with [k = i1 + 1] indices still to visit; the value is [i1] after the
    loop. *)
Fixpoint contract_ix (au : list string) (k : nat) : JS.completion * Z :=
  match k with
  | O => (JS.Normal, -1)
  | S k' =>
      match au !! k' with
      | None => (JS.Throw JS.TypeError, Z.of_nat k')
      | Some c =>
          if (String.length c =? 2)%nat then (JS.Normal, Z.of_nat k')
          else contract_ix au k'
      end
  end.

(** [for (i2 = ...; i2<ncalls-4; i2+=2) { if (au[i2].charAt(1) === app.deal.denom) { break; } }]
    from the current [i2], with [trips] iterations left before [i2] reaches
    the bound; the value is [i2] after the loop. *)
Fixpoint declarer_ix (au : list string) (dn : option string) (i2 : Z) (trips : nat)
  : JS.completion * Z :=
  match trips with
  | O => (JS.Normal, i2)
  | S t =>
      match JS.at_ au i2 with
      | None => (JS.Throw JS.TypeError, i2)
      | Some c =>
          if JS.eq_opt (JS.charAt c 1) dn then (JS.Normal, i2)
          else declarer_ix au dn (i2 + 2) t
      end
  end.

(** Number of iterations of [for (i = from; i < bound; i += 2)]. *)
Definition trips2 (from bound : Z) : nat :=
  Z.to_nat ((bound - from + 1) / 2).

Definition seatorder : string := "swne".

Definition auctionContract (a : App) : JS.completion * App :=
  match deal a with
  | None => (JS.Throw JS.TypeError, a)
  | Some d =>
      let au := auction d in
      let ncalls := Z.of_nat (length au) in
      if auction_incomplete au then
        (JS.Normal,
         set_deal (Some (set_declarer None (set_denom None (set_contract None d)))) a)
      else
        match contract_ix au (Z.to_nat (ncalls - 4 + 1)) with
        | (JS.Throw e, _) => (JS.Throw e, a)
        | (JS.Normal, i1) =>
            match JS.at_ au i1 with
            | None => (JS.Throw JS.TypeError, a)
            | Some c =>
                let d1 :=
                  if (String.length c =? 2)%nat
                  then set_denom (Some (JS.charAt c 1)) (set_contract (Some c) d)
                  else set_denom None (set_contract (Some "Pass") d) in
                let a1 := set_deal (Some d1) a in
                let from := Z.rem i1 2 in
                match declarer_ix au (denom d1) from (trips2 from (ncalls - 4)) with
                | (JS.Throw e, _) => (JS.Throw e, a1)
                | (JS.Normal, i2) =>
                    (JS.Normal,
                     set_deal
                       (Some (set_declarer
                                (Some (Z.rem (JS.indexOf seatorder (dealer d1) + i2) 4)) d1))
                       a1)
                end
            end
        end
  end.

(** ** [trickcard] *)

Definition rankorder : string := "23456789TJQKA".

(** [card.charAt(0)] *)
Definition card_denom (card : string) : string := JS.charAt card 0.

(** [rankorder.indexOf( card.charAt(1) )] *)
Definition card_rank (card : string) : Z := JS.indexOf rankorder (JS.charAt card 1).

(** The three variables of the winner loop. *)
Record Best := mkBest {
  bix : Z;
  bestDenom : option string;
  bestRank : Z
}.

(** [cards[i]] inside the winner loop, which runs only when the trick holds
    exactly four cards. *)
Definition card_at (cs : list string) (i : nat) : string := default "" (cs !! i).

(** One iteration of [for (let i=1; i<4; i++)] in [trickcard]. *)
Definition best_step (trump : option string) (cs : list string) (b : Best) (i : nat) : Best :=
  let denom := card_denom (card_at cs i) in
  let rank := card_rank (card_at cs i) in
  if JS.eq_opt denom (bestDenom b) then
    if rank >? bestRank b then mkBest (Z.of_nat i) (bestDenom b) rank else b
  else if JS.eq_opt denom trump then mkBest (Z.of_nat i) trump rank
  else b.

(** The whole loop: the index of the best card of a four card trick. *)
Definition best_card (trump : option string) (cs : list string) : Best :=
  fold_left (best_step trump cs) [1; 2; 3]%nat
    (mkBest 0 (Some (card_denom (card_at cs 0))) (card_rank (card_at cs 0))).

(** The part of [trickcard] from [const seatix = ...] on: the card joins
    [app.trick]; a fourth card closes the trick and opens the next one. *)
Definition trick_push (card : string) (a : App) : JS.completion * App :=
  match trick a with
  | None => (JS.Throw JS.TypeError, a)
  | Some t =>
      let t1 := mkTrick (leader t) (cards t ++ [card]) in
      let a1 := set_trick (Some t1) a in
      if (length (cards t1) =? 4)%nat then
        match deal a1 with
        | None => (JS.Throw JS.TypeError, a1)
        | Some d =>
            match tricks d with
            | None => (JS.Throw JS.TypeError, a1)
            | Some ts =>
                let a2 := set_deal (Some (set_tricks (Some (ts ++ [t1])) d)) a1 in
                let b := best_card (denom d) (cards t1) in
                let lix := JS.rem (JS.add (leader t1) (JS.Num (bix b))) 4 in
                (JS.Normal, set_trick (Some (mkTrick lix [])) a2)
            end
        end
      else (JS.Normal, a1)
  end.

(** The [if (!app.deal.seenOpeningLead) { ... }] block of [trickcard]. *)
Definition opening_lead (a : App) : JS.completion * App :=
  match deal a with
  | None => (JS.Throw JS.TypeError, a)
  | Some d =>
      if seenOpeningLead d then (JS.Normal, a)
      else
        match auctionContract a with
        | (JS.Throw e, a1) => (JS.Throw e, a1)
        | (JS.Normal, a1) =>
            match deal a1 with
            | None => (JS.Throw JS.TypeError, a1)
            | Some d1 =>
                if JS.eq_opt "Pass" (contract d1) then (JS.Normal, a1)
                else
                  let d2 := set_tricks (Some []) (set_seenOpeningLead true d1) in
                  let ldr := JS.rem (JS.add (JS.of_option (declarer d2)) (JS.Num 1)) 4 in
                  (JS.Normal, set_trick (Some (mkTrick ldr [])) (set_deal (Some d2) a1))
            end
        end
  end.

(** [saveDealTiming()], as far as [app] goes.  The deal is marked before a
    key is looked for; the key is made from the first hand that is not the
    placeholder 'SHDC' and from [app.table.players], which every table has;
    without a known hand the function returns.  The codes it then stores
    are [pack_timing] below. *)
Definition saveDealTiming (a : App) : JS.completion * App :=
  match deal a with
  | None => (JS.Normal, a)
  | Some d =>
      if timingSaved d then (JS.Normal, a)
      else
        let a1 := set_deal (Some (set_timingSaved true d)) a in
        if forallb (fun hand => String.eqb hand "SHDC") [south d; west d; north d; east d]
        then (JS.Normal, a1)
        else
          match table a1 with
          | None => (JS.Throw JS.TypeError, a1)
          | Some _ => (JS.Normal, a1)
          end
  end.

(** [app.deal.d.source = 'session'; ...
     doubledummy(app.deal.d, bCacheOnly, historyDDcallback);]: the assignment
    throws when [app.deal.d] is undefined. *)
Definition show_deal_result (a : App) : JS.completion * App :=
  match deal a with
  | None => (JS.Throw JS.TypeError, a)
  | Some d => if d_defined d then (JS.Normal, a) else (JS.Throw JS.TypeError, a)
  end.

(** [saveDealTiming(); ... app.deal.d.source = 'session'; ...] *)
Definition save_and_show (a : App) : JS.completion * App :=
  match saveDealTiming a with
  | (JS.Throw e, a1) => (JS.Throw e, a1)
  | (JS.Normal, a1) => show_deal_result a1
  end.

(** The [if (app.deal.play.length === 52) { ... }] block that ends
    [trickcard]. *)
Definition all_cards_played (a : App) : JS.completion * App :=
  match deal a with
  | None => (JS.Throw JS.TypeError, a)
  | Some d =>
      if (length (play d) =? 52)%nat then
        match saveDealTiming a with
        | (JS.Throw e, a1) => (JS.Throw e, a1)
        | (JS.Normal, a1) =>
            match table a1 with
            | None => (JS.Throw JS.TypeError, a1)
            | Some tb =>
                if String.eqb (style tb) "teaching" then show_deal_result a1
                else (JS.Normal, a1)
            end
        end
      else (JS.Normal, a)
  end.

(** [app] with the timing of its deal marked as saved. *)
Definition saved (a : App) : App :=
  match deal a with
  | Some d => set_deal (Some (set_timingSaved true d)) a
  | None => a
  end.

(** [trickcard] up to the call of [playclock]: the card and its time are
    recorded, the opening lead is dealt with and the card joins the trick. *)
Definition card_to_trick (card : string) (timeStamp : Z) (a : App) : JS.completion * App :=
  match deal a with
  | None => (JS.Throw JS.TypeError, a)
  | Some d =>
      let tdiff := if blast1_complete d then timeStamp - lastActionTime d else 0 in
      let d1 := set_lastActionTime timeStamp
                  (set_actionTime (actionTime d ++ [tdiff])
                     (set_play (play d ++ [card]) d)) in
      match opening_lead (set_deal (Some d1) a) with
      | (JS.Throw e, a1) => (JS.Throw e, a1)
      | (JS.Normal, a1) => trick_push card a1
      end
  end.

Definition trickcard (card : string) (timeStamp : Z) (a : App) : JS.completion * App :=
  match card_to_trick card timeStamp a with
  | (JS.Throw e, a1) => (JS.Throw e, a1)
  | (JS.Normal, a1) => all_cards_played a1
  end.

(** ** [undo] *)

(** The [while (cnt > 0)] loop of [undo].  [stack] is [app.deal.tricks] with
    the most recent trick first, so that [pop()] takes its head. *)
Fixpoint rewind (cnt : nat) (t : option Trick) (stack : list Trick) {struct stack}
  : JS.completion * option Trick * list Trick :=
  if (cnt =? 0)%nat then (JS.Normal, t, stack)
  else
    match t with
    | None => (JS.Throw JS.TypeError, t, stack)
    | Some tr =>
        let ncards := length (cards tr) in
        if (cnt <=? ncards)%nat then
          (JS.Normal, Some (mkTrick (leader tr) (take (ncards - cnt) (cards tr))), stack)
        else
          match stack with
          | [] => (JS.Normal, None, [])
          | p :: stack' => rewind (cnt - ncards) (Some p) stack'
          end
    end.

(** The loop when [app.deal.tricks] is [undefined]: [pop()] cannot be
    called. *)
Definition rewind_no_tricks (cnt : nat) (t : option Trick) : JS.completion * option Trick :=
  if (cnt =? 0)%nat then (JS.Normal, t)
  else
    match t with
    | None => (JS.Throw JS.TypeError, t)
    | Some tr =>
        let ncards := length (cards tr) in
        if (cnt <=? ncards)%nat then
          (JS.Normal, Some (mkTrick (leader tr) (take (ncards - cnt) (cards tr))))
        else (JS.Throw JS.TypeError, t)
    end.

(** The [if (app.deal.seenOpeningLead) { ... }] block that closes [undo]. *)
Definition rewind_tricks (undoCount : nat) (a : App) : JS.completion * App :=
  match deal a with
  | None => (JS.Throw JS.TypeError, a)
  | Some d =>
      if seenOpeningLead d then
        match tricks d with
        | None =>
            let '(c, t) := rewind_no_tricks undoCount (trick a) in
            (c, set_trick t a)
        | Some ts =>
            let '(c, t, stack) := rewind undoCount (trick a) (rev ts) in
            (c, set_trick t (set_deal (Some (set_tricks (Some (rev stack)) d)) a))
        end
      else (JS.Normal, a)
  end.

(** The two fields that [undo] parses out of [<sc_undo>]: [count] is [None]
    when the message has none, [position] likewise. *)
Record UndoMsg := mkUndoMsg {
  count : option nat;
  position : option string
}.

(** [undoCount] after
    [if (undoCount === 0 && position === '*') { undoCount = 1; }];
    [None] when the message has no count. *)
Definition undo_count (msg : UndoMsg) : option nat :=
  match count msg with
  | None => None
  | Some c =>
      Some (if ((c =? 0)%nat && JS.eq_opt "*" (position msg))%bool then 1%nat else c)
  end.

Definition undo (msg : UndoMsg) (timeStamp : Z) (a : App) : JS.completion * App :=
  match undo_count msg with
  | None => (JS.Normal, a)
  | Some undoCount =>
      match deal a with
      | None => (JS.Throw JS.TypeError, a)
      | Some d =>
          if (length (actionTime d) <? undoCount)%nat then (JS.Normal, a)
          else
            let d1 := set_actionTime (take (length (actionTime d) - undoCount) (actionTime d))
                        (set_lastActionTime timeStamp d) in
            if (undoCount <=? length (play d1))%nat then
              let d2 := set_play (take (length (play d1) - undoCount) (play d1)) d1 in
              rewind_tricks undoCount (set_deal (Some d2) a)
            else
              let undoAuctionCount := (undoCount - length (play d1))%nat in
              let d2 := set_play [] (set_seenOpeningLead false d1) in
              if (length (auction d2) <? undoAuctionCount)%nat then
                (JS.Throw JS.RangeError, set_deal (Some d2) a)
              else
                let d3 := set_amDummy false
                            (set_auction
                               (take (length (auction d2) - undoAuctionCount) (auction d2)) d2) in
                rewind_tricks undoCount (set_deal (Some d3) a)
      end
  end.

(** ** The [processWebsocket] branches that change the deal *)

Definition set_blast1_complete (v : bool) (d : Deal) : Deal :=
  mkDeal (board d) (table_id d) (dealer d) (south d) (west d) (north d) (east d)
    v (blast2_complete d) (seenOpeningLead d) (lastActionTime d)
    (actionTime d) (auction d) (play d) (amDummy d) (reseating d)
    (type1DealRepeat d) (contract d) (denom d) (declarer d) (tricks d) (timingSaved d) (d_defined d).

Definition set_blast2_complete (v : bool) (d : Deal) : Deal :=
  mkDeal (board d) (table_id d) (dealer d) (south d) (west d) (north d) (east d)
    (blast1_complete d) v (seenOpeningLead d) (lastActionTime d)
    (actionTime d) (auction d) (play d) (amDummy d) (reseating d)
    (type1DealRepeat d) (contract d) (denom d) (declarer d) (tricks d) (timingSaved d) (d_defined d).

Definition set_type1DealRepeat (v : bool) (d : Deal) : Deal :=
  mkDeal (board d) (table_id d) (dealer d) (south d) (west d) (north d) (east d)
    (blast1_complete d) (blast2_complete d) (seenOpeningLead d) (lastActionTime d)
    (actionTime d) (auction d) (play d) (amDummy d) (reseating d)
    v (contract d) (denom d) (declarer d) (tricks d) (timingSaved d) (d_defined d).

(** [app.deal.south = ...; app.deal.north = ...; app.deal.west = ...; app.deal.east = ...] *)
Definition set_hands (s w n e : string) (d : Deal) : Deal :=
  mkDeal (board d) (table_id d) (dealer d) s w n e
    (blast1_complete d) (blast2_complete d) (seenOpeningLead d) (lastActionTime d)
    (actionTime d) (auction d) (play d) (amDummy d) (reseating d)
    (type1DealRepeat d) (contract d) (denom d) (declarer d) (tricks d) (timingSaved d) (d_defined d).

(** What the handler of [<sc_deal>] reads when the message arrives: the
    attributes of the message and, beside them, whether the preference
    [pref.appDoubleDummyMode] is 'always'. *)
Record DealMsg := mkDealMsg {
  m_board : string;
  m_table_id : string;
  m_dealer : string;
  m_south : string;
  m_west : string;
  m_north : string;
  m_east : string;
  (** [pref.appDoubleDummyMode === 'always'] *)
  m_dd_always : bool
}.

(** The messages, after the regular expressions of the handlers have taken
    their fields out of the text. *)
Inductive Msg :=
| sc_call_made (call : string)
| cs_make_bid (call : string)
| sc_card_played (card : string)
| cs_play_card (card : string)
| sc_deal (m : DealMsg)
| sc_deal_blast_complete
| sc_undo (u : UndoMsg).

Record Event := mkEvent {
  msg : Msg;
  timeStamp : Z
}.

(** [app.deal.auction.push(call); app.deal.actionTime.push(tdiff);
     app.deal.lastActionTime = e.timeStamp;] *)
Definition push_call (call : string) (tdiff timeStamp : Z) (d : Deal) : Deal :=
  set_lastActionTime timeStamp
    (set_actionTime (actionTime d ++ [tdiff]) (set_auction (auction d ++ [call]) d)).

(** [app.deal = stuffAttributes(...)] and the initialisations after it;
    [app.deal.d] is set when the double dummy mode is 'always' and all four
    hands are known. *)
Definition new_deal (m : DealMsg) (timeStamp : Z) : Deal :=
  mkDeal (m_board m) (m_table_id m) (m_dealer m)
    (m_south m) (m_west m) (m_north m) (m_east m)
    false false false timeStamp [] [] [] false false false None None None None
    false
    (m_dd_always m && negb (String.eqb (m_south m) "SHDC")
     && negb (String.eqb (m_west m) "SHDC") && negb (String.eqb (m_north m) "SHDC")
     && negb (String.eqb (m_east m) "SHDC")).

(** The value of the condition that detects the redundant second
    [<sc_deal>] of a Robot Race table; [&&] reads [app.table] only when the
    conjuncts before it hold.  The tests [msg.indexOf('west="SHDC"') !== -1]
    are taken on the attributes of the message. *)
Definition type1_repeat (d : Deal) (m : DealMsg) (a : App) : JS.exn + bool :=
  if (blast1_complete d && String.eqb (board d) (m_board m))%bool then
    match table a with
    | None => inl JS.TypeError
    | Some tb =>
        inr (String.eqb (style tb) "t-mbt" && String.eqb (m_west m) "SHDC"
             && String.eqb (m_north m) "SHDC" && String.eqb (m_west m) "SHDC")%bool
    end
  else inr false.

(** [const doubleBoard1 = app.deal !== undefined && board === "1" && ...] for a
    defined [app.deal]. *)
Definition doubleBoard1 (d : Deal) (m : DealMsg) (a : App) : JS.exn + bool :=
  if String.eqb (m_board m) "1" then
    match table a with
    | None => inl JS.TypeError
    | Some tb =>
        inr ((String.eqb (type tb) "100" || String.eqb (style tb) "teaching")
             && negb (String.eqb (m_south m) (south d)))%bool
    end
  else inr false.

(** The test that the handlers of [<sc_call_made>] and [cs_make_bid] make
    once the call is pushed, before they call [saveDealTiming]:
    [app.table.type === "100" && ncalls > 3 && call === 'p' &&
     app.deal.auction[ncalls-2] === 'p' && app.deal.auction[ncalls-3] === 'p'],
    for a defined [app.table]. *)
Definition last_pass_at_bidding_table (tb : Table) (call : string) (au : list string)
  : bool :=
  let ncalls := Z.of_nat (length au) in
  String.eqb (type tb) "100" && (3 <? ncalls) && String.eqb call "p"
  && JS.at_is au (ncalls - 2) "p" && JS.at_is au (ncalls - 3) "p".

(** [ncalls === 4 && app.table.style === "teaching" &&
     app.deal.auction[0] === 'p' && ... && app.deal.auction[3] === 'p'] *)
Definition passed_out_at_teaching_table (tb : Table) (au : list string) : bool :=
  (Z.of_nat (length au) =? 4) && String.eqb (style tb) "teaching"
  && JS.at_is au 0 "p" && JS.at_is au 1 "p" && JS.at_is au 2 "p" && JS.at_is au 3 "p".

(** What the handlers of [<sc_call_made>] and [cs_make_bid] do once the call
    is pushed and announced: [app.table] is read, and at the end of the
    auction of a bidding table, or of a passed out deal at a teaching table,
    the timing is saved and the double dummy result asked for. *)
Definition auction_end (call : string) (a : App) : JS.completion * App :=
  match deal a, table a with
  | None, _ => (JS.Throw JS.TypeError, a)
  | Some _, None => (JS.Throw JS.TypeError, a)
  | Some d, Some tb =>
      if last_pass_at_bidding_table tb call (auction d) then save_and_show a
      else if passed_out_at_teaching_table tb (auction d) then save_and_show a
      else (JS.Normal, a)
  end.

Definition on_sc_deal (m : DealMsg) (timeStamp : Z) (a : App) : JS.completion * App :=
  let fresh := (JS.Normal, set_deal (Some (new_deal m timeStamp)) a) in
  match deal a with
  | None => fresh
  | Some d =>
      if reseating d then (JS.Normal, a)
      else
        match type1_repeat d m a with
        | inl e => (JS.Throw e, a)
        | inr true => (JS.Normal, set_deal (Some (set_type1DealRepeat true d)) a)
        | inr false =>
            match doubleBoard1 d m a with
            | inl e => (JS.Throw e, a)
            | inr db =>
                if (negb (String.eqb (board d) (m_board m))
                    || negb (String.eqb (table_id d) (m_table_id m)) || db)%bool
                then
                  (* a new board: the timing of the deal it replaces is
                     saved first, unless it has been *)
                  if timingSaved d then fresh
                  else
                    match table a with
                    | None => (JS.Throw JS.TypeError, a)
                    | Some _ =>
                        match saveDealTiming a with
                        | (JS.Throw e, a1) => (JS.Throw e, a1)
                        | (JS.Normal, _) => fresh
                        end
                    end
                else
                  (* the player has become dummy and receives the full deal *)
                  (JS.Normal,
                   set_deal (Some (set_amDummy true
                     (set_hands (m_south m) (m_west m) (m_north m) (m_east m) d))) a)
            end
        end
  end.

Definition on_sc_deal_blast_complete (a : App) : JS.completion * App :=
  match deal a with
  | None => (JS.Throw JS.TypeError, a)
  | Some d =>
      if reseating d then (JS.Normal, a)
      else if type1DealRepeat d then
        (JS.Normal, set_deal (Some (set_type1DealRepeat false d)) a)
      else if negb (blast1_complete d) then
        (JS.Normal, set_deal (Some (set_blast1_complete true d)) a)
      else (JS.Normal, set_deal (Some (set_blast2_complete true d)) a)
  end.

Definition on_sc_call_made (call : string) (timeStamp : Z) (a : App) : JS.completion * App :=
  match deal a with
  | None => (JS.Normal, a)
  | Some d =>
      if (amDummy d || reseating d)%bool then (JS.Normal, a)
      else
        let tdiff := if blast1_complete d then timeStamp - lastActionTime d else 0 in
        auction_end call (set_deal (Some (push_call call tdiff timeStamp d)) a)
  end.

Definition on_cs_make_bid (call : string) (timeStamp : Z) (a : App) : JS.completion * App :=
  match deal a with
  | None => (JS.Throw JS.TypeError, a)
  | Some d =>
      let tdiff := timeStamp - lastActionTime d in
      let lowercall := if (String.length call =? 2)%nat then call else JS.toLowerCase call in
      auction_end lowercall (set_deal (Some (push_call lowercall tdiff timeStamp d)) a)
  end.

Definition on_sc_card_played (card : string) (timeStamp : Z) (a : App) : JS.completion * App :=
  match deal a with
  | None => (JS.Normal, a)
  | Some d =>
      if (negb (amDummy d) || blast2_complete d)%bool then trickcard card timeStamp a
      else (JS.Normal, a)
  end.

Definition processWebsocket (e : Event) (a : App) : JS.completion * App :=
  match msg e with
  | sc_call_made call => on_sc_call_made call (timeStamp e) a
  | sc_card_played card => on_sc_card_played card (timeStamp e) a
  | cs_make_bid call => on_cs_make_bid call (timeStamp e) a
  | cs_play_card card => trickcard card (timeStamp e) a
  | sc_deal m => on_sc_deal m (timeStamp e) a
  | sc_deal_blast_complete => on_sc_deal_blast_complete a
  | sc_undo u => undo u (timeStamp e) a
  end.

(** The event loop: an exception ends the handler of one message, and the
    next message finds [app] as that handler left it. *)
Definition dispatch (a : App) (e : Event) : App := snd (processWebsocket e a).

Definition run (es : list Event) (a : App) : App := fold_left dispatch es a.

(** [app] at the start of a session, once the player sits at a table. *)
Definition app0 (tb : option Table) : App := mkApp None None tb.

(** The states a session can reach. *)
Definition reachable (a : App) : Prop :=
  exists tb es, a = run es (app0 tb).

(** * Specification predicates *)

(** ** Auction completion *)

(** The last three calls are Pass and there are at least four calls. *)
Definition last3_pass (au : list string) : Prop :=
  (4 <= length au)%nat /\ exists pre, au = pre ++ ["p"; "p"; "p"].

(** The completion predicate as the specification words it. *)
Definition spec_complete (au : list string) : Prop :=
  (4 <= length au)%nat /\
  exists pre c, au = pre ++ [c; "p"; "p"; "p"] /\
    (c <> "p" \/ (Forall (fun x => x = "p") au /\ length au = 4%nat)).


(** ** Seats *)

(** [const seats = ['South', 'West', 'North', 'East']] of [trickcard]: the
    seat numbering of [app.deal.declarer] and [app.trick.leader], clockwise. *)
Definition seats : list string := ["South"; "West"; "North"; "East"].

(** The seat of the call at position [i] of the auction: the dealer makes
    call 0 and the turn passes clockwise.  [auctionContract] evaluates this
    expression at the position it finds. *)
Definition call_seat (dealer : string) (i : Z) : Z :=
  Z.rem (JS.indexOf seatorder dealer + i) 4.

(** Modelled from the spec: the source keeps no dummy binding; Dummy is
    Declarer's partner, the opposite seat. *)
Definition dummy_of (declarer : Z) : Z := Z.rem (declarer + 2) 4.

(** A one message event; the time stamp is irrelevant to what is proved
    from it. *)
Definition at_time (t : Z) (m : Msg) : Event := mkEvent m t.

(** Scenario A of the specification: North deals, the auction is
    1S - Pass - 2S - Pass - Pass - Pass, and a card is led. *)
Definition scenario_A : App :=
  Eval vm_compute in
  run (map (at_time 0)
         [sc_deal (mkDealMsg "1" "100" "n" "SHDC" "SHDC" "SHDC" "SHDC" false);
          sc_call_made "1S"; sc_call_made "p"; sc_call_made "2S";
          sc_call_made "p"; sc_call_made "p"; sc_call_made "p";
          sc_card_played "D4"])
      (app0 None).

(** ** Trick winner *)

(** Some card among the first [n] of [cs] is of the trump strain. *)
Definition has_trump (trump : option string) (cs : list string) (n : nat) : Prop :=
  exists j, (j < n)%nat /\ Some (card_denom (card_at cs j)) = trump.

(** Card [w] is the winner among the first [n] cards of [cs]: the highest
    trump if one of them is a trump, otherwise the highest card of the suit
    led. *)
Definition winner_among (trump : option string) (cs : list string) (n w : nat) : Prop :=
  (w < n)%nat /\
  (has_trump trump cs n ->
   Some (card_denom (card_at cs w)) = trump /\
   forall j, (j < n)%nat -> Some (card_denom (card_at cs j)) = trump ->
             card_rank (card_at cs j) <= card_rank (card_at cs w)) /\
  (~ has_trump trump cs n ->
   card_denom (card_at cs w) = card_denom (card_at cs 0) /\
   forall j, (j < n)%nat -> card_denom (card_at cs j) = card_denom (card_at cs 0) ->
             card_rank (card_at cs j) <= card_rank (card_at cs w)).

(** What the winner loop leaves for a completed trick, in the loop's own
    reading of suits and ranks. *)
Definition loop_winner (trump : option string) (cs : list string) (w : nat) : Prop :=
  winner_among trump cs 4 w.

(** Modelled from the spec: the ranks of a suit, 2 lowest and ace highest,
    by the letter that names them on a card. *)
Definition rank_value (r : ascii) : option nat :=
  if Ascii.eqb r "2"%char then Some 2%nat
  else if Ascii.eqb r "3"%char then Some 3%nat
  else if Ascii.eqb r "4"%char then Some 4%nat
  else if Ascii.eqb r "5"%char then Some 5%nat
  else if Ascii.eqb r "6"%char then Some 6%nat
  else if Ascii.eqb r "7"%char then Some 7%nat
  else if Ascii.eqb r "8"%char then Some 8%nat
  else if Ascii.eqb r "9"%char then Some 9%nat
  else if Ascii.eqb r "T"%char then Some 10%nat
  else if Ascii.eqb r "J"%char then Some 11%nat
  else if Ascii.eqb r "Q"%char then Some 12%nat
  else if Ascii.eqb r "K"%char then Some 13%nat
  else if Ascii.eqb r "A"%char then Some 14%nat
  else None.

(** Modelled from the spec: a card is a suit and a rank; on the wire it is
    the letter of the suit followed by the letter of the rank. *)
Definition is_card (card : string) : Prop :=
  match card with
  | String s (String r EmptyString) =>
      (s = "S" \/ s = "H" \/ s = "D" \/ s = "C")%char /\ is_Some (rank_value r)
  | _ => False
  end.

Definition spec_suit (card : string) : string :=
  match card with
  | String s _ => String s EmptyString
  | EmptyString => EmptyString
  end.

Definition spec_rank (card : string) : nat :=
  match card with
  | String _ (String r _) => default 0%nat (rank_value r)
  | _ => 0%nat
  end.

(** Some card of the trick is of the trump strain. *)
Definition trump_played (trump : option string) (cs : list string) : Prop :=
  exists j, (j < 4)%nat /\ Some (spec_suit (card_at cs j)) = trump.

(** The winner of a completed trick as the specification names it: card
    [w] of the four is of the trump strain if a card of the trump strain was
    played, and of the suit led otherwise, and it ranks above every other
    card of that suit in the trick. *)
Definition trick_winner_spec (trump : option string) (cs : list string) (w : nat) : Prop :=
  (w < 4)%nat /\
  (trump_played trump cs -> Some (spec_suit (card_at cs w)) = trump) /\
  (~ trump_played trump cs -> spec_suit (card_at cs w) = spec_suit (card_at cs 0)) /\
  forall j, (j < 4)%nat -> j <> w ->
            spec_suit (card_at cs j) = spec_suit (card_at cs w) ->
            (spec_rank (card_at cs j) < spec_rank (card_at cs w))%nat.

(** The loop invariant of the winner loop, before iteration [n]. *)
Definition best_inv (trump : option string) (cs : list string) (n : nat) (b : Best) : Prop :=
  exists w : nat,
    bix b = Z.of_nat w /\
    bestDenom b = Some (card_denom (card_at cs w)) /\
    bestRank b = card_rank (card_at cs w) /\
    winner_among trump cs n w.

(** Scenario C of the specification: hearts are trumps, East led the ace of
    spades, a small heart and the king of spades followed, and the queen of
    spades is about to be played. *)
Definition scenario_C_deal : Deal :=
  set_tricks (Some [])
    (set_seenOpeningLead true
       (set_denom (Some "H")
          (set_contract (Some "4H")
             (set_declarer (Some 2)
                (set_play ["SA"; "H2"; "SK"]
                   (set_actionTime [0; 0; 0; 0; 0; 0; 0]
                      (set_auction ["4H"; "p"; "p"; "p"]
                         (new_deal (mkDealMsg "1" "100" "n" "" "" "" "" false) 0)))))))).

Definition scenario_C : App :=
  mkApp (Some scenario_C_deal) (Some (mkTrick (JS.Num 3) ["SA"; "H2"; "SK"])) None.

(** The same contract when nobody ruffs: East led the nine of spades, the
    king and a small diamond followed, and the queen of spades is about to
    be played. *)
Definition no_ruff_deal : Deal :=
  set_play ["S9"; "SK"; "D2"] scenario_C_deal.

Definition no_ruff : App :=
  mkApp (Some no_ruff_deal) (Some (mkTrick (JS.Num 3) ["S9"; "SK"; "D2"])) None.

(** ** The timing array *)

(** [actionTime] holds one entry per call and per card. *)
Definition timing_inv (a : App) : Prop :=
  forall d, deal a = Some d ->
            length (actionTime d) = (length (auction d) + length (play d))%nat.

(** Scenario E of the specification: two calls and one card, then an undo of
    five actions. *)
Definition scenario_E_events : list Event :=
  map (at_time 0)
    [sc_deal (mkDealMsg "1" "100" "n" "SHDC" "SHDC" "SHDC" "SHDC" false);
     sc_call_made "1S"; sc_call_made "p"; sc_card_played "D4"].

Definition scenario_E : App :=
  Eval vm_compute in run scenario_E_events (app0 None).

(** The deal of Scenario E. *)
Definition scenario_E_deal : Deal :=
  Eval vm_compute in default (new_deal (mkDealMsg "" "" "" "" "" "" "" false) 0) (deal scenario_E).

(** The three arrays the invariant is about. *)
Definition lists_of (a : App) : option (list Z * list string * list string) :=
  match deal a with
  | Some d => Some (actionTime d, auction d, play d)
  | None => None
  end.

(** ** Rolling back into the auction *)

(** The contract, denomination and declarer bindings of the deal are
    cleared. *)
Definition bindings_cleared (a : App) : Prop :=
  exists d, deal a = Some d /\ contract d = None /\ denom d = None /\ declarer d = None.

(** The three fields [auctionContract] writes. *)
Definition set_bindings (c dn : option string) (dc : option Z) (d : Deal) : Deal :=
  set_declarer dc (set_denom dn (set_contract c d)).

(** What the [else] branch of [undo] leaves of the deal: [k] calls are taken
    from the end of the auction and the play is emptied. *)
Definition rolled_into_auction (k : nat) (timeStamp : Z) (n : nat) (d : Deal) : Deal :=
  set_amDummy false
    (set_auction (take (length (auction d) - k) (auction d))
       (set_play []
          (set_seenOpeningLead false
             (set_actionTime (take (length (actionTime d) - n) (actionTime d))
                (set_lastActionTime timeStamp d))))).

(** North opens 1S, three passes follow, and East leads a card. *)
Definition play_started : App :=
  Eval vm_compute in
  run (map (at_time 0)
         [sc_deal (mkDealMsg "1" "100" "n" "SHDC" "SHDC" "SHDC" "SHDC" false);
          sc_call_made "1S"; sc_call_made "p"; sc_call_made "p"; sc_call_made "p";
          sc_card_played "D4"])
      (app0 None).

(** [app] with other values in the five places that an undo into the
    auction does not touch: contract, denomination, declarer,
    [app.deal.tricks] and [app.trick]. *)
Definition left_behind (c dn : option string) (dc : option Z)
    (tks : option (list Trick)) (tr : option Trick) (a : App) : App :=
  match deal a with
  | Some d => set_trick tr (set_deal (Some (set_tricks tks (set_bindings c dn dc d))) a)
  | None => a
  end.

(** The deal after the three assignments that open [trickcard]: the card is
    pushed on [play], its time on [actionTime], and the clock restarts. *)
Definition card_pushed (card : string) (timeStamp : Z) (d : Deal) : Deal :=
  let tdiff := if blast1_complete d then timeStamp - lastActionTime d else 0 in
  set_lastActionTime timeStamp
    (set_actionTime (actionTime d ++ [tdiff]) (set_play (play d ++ [card]) d)).

(** After [play_started] the card and the closing pass are taken back; West
    then bids 2H, which is passed out. *)
Definition rebid_after_undo : App :=
  Eval vm_compute in
  run (map (at_time 0)
         [sc_undo (mkUndoMsg (Some 2%nat) None);
          sc_call_made "2H"; sc_call_made "p"; sc_call_made "p"; sc_call_made "p"])
      play_started.

(** The deal of [rebid_after_undo]. *)
Definition rebid_after_undo_deal : Deal :=
  Eval vm_compute in
  default (new_deal (mkDealMsg "" "" "" "" "" "" "" false) 0) (deal rebid_after_undo).

(** The deal of [play_started]. *)
Definition play_started_deal : Deal :=
  Eval vm_compute in
  default (new_deal (mkDealMsg "" "" "" "" "" "" "" false) 0) (deal play_started).

(** ** [showDoubleDummy]: the checks before a double dummy table is shown *)

(** The deal [d] that the double dummy request was made for: [d.bnum] and
    [d.hand] (South, West, North, East in dot notation). *)
Record DDDeal := mkDDDeal {
  bnum : JS.num;
  hand : list string
}.

(** What [showDoubleDummy] reads from the page when it runs. *)
Record DDView := mkDDView {
  (** [elDealViewer(d.source) !== undefined] *)
  ed_found : bool;
  (** [elVulPanel !== undefined] *)
  vulPanel_found : bool;
  (** [hd.length] *)
  hd_length : nat;
  (** [hd[0].style.display === 'none'] *)
  picturesOfCards : bool;
  (** [elVulPanel.innerText === ''] *)
  innerText_empty : bool;
  (** [parseInt(elVulPanel.innerText)] *)
  shown_bnum : JS.num;
  (** [(await getDealViaDOM(d.source)).hand], [None] when it returns
      [undefined] *)
  shown_hand : option (list string);
  (** [hd[1].offsetTop === 0 || hd[0].offsetHeight === 0] *)
  not_positioned : bool
}.

(** The values [showDoubleDummy] returns. *)
Inductive DDResponse :=
| dd_undefined
| dd_no_four_diagrams
| dd_pictures_of_cards
| dd_board_mismatch (expected found : JS.num)
| dd_deals_do_not_match
| dd_done.

(** [for (let i=0; i<4; i++) { if ( d2.hand[i].length === 16 &&
    d.hand[i] !== d2.hand[i] ) { dealsMatch = false; break; } }]
    from index [i], with [trips] iterations left; the value is [dealsMatch]. *)
Fixpoint deals_match (dh h2 : list string) (i trips : nat) : JS.exn + bool :=
  match trips with
  | O => inr true
  | S t =>
      match h2 !! i with
      | None => inl JS.TypeError
      | Some h =>
          if ((String.length h =? 16)%nat && negb (JS.eq_opt h (dh !! i)))%bool
          then inr false
          else deals_match dh h2 (S i) t
      end
  end.

Definition showDoubleDummy (d : DDDeal) (v : DDView) : JS.exn + DDResponse :=
  if negb (ed_found v) then inr dd_undefined
  else if negb (vulPanel_found v) then inr dd_undefined
  else if negb (hd_length v =? 4)%nat then inr dd_no_four_diagrams
  else if picturesOfCards v then inr dd_pictures_of_cards
  else if innerText_empty v then inr dd_undefined
  else if JS.strict_ne (JS.rem (JS.sub (bnum d) (shown_bnum v)) 16) (JS.Num 0) then
    match shown_bnum v with
    | JS.Num 99 => inr dd_undefined
    | _ => inr (dd_board_mismatch (bnum d) (shown_bnum v))
    end
  else
    match shown_hand v with
    | None => inl JS.TypeError
    | Some h2 =>
        match deals_match (hand d) h2 0 4 with
        | inl e => inl e
        | inr false => inr dd_deals_do_not_match
        | inr true => if not_positioned v then inr dd_undefined else inr dd_done
        end
    end.

(** The fingerprint check as the specification words it: same board number
    and same four hands. *)
Definition fingerprint_matches (d : DDDeal) (v : DDView) : Prop :=
  bnum d = shown_bnum v /\ Some (hand d) = shown_hand v.

(** The view passes the checks that precede the comparison of boards. *)
Definition view_ready (v : DDView) : Prop :=
  ed_found v = true /\ vulPanel_found v = true /\ hd_length v = 4%nat /\
  picturesOfCards v = false /\ innerText_empty v = false.

(** A result for board 17 while the page shows board 1 of another deal, of
    which some cards have been played. *)
Definition stale_result : DDDeal :=
  mkDDDeal (JS.Num 17)
    ["AKQ.JT9.876.5432"; "JT9.876.5432.AKQ"; "876.5432.AKQ.JT9"; "5432.AKQ.JT9.876"].

Definition page_after_play : DDView :=
  mkDDView true true 4 false false (JS.Num 1)
    (Some ["AK.JT9.876.5432"; "JT.876.5432.AKQ"; "87.5432.AKQ.JT9"; "54.AKQ.JT9.876"])
    false.

(** A result for board 3 and a page that shows board 3 with another South
    hand. *)
Definition other_deal_result : DDDeal :=
  mkDDDeal (JS.Num 3)
    ["AKQ.JT9.876.5432"; "JT9.876.5432.AKQ"; "876.5432.AKQ.JT9"; "5432.AKQ.JT9.876"].

Definition page_other_deal : DDView :=
  mkDDView true true 4 false false (JS.Num 3)
    (Some ["AKJ.QT9.876.5432"; "QT9.876.5432.AKQ"; "876.5432.AKQ.JT9"; "5432.AKJ.JT9.876"])
    false.

(** ** The recommendation engine *)

(** The engine is the Python side of the bot (decision_engine.py and
    dd_analyzer.py); the content script only sends it events.  Its
    definitions here follow the specification. *)
Module Recommend.

(** Modelled from the spec: the decision engine is not part of the
    sources; a Card is a (suit, rank) pair, ranks ordered 2 < ... < Ace
    (here 2 to 14). *)
Inductive Suit := Clubs | Diamonds | Hearts | Spades.

Inductive Strain := Suited (s : Suit) | Notrump.

Record Card := mkCard {
  suit : Suit;
  rank : nat
}.

#[global] Instance Suit_eq_dec : EqDecision Suit.
Proof. solve_decision. Defined.

#[global] Instance Card_eq_dec : EqDecision Card.
Proof. solve_decision. Defined.

(** Modelled from the spec: an unseen hand is a marker distinct from the
    empty hand. *)
Inductive Hand := Unknown | Known (cs : list Card).

#[global] Instance Hand_eq_dec : EqDecision Hand.
Proof. solve_decision. Defined.

(** Modelled from the spec: a Trick is a leader seat and at most four
    cards, card [i] played by seat [leader + i mod 4]; seats are numbered
    0 to 3 clockwise. *)
Record Trick := mkTrick {
  leader : nat;
  cards : list Card
}.

(** Modelled from the spec: the deal fingerprint is the board number and
    the hand composition. *)
Definition Fingerprint : Type := nat * list Hand.

(** Modelled from the spec: for each seat and strain the tricks that seat's
    partnership can force, tagged with the fingerprint of its deal. *)
Record DoubleDummyTable := mkTable {
  fingerprint : Fingerprint;
  max_tricks : nat -> Strain -> nat
}.

(** Modelled from the spec: the snapshot of the Deal that [recommend]
    reads: its fingerprint, the remaining hand of each seat, the trick in
    progress and the strain of the contract. *)
Record Deal := mkDeal {
  deal_fingerprint : Fingerprint;
  hands : list Hand;
  trick : Trick;
  strain : Strain
}.

Inductive NoRecommendation := Empty | StaleOrMissingAnalysis.

(** Modelled from the spec: the seat on play is
    [trick.leader + trick.cards.length mod 4]. *)
Definition seat_on_play (d : Deal) : nat :=
  ((leader (trick d) + length (cards (trick d))) mod 4)%nat.

Definition hand_cards (h : Hand) : list Card :=
  match h with
  | Known cs => cs
  | Unknown => []
  end.

(** The remaining hand of the seat on play. *)
Definition acting_hand (d : Deal) : list Card :=
  hand_cards (default Unknown (hands d !! seat_on_play d)).

(** Modelled from the spec: if the trick in progress is non-empty, the
    legal cards are those of the suit led if the seat holds any, otherwise
    the full hand. *)
Definition legal_cards (d : Deal) : list Card :=
  match cards (trick d) with
  | [] => acting_hand d
  | led :: _ =>
      match filter (fun c => suit c = suit led) (acting_hand d) with
      | [] => acting_hand d
      | follow => follow
      end
  end.

Definition suit_length (h : list Card) (s : Suit) : nat :=
  length (filter (fun c => suit c = s) h).

(** Modelled from the spec: every legal card gets the table entry of the
    seat and the contract's strain as its estimate (a static lookup); the
    maximum is selected, ties broken by the longest remaining suit and then
    by the highest rank.  [prefer h c b] holds when [c] is to replace the
    best card [b] found so far. *)
Definition prefer (h : list Card) (c b : Card) : bool :=
  let lc := suit_length h (suit c) in
  let lb := suit_length h (suit b) in
  ((lb <? lc)%nat || ((lb =? lc)%nat && (rank b <? rank c)%nat))%bool.

Definition select (h : list Card) (legal : list Card) : option Card :=
  fold_left (fun best c =>
               match best with
               | None => Some c
               | Some b => if prefer h c b then Some c else Some b
               end) legal None.

(** Modelled from the spec: [recommend] fails with [Empty] on an empty
    legal set and with [StaleOrMissingAnalysis] without a table or with a
    table of another fingerprint; otherwise it returns the selected card
    and a rationale made of the strain and the trick estimate. *)
Definition recommend (d : Deal) (dd_table : option DoubleDummyTable)
  : (Card * (Strain * nat)) + NoRecommendation :=
  match legal_cards d with
  | [] => inr Empty
  | _ =>
      match dd_table with
      | None => inr StaleOrMissingAnalysis
      | Some tb =>
          if decide (fingerprint tb = deal_fingerprint d) then
            match select (acting_hand d) (legal_cards d) with
            | Some c => inl (c, (strain d, max_tricks tb (seat_on_play d) (strain d)))
            | None => inr Empty
            end
          else inr StaleOrMissingAnalysis
      end
  end.

(** West to play to a spade lead, holding two spades and a heart. *)
Definition example_deal : Deal :=
  mkDeal (7%nat, [])
    [Known []; Known [mkCard Hearts 14; mkCard Spades 3; mkCard Spades 12]; Unknown; Unknown]
    (mkTrick 0 [mkCard Spades 10])
    (Suited Hearts).

Definition example_table : DoubleDummyTable :=
  mkTable (7%nat, []) (fun _ _ => 9%nat).

End Recommend.

(** ** Undo followed by replay *)

(** [app.deal.tricks], last trick first, with [app.trick]: what the closing
    block of [trickcard] does to them when [card] is played under [trump]. *)
Definition push_card (trump : option string) (st : list Trick * Trick) (card : string)
  : list Trick * Trick :=
  let t1 := mkTrick (leader st.2) (cards st.2 ++ [card]) in
  if (length (cards t1) =? 4)%nat then
    (t1 :: st.1,
     mkTrick (JS.rem (JS.add (leader t1) (JS.Num (bix (best_card trump (cards t1))))) 4) [])
  else (st.1, t1).

(** The tricks that [trickcard] builds from the cards [p], the first trick
    being led by [l0]. *)
Definition build (trump : option string) (l0 : JS.num) (p : list string)
  : list Trick * Trick :=
  fold_left (push_card trump) p ([], mkTrick l0 []).

(** The state of the play of deal [d] after the cards [p]. *)
Definition playing (d : Deal) (l0 : JS.num) (p : list string) (tb : option Table) : App :=
  mkApp (Some (set_tricks (Some (rev (build (denom d) l0 p).1)) (set_play p d)))
        (Some (build (denom d) l0 p).2) tb.

(** The leader of the first trick: [(app.deal.declarer+1) % 4]. *)
Definition first_leader (d : Deal) : JS.num :=
  JS.rem (JS.add (JS.of_option (declarer d)) (JS.Num 1)) 4.

(** The state without its timing fields: the action times, the time of the
    last action and the mark that the timing was saved. *)
Definition strip_deal (d : Deal) : Deal :=
  set_timingSaved false (set_actionTime [] (set_lastActionTime 0 d)).

Definition strip (a : App) : App :=
  mkApp (option_map strip_deal (deal a)) (trick a) (table a).

(** Calls and cards as the server sends them, each with its time stamp. *)
Definition call_events (calls : list (string * Z)) : list Event :=
  map (fun x => mkEvent (sc_call_made x.1) x.2) calls.

Definition card_events (cs : list (string * Z)) : list Event :=
  map (fun x => mkEvent (sc_card_played x.1) x.2) cs.

(** Contract, denomination and declarer are those [auctionContract] derives
    from the auction. *)
Definition bound_from_auction (d : Deal) : Prop :=
  auctionContract (mkApp (Some d) None None) = (JS.Normal, mkApp (Some d) None None).

(** The states in which the tracker follows a deal from its messages: the
    player is neither dummy nor being reseated, the timing array has one entry
    per action, and either no card has been played and no opening lead seen,
    or cards have been played and contract, declarer and tricks are those
    [auctionContract] and [trickcard] derive from the auction and the play. *)
Definition well_tracked (a : App) : Prop :=
  exists d, deal a = Some d /\ amDummy d = false /\ reseating d = false /\
    length (actionTime d) = (length (auction d) + length (play d))%nat /\
    ((seenOpeningLead d = false /\ play d = []) \/
     (seenOpeningLead d = true /\ play d <> [] /\ bound_from_auction d /\
      tricks d = Some (rev (build (denom d) (first_leader d) (play d)).1) /\
      trick a = Some (build (denom d) (first_leader d) (play d)).2)).

(** The auction is over, a card was led and taken back. *)
Definition lead_taken_back : App :=
  Eval vm_compute in
  run (map (at_time 0)
         [sc_deal (mkDealMsg "1" "100" "n" "SHDC" "SHDC" "SHDC" "SHDC" false);
          sc_call_made "1S"; sc_call_made "p"; sc_call_made "p"; sc_call_made "p";
          sc_card_played "D4"; sc_undo (mkUndoMsg (Some 1%nat) None)])
      (app0 None).

(** North plays 1S; East leads and South follows. *)
Definition two_cards_played : App :=
  Eval vm_compute in
  run (map (at_time 0)
         [sc_deal (mkDealMsg "1" "100" "n" "SHDC" "SHDC" "SHDC" "SHDC" false);
          sc_call_made "1S"; sc_call_made "p"; sc_call_made "p"; sc_call_made "p";
          sc_card_played "D4"; sc_card_played "D5"])
      (app0 None).

(** The deal of a state that has one. *)
Definition the_deal (a : App) : Deal :=
  default (new_deal (mkDealMsg "" "" "" "" "" "" "" false) 0) (deal a).

(** ** Invariants of the trick bookkeeping *)

(** A seat number of the [seats] array, or [NaN]. *)
Definition leader_ok (l : JS.num) : Prop :=
  l = JS.NaN \/ exists z, l = JS.Num z /\ 0 <= z <= 3.

(** Every filed trick holds four cards, the trick in progress fewer, their
    leaders satisfy [L], and [app.deal.tricks] exists once the opening lead
    has been seen. *)
Definition tricks_wf (L : JS.num -> Prop) (a : App) : Prop :=
  (forall t, trick a = Some t -> (length (cards t) < 4)%nat /\ L (leader t)) /\
  (forall d ts, deal a = Some d -> tricks d = Some ts ->
     Forall (fun t => length (cards t) = 4%nat /\ L (leader t)) ts) /\
  (forall d, deal a = Some d -> seenOpeningLead d = true -> is_Some (tricks d)).

(** The dealer of the deal is one of the letters of [seatorder], and the
    declarer, once bound, is a seat number. *)
Definition seats_ok (a : App) : Prop :=
  forall d, deal a = Some d ->
    0 <= JS.indexOf seatorder (dealer d) /\
    forall dc, declarer d = Some dc -> 0 <= dc <= 3.

(** Every [<sc_deal>] among the messages names a dealer that [seatorder]
    knows. *)
Definition dealers_known (es : list Event) : Prop :=
  Forall (fun e => match msg e with
                   | sc_deal m => 0 <= JS.indexOf seatorder (m_dealer m)
                   | _ => True
                   end) es.

(** The leaders that an opening lead in state [a] can give the first
    trick satisfy [L]. *)
Definition opening_ok (L : JS.num -> Prop) (a : App) : Prop :=
  forall d, deal a = Some d ->
    forall dc, (dc = None \/ exists i : nat, dc = Some (call_seat (dealer d) (Z.of_nat i))) ->
               L (JS.rem (JS.add (JS.of_option dc) (JS.Num 1)) 4).

(** ** What the handlers leave of the deal *)

(** [d'] is the same board as [d]: the attributes that [<sc_deal>] stuffed
    into [app.deal] are those of [d]. *)
Definition same_board (d d' : Deal) : Prop :=
  board d' = board d /\ table_id d' = table_id d /\ dealer d' = dealer d /\
  south d' = south d /\ west d' = west d /\ north d' = north d /\ east d' = east d.

(** [d'] is the same board as [d], and its declarer is the one of [d],
    [undefined], or the seat of a call of this board's auction. *)
Definition tracks (d d' : Deal) : Prop :=
  same_board d d' /\
  (declarer d' = declarer d \/ declarer d' = None \/
   exists i : nat, declarer d' = Some (call_seat (dealer d) (Z.of_nat i))).

(** The message is not a [<sc_deal>]. *)
Definition not_sc_deal (e : Event) : Prop :=
  match msg e with
  | sc_deal _ => False
  | _ => True
  end.

(** ** What a card leaves behind *)

(** [card] closes the trick in progress, or the trick in progress is empty
    and [card] closes the four cards of the trick filed last. *)
Definition last_played (card : string) (a : App) : Prop :=
  exists d t, deal a = Some d /\ trick a = Some t /\
    (last (cards t) = Some card \/
     cards t = [] /\
     exists ts t', tricks d = Some (ts ++ [t']) /\ length (cards t') = 4%nat /\
                   last (cards t') = Some card).

(** A deal with the given dealer and auction and nothing else. *)
Definition deal_with (dl : string) (au : list string) : Deal :=
  set_auction au (new_deal (mkDealMsg "1" "100" dl "SHDC" "SHDC" "SHDC" "SHDC" false) 0).

(** ** What [undo] leaves *)

(** [d'] holds beginnings of the arrays of [d]: of the auction, of the play,
    of the action times and of the filed tricks. *)
Definition shortened (d d' : Deal) : Prop :=
  auction d' `prefix_of` auction d /\ play d' `prefix_of` play d /\
  actionTime d' `prefix_of` actionTime d /\
  match tricks d', tricks d with
  | Some ts', Some ts => ts' `prefix_of` ts
  | None, None => True
  | _, _ => False
  end.

(** ** The messages around a second [<sc_deal>] *)

(** The calls and cards that the server sends again after a [<sc_deal>]. *)
Definition is_recap (e : Event) : Prop :=
  match msg e with
  | sc_call_made _ | sc_card_played _ => True
  | _ => False
  end.


(** The [<sc_deal>] that shows dummy all four hands. *)
Definition full_deal_msg : DealMsg :=
  mkDealMsg "5" "77" "w" "SAKQHAKQDAKQCAKQJ" "SJT9HJT9DJT9CT98" "S876H876D876C765"
    "S5432H5432D5432C432" false.

(** A Robot Race table after the first [<sc_deal>] and its
    [<sc_deal_blast_complete>]. *)
Definition robot_race : App :=
  Eval vm_compute in
  run (map (at_time 0)
         [sc_deal (mkDealMsg "3" "12" "s" "SAKQHAKQDAKQCAKQJ" "SHDC" "SHDC" "SHDC" false);
          sc_deal_blast_complete])
      (app0 (Some (mkTable "t-mbt" "1"))).

(** A page that shows board 19 of the deal that [other_deal_result] was
    computed for, as another table played it. *)
Definition page_other_table : DDView :=
  mkDDView true true 4 false false (JS.Num 19)
    (Some ["AKQ.JT9.876.5432"; "JT9.876.5432.AKQ"; "876.5432.AKQ.JT9"; "5432.AKQ.JT9.876"])
    false.

(** ** [saveDealTiming]: packing the action times *)

(** [Math.round(tm/10)] for a whole number [tm] of milliseconds: halves go
    up. *)
Definition round_tenth (tm : Z) : Z := (tm + 5) / 10.

(** Storing into a [Uint16Array]: the value modulo 2^16. *)
Definition to_uint16 (z : Z) : Z := z mod 65536.

(** One round of the packing loop of [saveDealTiming]: [v[i+1]] for
    [tm = actionTime[i]]. *)
Definition pack_time (tm : Z) : Z :=
  if ((tm <? 5) && negb (tm =? 0))%bool then to_uint16 (round_tenth 10)
  else if 552955 <=? tm then
    if 634865 <=? tm then to_uint16 (-1)
    else to_uint16 (round_tenth (tm + 20480))
  else to_uint16 (round_tenth tm).

(** [v] when the loop ends: [v[0] = formatVersion + (ncalls << 8)], then one
    code per action. *)
Definition pack_timing (d : Deal) : list Z :=
  to_uint16 (1 + Z.shiftl (Z.of_nat (length (auction d))) 8) :: map pack_time (actionTime d).

(** A UTF-16 surrogate code unit, U+D800 to U+DFFF. *)
Definition surrogate (c : Z) : Prop := 55296 <= c <= 57343.

(** ** Who made the call, who played the card *)

Definition upper_ascii (c : ascii) : ascii :=
  let n := nat_of_ascii c in
  if ((97 <=? n)%nat && (n <=? 122)%nat)%bool then ascii_of_nat (n - 32) else c.

(** [s.toUpperCase()] on ASCII strings. *)
Fixpoint toUpperCase (s : string) : string :=
  match s with
  | EmptyString => EmptyString
  | String c s' => String (upper_ascii c) (toUpperCase s')
  end.

(** [seats.indexOf(x)] for an array [seats], whose first element has index
    [i]: [-1] when no element is [x]. *)
Fixpoint array_indexOf (seats : list string) (x : string) (i : Z) : Z :=
  match seats with
  | [] => -1
  | s :: rest => if String.eqb s x then i else array_indexOf rest x (i + 1)
  end.

(** [bidder] of the bid_made event that [<sc_call_made>] sends, for the
    dealer of the deal and [ncalls = app.deal.auction.length] once the call
    has been pushed; [None] is [undefined]. *)
Definition bidder (dl : string) (ncalls : Z) : option string :=
  let seats := ["N"; "E"; "S"; "W"] in
  let dealer := if String.eqb dl "" then "N" else toUpperCase dl in
  let dealerIndex := array_indexOf seats dealer 0 in
  let bidderIndex := Z.rem (dealerIndex + ncalls - 1) 4 in
  if 0 <=? dealerIndex then JS.at_ seats bidderIndex else Some "?".

(** [seats[i]] where [i] may be [NaN]. *)
Definition seat_at (seats : list string) (i : JS.num) : option string :=
  match i with
  | JS.Num z => JS.at_ seats z
  | JS.NaN => None
  end.

(** [player] of the card_played event that [<sc_card_played>] sends,
    computed from [app.deal] and [app.trick] before [trickcard] runs. *)
Definition card_player (d : Deal) (t : option Trick) : option string :=
  let seats := ["S"; "W"; "N"; "E"] in
  let by_declarer :=
    match declarer d with
    | Some dc => JS.at_ seats (Z.rem (dc + 1) 4)
    | None => Some "?"
    end in
  match t with
  | Some tr =>
      if seenOpeningLead d then
        seat_at seats (JS.rem (JS.add (leader tr) (JS.Num (Z.of_nat (length (cards tr))))) 4)
      else by_declarer
  | None => by_declarer
  end.

(** The messages of the auction: calls of the others, the player's own
    bids, and the end of a blast. *)
Definition is_bidding (e : Event) : Prop :=
  match msg e with
  | sc_call_made _ | cs_make_bid _ | sc_deal_blast_complete => True
  | _ => False
  end.

(** ** [historyDDcallback]: the attempts to show a result *)

(** How [historyDDcallback] ends: without a result to show, after
    [showDoubleDummy] rendered it at attempt [itry], after an answer that
    ends the attempts, after the last attempt, or with an exception. *)
Inductive DDOutcome :=
| cb_no_result
| cb_rendered (itry : nat)
| cb_gave_up (itry : nat) (r : DDResponse)
| cb_unable
| cb_threw (e : JS.exn).

(** [d.source === 'review' ? 'session' : 'review'] *)
Definition other_viewer (source : string) : string :=
  if String.eqb source "review" then "session" else "review".

(** [response.startsWith('board number does not match') ||
     response === 'deals do not match'] *)
Definition is_mismatch (r : DDResponse) : bool :=
  match r with
  | dd_board_mismatch _ _ | dd_deals_do_not_match => true
  | _ => false
  end.

(** The loop [for (let itry=0; itry<maxTries; itry++)] from attempt [itry]
    with [left] attempts to go.  [page source itry] is what
    [showDoubleDummy] finds at attempt [itry] in the deal viewer of
    [source]; the value is the outcome and the [d.source] of each attempt
    made. *)
Fixpoint dd_tries (d : DDDeal) (from_mh_hand : bool) (page : string -> nat -> DDView)
    (source : string) (itry left : nat) : DDOutcome * list string :=
  match left with
  | O => (cb_unable, [])
  | S left' =>
      let next src :=
        let '(o, tr) := dd_tries d from_mh_hand page src (S itry) left' in
        (o, source :: tr) in
      match showDoubleDummy d (page source itry) with
      | inl e => (cb_threw e, [source])
      | inr dd_undefined => next (if from_mh_hand then other_viewer source else source)
      | inr dd_done => (cb_rendered itry, [source])
      | inr r =>
          if (from_mh_hand && is_mismatch r)%bool then next source
          else (cb_gave_up itry r, [source])
      end
  end.

(** [historyDDcallback(d, dd)]: [dd] is [None] when it is [undefined] and
    else holds [dd.wasCached]; [visible] is the mode of
    [elDealViewer('visible')], [None] when that is [undefined]. *)
Definition historyDDcallback (d : DDDeal) (source : string) (dd : option bool)
    (visible : option string) (page : string -> nat -> DDView)
  : DDOutcome * list string :=
  match dd with
  | None => (cb_no_result, [])
  | Some wasCached =>
      let from_mh_hand := String.eqb source "mh_hand" in
      let maxTries := if wasCached then 11%nat else 2%nat in
      if from_mh_hand then
        match visible with
        | None => (cb_threw JS.TypeError, [])
        | Some mode => dd_tries d true page mode 0 maxTries
        end
      else dd_tries d false page source 0 maxTries
  end.

(** The page shows another deal of board 3 in the visible viewer, all the
    time. *)
Definition page_stays (source : string) (itry : nat) : DDView := page_other_deal.

(** ** Messages under which the tracker keeps following the deal *)

(** The message [e] is one that a table sends in state [a]: a call while no
    card has been played; a card, the first one only when [auctionContract]
    accepts the auction; an undo that does not exceed the actions recorded
    and does not take back exactly all the cards played. *)
Definition in_turn (a : App) (e : Event) : Prop :=
  match deal a with
  | None => False
  | Some d =>
      match msg e with
      | sc_call_made _ => play d = []
      | sc_card_played _ =>
          seenOpeningLead d = true \/ (auctionContract a).1 = JS.Normal
      | sc_undo u =>
          match undo_count u with
          | None => True
          | Some k =>
              (k <= length (auction d) + length (play d))%nat /\
              (k <> length (play d) \/ play d = [])
          end
      | _ => False
      end
  end.
(** * Properties *)

(** ** Array reads *)

Lemma at_nat {A : Type} (l : list A) (i : nat) : JS.at_ l (Z.of_nat i) = l !! i.
Proof.
  unfold JS.at_. destruct (Z.ltb_spec (Z.of_nat i) 0); [lia|].
  by rewrite Nat2Z.id.
Qed.

Lemma at_neg {A : Type} (l : list A) (i : Z) : i < 0 -> JS.at_ l i = None.
Proof. intros H. unfold JS.at_. destruct (Z.ltb_spec i 0); [done|lia]. Qed.

Lemma at_is_nat (l : list string) (i : nat) (v : string) :
  JS.at_is l (Z.of_nat i) v = true <-> l !! i = Some v.
Proof.
  unfold JS.at_is. rewrite at_nat. destruct (l !! i) as [c|]; [|done].
  rewrite String.eqb_eq. split; [by intros ->|by intros [= ->]].
Qed.

(** ** The completion predicate (guard of [auctionContract]) *)

Lemma auction_incomplete_snoc3 (pre : list string) (x y z : string) :
  auction_incomplete (pre ++ [x; y; z]) =
  ((length pre <? 1)%nat || negb (String.eqb z "p")
   || negb (String.eqb y "p") || negb (String.eqb x "p"))%bool.
Proof.
  unfold auction_incomplete. rewrite length_app. cbn [length].
  set (n := length pre).
  replace (Z.of_nat (n + 3) - 1) with (Z.of_nat (n + 2)) by lia.
  replace (Z.of_nat (n + 3) - 2) with (Z.of_nat (n + 1)) by lia.
  replace (Z.of_nat (n + 3) - 3) with (Z.of_nat (n + 0)) by lia.
  unfold JS.at_is. rewrite !at_nat.
  rewrite !lookup_app_r by (unfold n; lia).
  replace (n + 2 - length pre)%nat with 2%nat by (unfold n; lia).
  replace (n + 1 - length pre)%nat with 1%nat by (unfold n; lia).
  replace (n + 0 - length pre)%nat with 0%nat by (unfold n; lia).
  cbn [lookup list_lookup].
  destruct (Z.ltb_spec (Z.of_nat (n + 3)) 4), (Nat.ltb_spec n 1);
    try lia; reflexivity.
Qed.

Lemma auction_incomplete_short (au : list string) :
  (length au < 4)%nat -> auction_incomplete au = true.
Proof.
  intros H. unfold auction_incomplete.
  destruct (Z.ltb_spec (Z.of_nat (length au)) 4); [done|lia].
Qed.

Lemma snoc3_inv {A : Type} (l : list A) :
  (3 <= length l)%nat -> exists pre x y z, l = pre ++ [x; y; z].
Proof.
  intros H. exists (take (length l - 3) l).
  assert (Hd : length (drop (length l - 3) l) = 3%nat) by (rewrite length_drop; lia).
  destruct (drop (length l - 3) l) as [|x [|y [|z [|? ?]]]] eqn:E; try discriminate.
  exists x, y, z. by rewrite <- E, take_drop.
Qed.

Lemma auction_complete_last3 (au : list string) :
  auction_complete au = true <-> last3_pass au.
Proof.
  unfold auction_complete, last3_pass. split.
  - intros H. apply negb_true_iff in H.
    destruct (Nat.lt_ge_cases (length au) 4) as [Hl|Hl].
    { by rewrite auction_incomplete_short in H. }
    split; [done|].
    destruct (snoc3_inv au) as (pre & x & y & z & ->); [lia|].
    rewrite auction_incomplete_snoc3 in H.
    repeat (apply orb_false_iff in H; destruct H as [H ?]).
    repeat match goal with
           | H : negb (String.eqb _ _) = false |- _ =>
               apply negb_false_iff, String.eqb_eq in H; subst
           end.
    by exists pre.
  - intros [Hl [pre ->]]. rewrite auction_incomplete_snoc3.
    rewrite length_app in Hl. cbn in Hl.
    assert ((length pre <? 1)%nat = false) as -> by (apply Nat.ltb_ge; lia).
    reflexivity.
Qed.

Lemma spec_complete_last3 (au : list string) : spec_complete au -> last3_pass au.
Proof.
  intros [Hl (pre & c & -> & _)]. split; [done|].
  exists (pre ++ [c]). by rewrite <- app_assoc.
Qed.

(** C3 (counterexample): a bid followed by four passes satisfies the guard
    of [auctionContract] although the call before the last three passes is a
    Pass and the auction is not a four call pass-out. *)
Lemma auction_complete_spec_counterexample :
  ~ (auction_complete ["1S"; "p"; "p"; "p"; "p"] = true <->
     spec_complete ["1S"; "p"; "p"; "p"; "p"]).
Proof.
  intros [H _]. specialize (H eq_refl).
  destruct H as [_ (pre & c & Heq & Hc)].
  assert (Hpre : pre = ["1S"] /\ c = "p").
  { assert (Hlen : length pre = 1%nat).
    { apply (f_equal length) in Heq. rewrite length_app in Heq. cbn in Heq. lia. }
    destruct pre as [|a [|? ?]]; try discriminate.
    cbn in Heq. by injection Heq as <- <-. }
  destruct Hpre as [-> ->]. destruct Hc as [Hc|[Hall Hlen]]; [done|discriminate].
Qed.

(** C3 (amended): the completion predicate used by [auctionContract] holds
    iff the auction has at least four calls and the last three are Pass; and
    on every auction none of whose proper prefixes is already complete, it
    holds iff the predicate of the specification does. *)
Theorem auction_complete_iff (au : list string) :
  (auction_complete au = true <-> last3_pass au) /\
  ((forall k, (k < length au)%nat -> auction_complete (take k au) = false) ->
   (auction_complete au = true <-> spec_complete au)).
Proof.
  split; [apply auction_complete_last3|].
  intros Hpre. split.
  - intros H.
    destruct (proj1 (auction_complete_last3 au) H) as [Hl [pre Hau]]. subst au.
    split; [done|].
    rewrite length_app in Hl. cbn in Hl.
    destruct pre as [|c0 pre0] using rev_ind; [cbn in Hl; lia|]. clear IHpre0.
    exists pre0, c0. split; [by rewrite <- app_assoc|].
    destruct (String.eqb_spec c0 "p") as [->|Hne]; [|by left].
    right.
    destruct pre0 as [|b pre1] using rev_ind.
    { split; [|done]. cbn. repeat constructor. }
    clear IHpre1. exfalso.
    specialize (Hpre (length ((pre1 ++ [b]) ++ ["p"; "p"; "p"]))).
    rewrite !length_app in Hpre. cbn in Hpre.
    assert (Ht : take (length pre1 + 1 + 3) (((pre1 ++ [b]) ++ ["p"]) ++ ["p"; "p"; "p"])
                 = (pre1 ++ [b]) ++ ["p"; "p"; "p"]).
    { rewrite <- !app_assoc. cbn.
      rewrite take_app_ge by lia.
      replace (length pre1 + 1 + 3 - length pre1)%nat with 4%nat by lia. done. }
    rewrite Ht in Hpre.
    assert (Hc : auction_complete ((pre1 ++ [b]) ++ ["p"; "p"; "p"]) = true).
    { apply auction_complete_last3. split.
      - rewrite !length_app. cbn. lia.
      - by eexists. }
    rewrite Hpre in Hc; [discriminate|lia].
  - intros H. apply auction_complete_last3. by apply spec_complete_last3.
Qed.

Lemma auction_complete_iff_witness :
  (forall k, (k < length ["1S"; "p"; "p"; "p"])%nat ->
             auction_complete (take k ["1S"; "p"; "p"; "p"]) = false) /\
  (auction_complete ["1S"; "p"; "p"; "p"] = true <-> spec_complete ["1S"; "p"; "p"; "p"]).
Proof.
  assert (Hpre : forall k, (k < length ["1S"; "p"; "p"; "p"])%nat ->
             auction_complete (take k ["1S"; "p"; "p"; "p"]) = false).
  { intros k Hk. cbn in Hk.
    destruct k as [|[|[|[|k]]]]; [reflexivity..|lia]. }
  split; [exact Hpre|].
  exact (proj2 (auction_complete_iff ["1S"; "p"; "p"; "p"]) Hpre).
Defined.

(** ** [auctionContract] *)

(** C2: on a passed out auction [auctionContract] does not reach its
    "Pass Out hand" branch: the loop leaves [i1 = -1], [au[i1]] is [undefined]
    and reading its [length] throws a [TypeError]; no field is written. *)
Theorem auctionContract_pass_out_throws (d : Deal) (t : option Trick) (tb : option Table) :
  auctionContract (mkApp (Some (set_auction ["p"; "p"; "p"; "p"] d)) t tb) =
  (JS.Throw JS.TypeError, mkApp (Some (set_auction ["p"; "p"; "p"; "p"] d)) t tb).
Proof. reflexivity. Qed.

Lemma contract_ix_spec (au : list string) (k : nat) :
  (k <= length au)%nat ->
  (contract_ix au k = (JS.Normal, -1) /\
   forall j c, (j < k)%nat -> au !! j = Some c -> String.length c <> 2%nat) \/
  (exists (i : nat) (c : string),
     contract_ix au k = (JS.Normal, Z.of_nat i) /\ (i < k)%nat /\
     au !! i = Some c /\ String.length c = 2%nat /\
     forall j c', (i < j < k)%nat -> au !! j = Some c' -> String.length c' <> 2%nat).
Proof.
  induction k as [|k IH]; intros Hk.
  - left. split; [done|]. intros; lia.
  - cbn [contract_ix].
    destruct (lookup_lt_is_Some_2 au k) as [c Hc]; [lia|]. rewrite Hc.
    destruct (Nat.eqb_spec (String.length c) 2) as [Hl|Hl].
    + right. exists k, c. repeat split; first [done | lia | intros; lia].
    + destruct IH as [[-> IH]|(i & c0 & -> & Hi & Hc0 & Hl0 & IH)]; [lia| |].
      * left. split; [done|]. intros j c' Hj Hj'.
        destruct (decide (j = k)) as [->|]; [congruence|]. apply (IH j); [lia|done].
      * right. exists i, c0. repeat split; try done; try lia.
        intros j c' Hj Hj'.
        destruct (decide (j = k)) as [->|]; [congruence|]. apply (IH j); [lia|done].
Qed.

Lemma declarer_ix_spec (au : list string) (dn : string) (trips : nat) (from : nat) :
  (from + 2 * trips <= length au + 1)%nat ->
  exists m : nat,
    declarer_ix au (Some dn) (Z.of_nat from) trips = (JS.Normal, Z.of_nat (from + 2 * m)) /\
    (m <= trips)%nat /\
    (forall m' c, (m' < m)%nat -> au !! (from + 2 * m')%nat = Some c -> JS.charAt c 1 <> dn) /\
    (m = trips \/ exists c, au !! (from + 2 * m)%nat = Some c /\ JS.charAt c 1 = dn).
Proof.
  revert from. induction trips as [|t IH]; intros from Hb.
  - exists 0%nat. cbn. rewrite Nat.add_0_r.
    split; [done|]. split; [lia|]. split; [intros; lia|by left].
  - cbn [declarer_ix]. rewrite at_nat.
    destruct (lookup_lt_is_Some_2 au from) as [c Hc]; [lia|]. rewrite Hc.
    cbn [JS.eq_opt].
    destruct (String.eqb_spec (JS.charAt c 1) dn) as [He|He].
    + exists 0%nat. rewrite Nat.add_0_r.
      split; [done|]. split; [lia|]. split; [intros; lia|].
      right. by exists c.
    + destruct (IH (from + 2)%nat) as (m & Hm & Hle & Hbefore & Hat); [lia|].
      exists (S m).
      replace (Z.of_nat from + 2) with (Z.of_nat (from + 2)) by lia.
      rewrite Hm. replace (from + 2 + 2 * m)%nat with (from + 2 * S m)%nat by lia.
      split; [done|]. split; [lia|]. split.
      * intros m' c' Hm' Hc'. destruct m' as [|m'].
        { rewrite Nat.add_0_r in Hc'. congruence. }
        apply (Hbefore m' c'); [lia|].
        by replace (from + 2 + 2 * m')%nat with (from + 2 * S m')%nat by lia.
      * destruct Hat as [->|(c' & Hc' & He')]; [by left|right].
        exists c'. by replace (from + 2 * S m)%nat with (from + 2 + 2 * m)%nat by lia.
Qed.

Lemma mod2_even (j : nat) : (j mod 2 = if Nat.even j then 0 else 1)%nat.
Proof.
  pose proof (Nat.div_mod_eq j 2) as H.
  pose proof (Nat.mod_upper_bound j 2 ltac:(lia)) as Hr.
  assert (He : Nat.even j = Nat.even (j mod 2)).
  { rewrite H at 1. by rewrite Nat.add_comm, Nat.even_add_mul_2. }
  rewrite He. destruct (j mod 2)%nat as [|[|?]]; [done..|lia].
Qed.

Lemma trips2_bound (i n : nat) :
  (i + 4 <= n)%nat ->
  let from := Z.rem (Z.of_nat i) 2 in
  let t := trips2 from (Z.of_nat n - 4) in
  from = Z.of_nat (i mod 2) /\ (i mod 2 + 2 * t <= n + 1)%nat /\
  (i / 2 <= t)%nat /\ i = (i mod 2 + 2 * (i / 2))%nat.
Proof.
  intros Hi from t.
  assert (Hfrom : from = Z.of_nat (i mod 2)).
  { unfold from. rewrite Z.rem_mod_nonneg by lia. by rewrite Nat2Z.inj_mod. }
  unfold t, trips2. rewrite Hfrom. clear t from Hfrom.
  pose proof (Nat.div_mod_eq i 2) as Hdm.
  pose proof (Nat.mod_upper_bound i 2 ltac:(lia)) as Hr.
  set (q := (i / 2)%nat) in *. set (r := (i mod 2)%nat) in *.
  assert (H0 : 0 <= (Z.of_nat n - 4 - Z.of_nat r + 1) / 2) by (apply Z.div_pos; lia).
  assert (H1 : 2 * ((Z.of_nat n - 4 - Z.of_nat r + 1) / 2) <= Z.of_nat n - 4 - Z.of_nat r + 1)
    by (apply Z.mul_div_le; lia).
  assert (H2 : Z.of_nat q <= (Z.of_nat n - 4 - Z.of_nat r + 1) / 2)
    by (apply Z.div_le_lower_bound; lia).
  repeat split; lia.
Qed.

(** What [auctionContract] does on an auction that passes its guard: either
    no call before the last three has two characters and it throws, or it
    binds the last two character call as contract and as declarer the seat of
    the first call, on the positions of the same parity, whose second
    character is the contract's. *)
Lemma auctionContract_complete (a : App) (d : Deal) :
  deal a = Some d ->
  auction_complete (auction d) = true ->
  ((forall j c, (j < length (auction d) - 3)%nat -> auction d !! j = Some c ->
                String.length c <> 2%nat) /\
   auctionContract a = (JS.Throw JS.TypeError, a)) \/
  exists (i1 i2 : nat) (c c2 : string),
    auction d !! i1 = Some c /\ String.length c = 2%nat /\
    (forall j c', (i1 < j)%nat -> auction d !! j = Some c' -> String.length c' <> 2%nat) /\
    (i2 <= i1)%nat /\ Nat.even i2 = Nat.even i1 /\
    auction d !! i2 = Some c2 /\ JS.charAt c2 1 = JS.charAt c 1 /\
    (forall j cj, (j < i2)%nat -> Nat.even j = Nat.even i1 ->
                  auction d !! j = Some cj -> JS.charAt cj 1 <> JS.charAt c 1) /\
    auctionContract a =
      (JS.Normal,
       set_deal (Some (set_declarer (Some (call_seat (dealer d) (Z.of_nat i2)))
                         (set_denom (Some (JS.charAt c 1)) (set_contract (Some c) d)))) a).
Proof.
  intros Hd Hc. unfold auctionContract. rewrite Hd.
  pose proof Hc as Hc'. unfold auction_complete in Hc'.
  apply negb_true_iff in Hc'. rewrite Hc'.
  apply auction_complete_last3 in Hc as [Hlen [pre Hpre]].
  set (au := auction d) in *. set (n := length au) in *.
  replace (Z.to_nat (Z.of_nat n - 4 + 1)) with (n - 3)%nat by lia.
  destruct (contract_ix_spec au (n - 3)) as [[-> Hnone]|(i & c & -> & Hi & Hci & Hl & Hafter)];
    [lia| |].
  { left. split; [done|]. by rewrite at_neg by lia. }
  right. rewrite at_nat, Hci. rewrite Hl. cbn [Nat.eqb].
  cbn [denom set_denom dealer set_contract].
  destruct (trips2_bound i n) as (Hfrom & Hb & Hq & Hiq); [lia|].
  cbv zeta in Hfrom, Hb, Hq. rewrite Hfrom in Hb, Hq |- *.
  set (t := trips2 (Z.of_nat (i mod 2)) (Z.of_nat n - 4)) in *.
  destruct (declarer_ix_spec au (JS.charAt c 1) t (i mod 2)) as (m & -> & Hm & Hbefore & Hat);
    [fold n; lia|].
  assert (Hmq : (m <= i / 2)%nat).
  { destruct (Nat.le_gt_cases m (i / 2)) as [|Hgt]; [done|]. exfalso.
    apply (Hbefore (i / 2)%nat c Hgt); [|done]. by rewrite <- Hiq. }
  exists i, (i mod 2 + 2 * m)%nat, c.
  assert (Hnames : exists c2, au !! (i mod 2 + 2 * m)%nat = Some c2 /\
                              JS.charAt c2 1 = JS.charAt c 1).
  { destruct Hat as [->|Hat]; [|done].
    exists c. replace (i mod 2 + 2 * t)%nat with i by lia. done. }
  destruct Hnames as (c2 & Hc2 & Hn2). exists c2.
  split; [done|]. split; [done|]. split.
  { intros j c' Hj Hj'.
    destruct (Nat.lt_ge_cases j (n - 3)) as [Hlt|Hge]; [by apply (Hafter j c')|].
    assert (Hn : n = (length pre + 3)%nat).
    { unfold n. rewrite Hpre, length_app. done. }
    rewrite Hpre in Hj'. rewrite lookup_app_r in Hj' by lia.
    destruct (j - length pre)%nat as [|[|[|k]]]; cbn in Hj'; [..|done];
      injection Hj' as <-; cbn; lia. }
  split; [lia|]. split.
  { by rewrite Nat.even_add_mul_2, mod2_even; destruct (Nat.even i). }
  split; [done|]. split; [done|]. split; [|done].
  intros j cj Hj Hev Hcj.
  assert (Hjp : j = (i mod 2 + 2 * (j / 2))%nat).
  { pose proof (Nat.div_mod_eq j 2). rewrite (mod2_even i), <- Hev, <- mod2_even. lia. }
  rewrite Hjp in Hcj. apply (Hbefore (j / 2)%nat cj); [lia|done].
Qed.

(** C4: when some call before the three closing passes is a bid, the
    opening lead binds the last bid as contract, and as declarer the seat of
    the first call that names the contract's strain among the calls of the
    contract bidder's side (the positions of the same parity; Pass, Double and
    Redouble have no second character and name no strain); the first trick
    is opened with the next seat clockwise as leader.  In Scenario A the
    contract is 2S, declarer North, dummy South and the leader East. *)
Theorem declarer_first_named :
  (forall (a : App) (d : Deal) (j0 : nat) (c0 : string),
     deal a = Some d ->
     seenOpeningLead d = false ->
     auction_complete (auction d) = true ->
     (j0 < length (auction d) - 3)%nat ->
     auction d !! j0 = Some c0 ->
     String.length c0 = 2%nat ->
     exists (a' : App) (d' : Deal) (i1 i2 : nat) (c c2 : string) (dc : Z),
       opening_lead a = (JS.Normal, a') /\ deal a' = Some d' /\
       auction d !! i1 = Some c /\ String.length c = 2%nat /\
       (forall j c', (i1 < j)%nat -> auction d !! j = Some c' -> String.length c' <> 2%nat) /\
       contract d' = Some c /\ denom d' = Some (JS.charAt c 1) /\
       (i2 <= i1)%nat /\ Nat.even i2 = Nat.even i1 /\
       auction d !! i2 = Some c2 /\ JS.charAt c2 1 = JS.charAt c 1 /\
       (forall j cj, (j < i2)%nat -> Nat.even j = Nat.even i1 ->
                     auction d !! j = Some cj -> JS.charAt cj 1 <> JS.charAt c 1) /\
       declarer d' = Some dc /\ dc = call_seat (dealer d) (Z.of_nat i2) /\
       trick a' = Some (mkTrick (JS.Num (Z.rem (dc + 1) 4)) []))
  /\
  (exists (d' : Deal) (t : Trick) (dc l : Z),
     deal scenario_A = Some d' /\ dealer d' = "n" /\
     auction d' = ["1S"; "p"; "2S"; "p"; "p"; "p"] /\
     contract d' = Some "2S" /\ declarer d' = Some dc /\
     seats !! Z.to_nat dc = Some "North" /\
     seats !! Z.to_nat (dummy_of dc) = Some "South" /\
     trick scenario_A = Some t /\ cards t = ["D4"] /\ leader t = JS.Num l /\
     seats !! Z.to_nat l = Some "East").
Proof.
  split.
  - intros a d j0 c0 Hd Hseen Hc Hj0 Hc0 Hl0.
    destruct (auctionContract_complete a d Hd Hc)
      as [[Hnone _]|(i1 & i2 & c & c2 & H1 & H2 & H3 & H4 & H5 & H6 & H7 & H8 & Hrun)].
    { by destruct (Hnone j0 c0). }
    unfold opening_lead. rewrite Hd, Hseen, Hrun.
    cbn [deal set_deal contract set_declarer set_denom set_contract JS.eq_opt].
    assert (Hp : String.eqb "Pass" c = false).
    { apply String.eqb_neq. intros <-. discriminate. }
    rewrite Hp.
    eexists _, _, i1, i2, c, c2, _.
    split; [reflexivity|]. cbn. repeat split; try done.
  - eexists _, _, _, _. cbv. repeat split; reflexivity.
Qed.

Lemma declarer_first_named_witness :
  exists (a' : App) (d' : Deal),
    opening_lead (mkApp (Some (set_auction ["1S"; "p"; "2S"; "p"; "p"; "p"]
                                 (new_deal (mkDealMsg "1" "100" "n" "" "" "" "" false) 0)))
                    None None) = (JS.Normal, a') /\
    deal a' = Some d' /\ declarer d' = Some 2 /\
    trick a' = Some (mkTrick (JS.Num 3) []).
Proof.
  destruct (proj1 declarer_first_named
              (mkApp (Some (set_auction ["1S"; "p"; "2S"; "p"; "p"; "p"]
                              (new_deal (mkDealMsg "1" "100" "n" "" "" "" "" false) 0)))
                 None None)
              (set_auction ["1S"; "p"; "2S"; "p"; "p"; "p"]
                 (new_deal (mkDealMsg "1" "100" "n" "" "" "" "" false) 0))
              0%nat "1S" eq_refl eq_refl eq_refl ltac:(cbn; lia) eq_refl eq_refl)
    as (a' & d' & i1 & i2 & c & c2 & dc & Hrun & Hd' & _).
  exists a', d'. split; [exact Hrun|].
  cbv in Hrun. injection Hrun as <-. cbv in Hd'. injection Hd' as <-.
  repeat split; reflexivity.
Defined.

(** ** Saving the timing *)

(** [saveDealTiming] and the blocks that call it change nothing of [app]
    but the mark [timingSaved]. *)
Lemma saveDealTiming_state (a : App) :
  (saveDealTiming a).2 = a \/ (saveDealTiming a).2 = saved a.
Proof.
  unfold saveDealTiming, saved. destruct (deal a) as [d|]; [|by left].
  destruct (timingSaved d); [by left|]. right.
  by repeat case_match.
Qed.

Lemma show_deal_result_state (a : App) : (show_deal_result a).2 = a.
Proof. unfold show_deal_result. by repeat case_match. Qed.

Lemma save_and_show_state (a : App) :
  (save_and_show a).2 = a \/ (save_and_show a).2 = saved a.
Proof.
  unfold save_and_show. pose proof (saveDealTiming_state a) as H.
  destruct (saveDealTiming a) as [[|e] a1]; cbn [snd] in *; [|done].
  by rewrite show_deal_result_state.
Qed.

Lemma auction_end_state (call : string) (a : App) :
  (auction_end call a).2 = a \/ (auction_end call a).2 = saved a.
Proof.
  unfold auction_end. destruct (deal a) as [d|]; [|by left].
  destruct (table a) as [tb|]; [|by left].
  repeat case_match; first [apply save_and_show_state | by left].
Qed.

Ltac auction_end_cases :=
  cbv zeta;
  match goal with
  | |- context [auction_end ?c ?x] => destruct (auction_end_state c x) as [-> | ->]
  end.

Lemma all_cards_played_state (a : App) :
  (all_cards_played a).2 = a \/ (all_cards_played a).2 = saved a.
Proof.
  unfold all_cards_played. destruct (deal a) as [d|]; [|by left].
  destruct (length (play d) =? 52)%nat; [|by left].
  pose proof (saveDealTiming_state a) as H.
  destruct (saveDealTiming a) as [[|e] a1]; cbn [snd] in *; [|done].
  destruct (table a1) as [tb|]; [|done].
  destruct (String.eqb (style tb) "teaching"); [|done].
  by rewrite show_deal_result_state.
Qed.

Lemma all_cards_played_normal (a : App) (d : Deal) :
  deal a = Some d -> length (play d) <> 52%nat -> all_cards_played a = (JS.Normal, a).
Proof.
  intros Hd Hn. unfold all_cards_played. rewrite Hd.
  by destruct (Nat.eqb_spec (length (play d)) 52).
Qed.

Lemma trickcard_state (card : string) (ts : Z) (a : App) :
  (trickcard card ts a).2 = (card_to_trick card ts a).2 \/
  (trickcard card ts a).2 = saved (card_to_trick card ts a).2.
Proof.
  unfold trickcard. destruct (card_to_trick card ts a) as [[|e] a1]; cbn [snd]; [|by left].
  apply all_cards_played_state.
Qed.

Lemma trickcard_normal (card : string) (ts : Z) (a : App) :
  (trickcard card ts a).1 = JS.Normal -> (card_to_trick card ts a).1 = JS.Normal.
Proof. unfold trickcard. by destruct (card_to_trick card ts a) as [[|e] a1]. Qed.

(** The ways [<sc_deal>] can leave [app]. *)
Lemma on_sc_deal_cases (m : DealMsg) (ts : Z) (a : App) :
  (on_sc_deal m ts a).2 = a \/ (on_sc_deal m ts a).2 = saved a \/
  (on_sc_deal m ts a).2 = set_deal (Some (new_deal m ts)) a \/
  exists d, deal a = Some d /\
    ((on_sc_deal m ts a).2 = set_deal (Some (set_type1DealRepeat true d)) a \/
     (on_sc_deal m ts a).2 =
       set_deal (Some (set_amDummy true
         (set_hands (m_south m) (m_west m) (m_north m) (m_east m) d))) a).
Proof.
  unfold on_sc_deal. destruct (deal a) as [d|] eqn:Hd; [|by right; right; left].
  destruct (reseating d); [by left|].
  destruct (type1_repeat d m a) as [e|[|]];
    [by left|right; right; right; exists d; split; [done|by left]|].
  destruct (doubleBoard1 d m a) as [e|db]; [by left|].
  destruct (_ || _ || db)%bool;
    [|right; right; right; exists d; split; [done|by right]].
  destruct (timingSaved d); [by right; right; left|].
  destruct (table a); [|by left].
  pose proof (saveDealTiming_state a) as Hs.
  destruct (saveDealTiming a) as [[|e] a1]; cbn [snd] in *; [by right; right; left|].
  destruct Hs as [-> | ->]; [by left|by right; left].
Qed.

Lemma deal_saved (a : App) :
  deal (saved a) = option_map (set_timingSaved true) (deal a).
Proof. by destruct a as [[d|] t tb]. Qed.

Lemma trick_saved (a : App) : trick (saved a) = trick a.
Proof. by destruct a as [[d|] t tb]. Qed.

Lemma table_saved (a : App) : table (saved a) = table a.
Proof. by destruct a as [[d|] t tb]. Qed.

Lemma deal_fields_saved (P : Deal -> Prop) (a : App) :
  (forall d, P d -> P (set_timingSaved true d)) ->
  (exists d, deal a = Some d /\ P d) -> exists d, deal (saved a) = Some d /\ P d.
Proof.
  intros HP (d & Hd & H). exists (set_timingSaved true d).
  rewrite deal_saved, Hd. split; [done|by apply HP].
Qed.

Lemma lists_of_saved (a : App) : lists_of (saved a) = lists_of a.
Proof. by destruct a as [[d|] t tb]. Qed.

(** ** The winner of a trick *)

Lemma eq_opt_true (x : string) (y : option string) :
  JS.eq_opt x y = true <-> Some x = y.
Proof.
  destruct y as [v|]; cbn; [|done].
  rewrite String.eqb_eq. split; [by intros ->|by intros [= ->]].
Qed.

Lemma eq_opt_false (x : string) (y : option string) :
  JS.eq_opt x y = false <-> Some x <> y.
Proof.
  rewrite <- eq_opt_true. destruct (JS.eq_opt x y); split; done.
Qed.

Lemma has_trump_S (trump : option string) (cs : list string) (n : nat) :
  has_trump trump cs (S n) ->
  has_trump trump cs n \/ Some (card_denom (card_at cs n)) = trump.
Proof.
  intros (j & Hj & Ht). destruct (decide (j = n)) as [->|]; [by right|].
  left. exists j. split; [lia|done].
Qed.

Lemma has_trump_mono (trump : option string) (cs : list string) (n : nat) :
  has_trump trump cs n -> has_trump trump cs (S n).
Proof. intros (j & Hj & Ht). exists j. split; [lia|done]. Qed.

Local Ltac open_inv w :=
  exists w; cbn [bix bestDenom bestRank];
  split; [done|]; split; [first [done|congruence]|]; split; [done|]; split; [lia|];
  split; (intros Hh; split).

Lemma best_inv_step (trump : option string) (cs : list string) (n : nat) (b : Best) :
  best_inv trump cs n b -> best_inv trump cs (S n) (best_step trump cs b n).
Proof.
  intros (w & Hix & Hden & Hrk & Hw & Htr & Hled).
  unfold best_step. rewrite Hden, Hrk.
  assert (Hlt : forall j, (j < S n)%nat -> (j < n)%nat \/ j = n) by (intros; lia).
  destruct (JS.eq_opt (card_denom (card_at cs n)) (Some (card_denom (card_at cs w)))) eqn:Es.
  - apply eq_opt_true in Es. injection Es as Es.
    assert (Hold : has_trump trump cs (S n) -> has_trump trump cs n).
    { intros Hh. destruct (has_trump_S _ _ _ Hh) as [|Hn]; [done|].
      exists w. split; [done|]. by rewrite <- Es. }
    assert (Hnew : ~ has_trump trump cs (S n) -> ~ has_trump trump cs n).
    { intros Hh Hx. by apply Hh, has_trump_mono. }
    destruct (Z.gtb_spec (card_rank (card_at cs n)) (card_rank (card_at cs w))) as [Hgt|Hle].
    + open_inv n.
      * rewrite Es. by apply Htr, Hold.
      * intros j Hj Hjt.
        destruct (Hlt j Hj) as [Hj' | ->]; [|lia].
        destruct (Htr (Hold Hh)) as [_ Hmax]. specialize (Hmax j Hj' Hjt). lia.
      * rewrite Es. by apply Hled, Hnew.
      * intros j Hj Hjl.
        destruct (Hlt j Hj) as [Hj' | ->]; [|lia].
        destruct (Hled (Hnew Hh)) as [_ Hmax]. specialize (Hmax j Hj' Hjl). lia.
    + open_inv w.
      * by apply Htr, Hold.
      * intros j Hj Hjt.
        destruct (Hlt j Hj) as [Hj' | ->]; [by apply Htr; [apply Hold|..]|done].
      * by apply Hled, Hnew.
      * intros j Hj Hjl.
        destruct (Hlt j Hj) as [Hj' | ->]; [by apply Hled; [apply Hnew|..]|done].
  - apply eq_opt_false in Es.
    assert (Hne : card_denom (card_at cs n) <> card_denom (card_at cs w)) by congruence.
    assert (Hnew : ~ has_trump trump cs (S n) -> ~ has_trump trump cs n).
    { intros Hh Hx. by apply Hh, has_trump_mono. }
    destruct (JS.eq_opt (card_denom (card_at cs n)) trump) eqn:Et.
    + apply eq_opt_true in Et.
      assert (Hno : ~ has_trump trump cs n).
      { intros Hx. destruct (Htr Hx) as [Hwt _]. congruence. }
      open_inv n.
      * done.
      * intros j Hj Hjt. destruct (Hlt j Hj) as [Hj' | ->]; [|lia].
        exfalso. apply Hno. by exists j.
      * exfalso. apply Hh. exists n. split; [lia|done].
      * intros j Hj Hjl. exfalso. apply Hh. exists n. split; [lia|done].
    + apply eq_opt_false in Et.
      assert (Hold : has_trump trump cs (S n) -> has_trump trump cs n).
      { intros Hx. by destruct (has_trump_S _ _ _ Hx). }
      open_inv w.
      * by apply Htr, Hold.
      * intros j Hj Hjt. destruct (Hlt j Hj) as [Hj' | ->]; [|done].
        by apply Htr; [apply Hold|..].
      * by apply Hled, Hnew.
      * intros j Hj Hjl.
        destruct (Hlt j Hj) as [Hj' | ->]; [by apply Hled; [apply Hnew|..]|].
        destruct (Hled (Hnew Hh)) as [Hw0 _]. congruence.
Qed.

Lemma best_inv_init (trump : option string) (cs : list string) :
  best_inv trump cs 1 (mkBest 0 (Some (card_denom (card_at cs 0))) (card_rank (card_at cs 0))).
Proof.
  open_inv 0%nat.
  - destruct Hh as (j & Hj & Hjt). by replace j with 0%nat in Hjt by lia.
  - intros j Hj _. by replace j with 0%nat by lia.
  - done.
  - intros j Hj _. by replace j with 0%nat by lia.
Qed.

Lemma best_card_spec (trump : option string) (cs : list string) :
  exists w : nat,
    bix (best_card trump cs) = Z.of_nat w /\ loop_winner trump cs w.
Proof.
  destruct (best_inv_step trump cs 3 _
              (best_inv_step trump cs 2 _
                 (best_inv_step trump cs 1 _ (best_inv_init trump cs))))
    as (w & Hix & _ & _ & Hw).
  by exists w.
Qed.

Lemma has_trump_dec (trump : option string) (cs : list string) (n : nat) :
  has_trump trump cs n \/ ~ has_trump trump cs n.
Proof.
  induction n as [|n [IH|IH]].
  - right. intros (j & Hj & _). lia.
  - left. by apply has_trump_mono.
  - destruct (JS.eq_opt (card_denom (card_at cs n)) trump) eqn:E.
    + left. exists n. split; [lia|]. by apply eq_opt_true.
    + right. intros Hh. apply eq_opt_false in E.
      by destruct (has_trump_S _ _ _ Hh).
Qed.

(** *** The loop's reading of a card against the specification's *)

Local Ltac rank_cases r :=
  repeat match goal with
         | |- context [Ascii.eqb r ?c] => destruct (Ascii.eqb_spec r c) as [-> | ?]
         | H : context [Ascii.eqb r ?c] |- _ => destruct (Ascii.eqb_spec r c) as [-> | ?]
         end.

Lemma card_denom_spec (c : string) : is_card c -> card_denom c = spec_suit c.
Proof. destruct c as [|s [|r [|]]]; try done. Qed.

(** [rankorder.indexOf] puts the ranks in the order of the specification:
    the index of a rank is its value less two. *)
Lemma card_rank_spec (c : string) :
  is_card c -> card_rank c = Z.of_nat (spec_rank c) - 2.
Proof.
  destruct c as [|s [|r [|]]]; try done. intros [_ [n Hn]].
  unfold card_rank, spec_rank, rank_value in *.
  rank_cases r; try discriminate; reflexivity.
Qed.

Lemma rank_value_inj (r1 r2 : ascii) (n : nat) :
  rank_value r1 = Some n -> rank_value r2 = Some n -> r1 = r2.
Proof.
  unfold rank_value.
  rank_cases r1; rank_cases r2; intros H1 H2; congruence.
Qed.

Lemma card_of_suit_rank (c1 c2 : string) :
  is_card c1 -> is_card c2 ->
  spec_suit c1 = spec_suit c2 -> spec_rank c1 = spec_rank c2 -> c1 = c2.
Proof.
  destruct c1 as [|s1 [|r1 [|]]]; try done. destruct c2 as [|s2 [|r2 [|]]]; try done.
  intros [_ [n1 H1]] [_ [n2 H2]] [= ->] Hr. cbn in Hr. rewrite H1, H2 in Hr. cbn in Hr.
  subst n2. by rewrite (rank_value_inj r1 r2 n1 H1 H2).
Qed.

Lemma card_at_is_card (cs : list string) (j : nat) :
  Forall is_card cs -> (j < length cs)%nat -> is_card (card_at cs j).
Proof.
  intros Hc Hj. unfold card_at.
  destruct (lookup_lt_is_Some_2 cs j Hj) as [c Hl]. rewrite Hl. cbn.
  by apply (Forall_lookup_1 _ _ _ _ Hc Hl).
Qed.

Lemma card_at_inj (cs : list string) (i j : nat) :
  NoDup cs -> (i < length cs)%nat -> (j < length cs)%nat ->
  card_at cs i = card_at cs j -> i = j.
Proof.
  intros Hn Hi Hj. unfold card_at.
  destruct (lookup_lt_is_Some_2 cs i Hi) as [ci Hli].
  destruct (lookup_lt_is_Some_2 cs j Hj) as [cj Hlj].
  rewrite Hli, Hlj. cbn. intros ->. by apply (NoDup_lookup cs i j cj).
Qed.

(** For four different cards the loop's winner is the winner that the
    specification names. *)
Lemma loop_winner_spec (trump : option string) (cs : list string) (w : nat) :
  length cs = 4%nat -> Forall is_card cs -> NoDup cs ->
  loop_winner trump cs w -> trick_winner_spec trump cs w.
Proof.
  intros Hlen Hc Hn (Hw & Htr & Hled).
  assert (Hsuit : forall j, (j < 4)%nat -> card_denom (card_at cs j) = spec_suit (card_at cs j)).
  { intros j Hj. apply card_denom_spec, card_at_is_card; [done|lia]. }
  assert (Hrank : forall j, (j < 4)%nat ->
            card_rank (card_at cs j) = Z.of_nat (spec_rank (card_at cs j)) - 2).
  { intros j Hj. apply card_rank_spec, card_at_is_card; [done|lia]. }
  assert (Hiff : has_trump trump cs 4 <-> trump_played trump cs).
  { split; intros (j & Hj & Ht); exists j; (split; [done|]).
    - by rewrite <- Hsuit.
    - by rewrite Hsuit. }
  assert (Hstrict : forall j, (j < 4)%nat -> j <> w ->
            spec_suit (card_at cs j) = spec_suit (card_at cs w) ->
            card_rank (card_at cs j) <= card_rank (card_at cs w) ->
            (spec_rank (card_at cs j) < spec_rank (card_at cs w))%nat).
  { intros j Hj Hjw Hs Hle. rewrite !Hrank in Hle by done.
    destruct (decide (spec_rank (card_at cs j) = spec_rank (card_at cs w))) as [He|]; [|lia].
    destruct Hjw. apply (card_at_inj cs j w Hn); [lia..|].
    apply card_of_suit_rank; [apply card_at_is_card; [done|lia]..|done|done]. }
  split; [done|]. split; [|split].
  - intros Hp. rewrite <- Hsuit by done. by apply Htr, Hiff.
  - intros Hp. rewrite <- !Hsuit by (done || lia). apply Hled. by rewrite Hiff.
  - intros j Hj Hjw Hs. apply Hstrict; [done..|].
    destruct (has_trump_dec trump cs 4) as [Hh|Hh].
    + destruct (Htr Hh) as [Hwt Hmax]. apply Hmax; [done|].
      by rewrite Hsuit, Hs, <- Hsuit.
    + destruct (Hled Hh) as [Hwl Hmax]. apply Hmax; [done|].
      by rewrite Hsuit, Hs, <- Hsuit.
Qed.

(** The fourth card in [card_to_trick]. *)
Lemma card_to_trick_fourth
    (a : App) (d : Deal) (t : Trick) (ts : list Trick) (card : string) (timeStamp : Z) :
  deal a = Some d -> seenOpeningLead d = true -> tricks d = Some ts ->
  trick a = Some t -> length (cards t) = 3%nat ->
  exists (w : nat) (a1 : App) (d1 : Deal),
    card_to_trick card timeStamp a = (JS.Normal, a1) /\
    loop_winner (denom d) (cards t ++ [card]) w /\
    trick a1 = Some (mkTrick (JS.rem (JS.add (leader t) (JS.Num (Z.of_nat w))) 4) []) /\
    deal a1 = Some d1 /\
    tricks d1 = Some (ts ++ [mkTrick (leader t) (cards t ++ [card])]) /\
    play d1 = play d ++ [card].
Proof.
  intros Hd Hseen Hts Ht Hlen.
  destruct (best_card_spec (denom d) (cards t ++ [card])) as (w & Hix & Hw).
  exists w. unfold card_to_trick, opening_lead. rewrite Hd.
  cbn [deal set_deal seenOpeningLead set_lastActionTime set_actionTime set_play].
  rewrite Hseen. unfold trick_push.
  cbn [trick set_deal set_trick cards deal tricks set_lastActionTime set_actionTime set_play
       denom leader].
  rewrite Ht, length_app, Hlen. cbn [length Nat.add Nat.eqb].
  rewrite Hts, Hix.
  eexists _, _. split; [reflexivity|]. cbn.
  split; [exact Hw|]. split; [reflexivity|]. split; [reflexivity|]. split; reflexivity.
Qed.

(** C1: when a fourth card completes a trick of four different cards,
    [trickcard] files the trick and opens the next one, empty, led by the
    seat that played the winning card (card [w] was played by seat
    [(leader + w) % 4]).  The winning card is the one the specification
    names, with the ranks in the order 2 < 3 < ... < 10 < J < Q < K < A: of
    the trump strain if any of the four cards is, of the suit led
    otherwise, and ranked above every other card of that suit in the
    trick.  This is the state that [trickcard] leaves, also when the card is
    the last of the deal and the handler then ends in an exception while the
    timing is saved; for every other card it completes normally. *)
Theorem trickcard_fourth_card_winner
    (a : App) (d : Deal) (t : Trick) (ts : list Trick) (card : string) (timeStamp : Z) :
  deal a = Some d ->
  seenOpeningLead d = true ->
  tricks d = Some ts ->
  trick a = Some t ->
  length (cards t) = 3%nat ->
  Forall is_card (cards t ++ [card]) ->
  NoDup (cards t ++ [card]) ->
  exists (w : nat) (d' : Deal),
    trick_winner_spec (denom d) (cards t ++ [card]) w /\
    trick (trickcard card timeStamp a).2
      = Some (mkTrick (JS.rem (JS.add (leader t) (JS.Num (Z.of_nat w))) 4) []) /\
    deal (trickcard card timeStamp a).2 = Some d' /\
    tricks d' = Some (ts ++ [mkTrick (leader t) (cards t ++ [card])]) /\
    play d' = play d ++ [card] /\
    (length (play d) <> 51%nat -> (trickcard card timeStamp a).1 = JS.Normal).
Proof.
  intros Hd Hseen Hts Ht Hlen Hcards Hnodup.
  destruct (card_to_trick_fourth a d t ts card timeStamp Hd Hseen Hts Ht Hlen)
    as (w & a1 & d1 & Hcore & Hw & Ht1 & Hd1 & Hts1 & Hp1).
  assert (Hspec : trick_winner_spec (denom d) (cards t ++ [card]) w).
  { apply loop_winner_spec; try done. rewrite length_app, Hlen. done. }
  pose proof (trickcard_state card timeStamp a) as Hst. rewrite Hcore in Hst. cbn [snd] in Hst.
  assert (Hn : length (play d) <> 51%nat -> (trickcard card timeStamp a).1 = JS.Normal).
  { intros Hne. unfold trickcard. rewrite Hcore.
    rewrite (all_cards_played_normal a1 d1 Hd1); [done|].
    rewrite Hp1, length_app. cbn. lia. }
  destruct Hst as [-> | ->].
  - exists w, d1. split; [exact Hspec|]. by repeat (split; [done|]).
  - exists w, (set_timingSaved true d1).
    rewrite trick_saved, deal_saved, Hd1. split; [exact Hspec|].
    by repeat (split; [done|]).
Qed.

Lemma trickcard_fourth_card_winner_witness :
  trick (trickcard "SQ" 0 no_ruff).2 = Some (mkTrick (JS.Num 0) []).
Proof.
  destruct (trickcard_fourth_card_winner no_ruff no_ruff_deal
              (mkTrick (JS.Num 3) ["S9"; "SK"; "D2"]) [] "SQ" 0
              eq_refl eq_refl eq_refl eq_refl eq_refl)
    as (w & d' & (Hw & _ & Hled & Hmax) & Ht & _).
  - repeat constructor; by eexists.
  - repeat (apply NoDup_cons; split;
              [intros H; repeat (apply elem_of_cons in H as [H|H]; [discriminate|]);
               by apply elem_of_nil in H|]).
    apply NoDup_nil. done.
  - (* the king, second to play, is the only card the specification lets win *)
    cbn [cards app leader] in *.
    assert (Hnt : ~ trump_played (Some "H") ["S9"; "SK"; "D2"; "SQ"]).
    { intros (j & Hj & Hs). destruct j as [|[|[|[|j]]]]; discriminate. }
    specialize (Hled Hnt).
    destruct w as [|[|[|[|w]]]].
    + specialize (Hmax 1%nat). cbn in Hmax.
      specialize (Hmax ltac:(lia) ltac:(lia) eq_refl). lia.
    + exact Ht.
    + cbn in Hled. discriminate.
    + specialize (Hmax 1%nat). cbn in Hmax.
      specialize (Hmax ltac:(lia) ltac:(lia) eq_refl). lia.
    + lia.
Defined.

(** Scenario C of the specification: with hearts as trumps the two of
    hearts takes the ace, king and queen of spades; West, who ruffed, leads
    to the next trick. *)
Lemma scenario_C_ruff_wins :
  trick (trickcard "SQ" 0 scenario_C).2 = Some (mkTrick (JS.Num 0) []) /\
  trick_winner_spec (Some "H") ["SA"; "H2"; "SK"; "SQ"] 1.
Proof.
  split; [reflexivity|]. split; [lia|]. split; [done|]. split.
  - intros []. exists 1%nat. split; [lia|done].
  - intros [|[|[|[|j]]]] Hj Hne Hs; try discriminate; lia.
Qed.

(** ** The timing array *)

Lemma lists_of_auctionContract (a : App) :
  lists_of (snd (auctionContract a)) = lists_of a.
Proof.
  unfold auctionContract, lists_of.
  repeat case_match; simplify_eq; cbn in *; simplify_eq; try done.
Qed.

Lemma lists_of_opening_lead (a : App) :
  lists_of (snd (opening_lead a)) = lists_of a.
Proof.
  unfold opening_lead.
  destruct (deal a) as [d|] eqn:Hd; [|done].
  destruct (seenOpeningLead d); [done|].
  pose proof (lists_of_auctionContract a) as Hac.
  destruct (auctionContract a) as [[|e] a1]; cbn [snd] in *; [|done].
  destruct (deal a1) as [d1|] eqn:Hd1; [|exact Hac].
  destruct (JS.eq_opt "Pass" (contract d1)); cbn [snd]; [exact Hac|].
  rewrite <- Hac. unfold lists_of. cbn. by rewrite Hd1.
Qed.

Lemma lists_of_trick_push (card : string) (a : App) :
  lists_of (snd (trick_push card a)) = lists_of a.
Proof.
  unfold trick_push, lists_of.
  repeat case_match; simplify_eq; cbn in *; simplify_eq; try done.
Qed.

Lemma lists_of_rewind_tricks (n : nat) (a : App) :
  lists_of (snd (rewind_tricks n a)) = lists_of a.
Proof.
  unfold rewind_tricks, lists_of.
  repeat case_match; simplify_eq; cbn in *; simplify_eq; try done.
Qed.

Lemma lists_of_card_to_trick (card : string) (timeStamp : Z) (a : App) (d : Deal) :
  deal a = Some d ->
  lists_of (snd (card_to_trick card timeStamp a)) =
  Some (actionTime d ++ [if blast1_complete d then timeStamp - lastActionTime d else 0],
        auction d, play d ++ [card]).
Proof.
  intros Hd. unfold card_to_trick. rewrite Hd.
  match goal with |- context [opening_lead ?x] => pose proof (lists_of_opening_lead x) as H1 end.
  destruct (opening_lead _) as [[|e] a1]; cbn [snd] in *.
  - rewrite lists_of_trick_push, H1. reflexivity.
  - rewrite H1. reflexivity.
Qed.

Lemma lists_of_trickcard (card : string) (timeStamp : Z) (a : App) (d : Deal) :
  deal a = Some d ->
  lists_of (snd (trickcard card timeStamp a)) =
  Some (actionTime d ++ [if blast1_complete d then timeStamp - lastActionTime d else 0],
        auction d, play d ++ [card]).
Proof.
  intros Hd. rewrite <- (lists_of_card_to_trick card timeStamp a d Hd).
  destruct (trickcard_state card timeStamp a) as [-> | ->]; [done|apply lists_of_saved].
Qed.

Lemma lists_of_auction_end (call : string) (a : App) :
  lists_of (snd (auction_end call a)) = lists_of a.
Proof.
  destruct (auction_end_state call a) as [-> | ->]; [done|apply lists_of_saved].
Qed.

Lemma timing_inv_lists (a : App) :
  timing_inv a <->
  forall t au p, lists_of a = Some (t, au, p) -> length t = (length au + length p)%nat.
Proof.
  unfold timing_inv, lists_of. split.
  - intros H t au p. destruct (deal a) as [d|]; [|done].
    intros [= <- <- <-]. by apply H.
  - intros H d Hd. rewrite Hd in H. by apply H.
Qed.

Lemma undo_lists (msg : UndoMsg) (timeStamp : Z) (a : App) (d : Deal) (n : nat) :
  deal a = Some d ->
  undo_count msg = Some n ->
  (n <= length (actionTime d))%nat ->
  length (actionTime d) = (length (auction d) + length (play d))%nat ->
  lists_of (snd (undo msg timeStamp a)) =
  Some (take (length (actionTime d) - n) (actionTime d),
        take (length (auction d) - (n - length (play d))) (auction d),
        take (length (play d) - n) (play d)).
Proof.
  intros Hd Hn Hle Hinv. unfold undo. rewrite Hn, Hd.
  assert ((length (actionTime d) <? n)%nat = false) as -> by (apply Nat.ltb_ge; lia).
  cbn [play set_actionTime set_lastActionTime].
  destruct (Nat.leb_spec n (length (play d))) as [Hp|Hp].
  - rewrite lists_of_rewind_tricks. unfold lists_of. cbn.
    replace (n - length (play d))%nat with 0%nat by lia.
    by rewrite Nat.sub_0_r, firstn_all.
  - cbn [auction set_play set_seenOpeningLead set_actionTime set_lastActionTime].
    assert ((length (auction d) <? n - length (play d))%nat = false) as ->
      by (apply Nat.ltb_ge; lia).
    rewrite lists_of_rewind_tricks. unfold lists_of. cbn.
    by replace (length (play d) - n)%nat with 0%nat by lia.
Qed.

Lemma lists_of_on_sc_call_made (call : string) (ts : Z) (a : App) (d : Deal) :
  deal a = Some d ->
  lists_of (snd (on_sc_call_made call ts a)) =
  if (amDummy d || reseating d)%bool then Some (actionTime d, auction d, play d)
  else Some (actionTime d ++ [if blast1_complete d then ts - lastActionTime d else 0],
             auction d ++ [call], play d).
Proof.
  intros Hd. unfold on_sc_call_made. rewrite Hd.
  destruct (amDummy d || reseating d)%bool; cbn [snd].
  - unfold lists_of. by rewrite Hd.
  - by rewrite lists_of_auction_end.
Qed.

Lemma lists_of_on_cs_make_bid (call : string) (ts : Z) (a : App) (d : Deal) :
  deal a = Some d ->
  lists_of (snd (on_cs_make_bid call ts a)) =
  Some (actionTime d ++ [ts - lastActionTime d],
        auction d ++ [if (String.length call =? 2)%nat then call else JS.toLowerCase call],
        play d).
Proof.
  intros Hd. unfold on_cs_make_bid. rewrite Hd. by rewrite lists_of_auction_end.
Qed.

Lemma lists_of_on_sc_deal (m : DealMsg) (ts : Z) (a : App) :
  lists_of (snd (on_sc_deal m ts a)) = lists_of a \/
  lists_of (snd (on_sc_deal m ts a)) = Some ([], [], []).
Proof.
  unfold on_sc_deal. destruct (deal a) as [d|] eqn:Hd; [|by right].
  assert (Hsame : forall d', auction d' = auction d -> play d' = play d ->
                    actionTime d' = actionTime d ->
                    lists_of (set_deal (Some d') a) = lists_of a).
  { intros d' H1 H2 H3. unfold lists_of. cbn. by rewrite Hd, H1, H2, H3. }
  destruct (reseating d); [by left|].
  destruct (type1_repeat d m a) as [e|[|]]; [by left|left; by apply Hsame|].
  destruct (doubleBoard1 d m a) as [e|db]; [by left|].
  destruct (_ || _ || db)%bool; [|left; by apply Hsame].
  destruct (timingSaved d); [by right|].
  destruct (table a); [|by left].
  pose proof (saveDealTiming_state a) as Hs.
  destruct (saveDealTiming a) as [[|e] a1]; cbn [snd] in *; [by right|].
  left. destruct Hs as [-> | ->]; [done|apply lists_of_saved].
Qed.

Lemma timing_inv_dispatch (a : App) (e : Event) :
  timing_inv a -> timing_inv (dispatch a e).
Proof.
  intros Hinv. unfold dispatch, processWebsocket.
  destruct (msg e) as [call|call|card|card|m| |u].
  - destruct (deal a) as [d|] eqn:Hd; [|by unfold on_sc_call_made; rewrite Hd].
    apply timing_inv_lists. intros t au p.
    rewrite (lists_of_on_sc_call_made call (timeStamp e) a d Hd).
    destruct (amDummy d || reseating d)%bool; intros [= <- <- <-];
      rewrite ?length_app; cbn; rewrite (Hinv d Hd); lia.
  - destruct (deal a) as [d|] eqn:Hd; [|by unfold on_cs_make_bid; rewrite Hd].
    apply timing_inv_lists. intros t au p.
    rewrite (lists_of_on_cs_make_bid call (timeStamp e) a d Hd).
    intros [= <- <- <-]. rewrite !length_app. cbn. rewrite (Hinv d Hd). lia.
  - unfold on_sc_card_played. destruct (deal a) as [d|] eqn:Hd; [|done].
    destruct (negb (amDummy d) || blast2_complete d)%bool; [|done].
    apply timing_inv_lists. intros t au p.
    rewrite (lists_of_trickcard card (timeStamp e) a d Hd).
    intros [= <- <- <-]. rewrite !length_app. cbn. rewrite (Hinv d Hd). lia.
  - destruct (deal a) as [d|] eqn:Hd.
    + apply timing_inv_lists. intros t au p.
      rewrite (lists_of_trickcard card (timeStamp e) a d Hd).
      intros [= <- <- <-]. rewrite !length_app. cbn. rewrite (Hinv d Hd). lia.
    + unfold trickcard, card_to_trick. by rewrite Hd.
  - apply timing_inv_lists. intros t au p.
    destruct (lists_of_on_sc_deal m (timeStamp e) a) as [-> | ->].
    + by apply timing_inv_lists.
    + by intros [= <- <- <-].
  - unfold on_sc_deal_blast_complete. destruct (deal a) as [d|] eqn:Hd; [|done].
    repeat case_match; cbn [snd]; try done.
    all: intros d' [= <-]; cbn; by apply Hinv.
  - destruct (undo_count u) as [n|] eqn:Hn; [|by unfold undo; rewrite Hn].
    destruct (deal a) as [d|] eqn:Hd; [|by unfold undo; rewrite Hn, Hd].
    destruct (Nat.le_gt_cases n (length (actionTime d))) as [Hle|Hgt].
    + apply timing_inv_lists. intros t au p.
      rewrite (undo_lists u (timeStamp e) a d n Hd Hn Hle (Hinv d Hd)).
      intros [= <- <- <-]. rewrite !length_take. pose proof (Hinv d Hd). lia.
    + unfold undo. rewrite Hn, Hd.
      assert ((length (actionTime d) <? n)%nat = true) as -> by (apply Nat.ltb_lt; lia).
      done.
Qed.

Lemma timing_inv_app0 (tb : option Table) : timing_inv (app0 tb).
Proof. intros d Hd. discriminate. Qed.

Lemma timing_inv_run (es : list Event) (a : App) :
  timing_inv a -> timing_inv (run es a).
Proof.
  revert a. induction es as [|e es IH]; intros a Hinv; [done|].
  cbn. by apply IH, timing_inv_dispatch.
Qed.

Lemma timing_inv_reachable (a : App) : reachable a -> timing_inv a.
Proof. intros (tb & es & ->). by apply timing_inv_run. Qed.




(** ** The guard of [undo] *)

(** C5: in a reachable state, an undo whose count exceeds the number of
    calls and cards recorded returns at its guard: [app] is the same
    afterwards.  In Scenario E (two calls, one card) an undo of five actions
    changes nothing. *)
Theorem undo_exceeds_unchanged :
  (forall (a : App) (d : Deal) (u : UndoMsg) (ts : Z) (c : nat),
     reachable a -> deal a = Some d -> count u = Some c ->
     (length (auction d) + length (play d) < c)%nat ->
     undo u ts a = (JS.Normal, a)) /\
  (exists d, deal scenario_E = Some d /\
             length (auction d) = 2%nat /\ length (play d) = 1%nat /\
             forall pos ts, undo (mkUndoMsg (Some 5%nat) pos) ts scenario_E
                            = (JS.Normal, scenario_E)).
Proof.
  split.
  - intros a d u ts c Hr Hd Hc Hgt.
    pose proof (timing_inv_reachable a Hr d Hd) as Hinv.
    unfold undo, undo_count. rewrite Hc, Hd.
    destruct c as [|c]; [lia|]. cbn [Nat.eqb andb].
    assert ((length (actionTime d) <? S c)%nat = true) as -> by (apply Nat.ltb_lt; lia).
    done.
  - exists scenario_E_deal. repeat split; intros; vm_compute; reflexivity.
Qed.

Lemma undo_exceeds_unchanged_witness :
  undo (mkUndoMsg (Some 5%nat) (Some "e")) 7 scenario_E = (JS.Normal, scenario_E).
Proof.
  refine (proj1 undo_exceeds_unchanged scenario_E scenario_E_deal
            (mkUndoMsg (Some 5%nat) (Some "e")) 7 5%nat _ _ eq_refl _).
  - exists None, scenario_E_events. vm_compute. reflexivity.
  - vm_compute. reflexivity.
  - vm_compute. lia.
Defined.

(** ** Rolling back into the auction *)

Lemma undo_rolls_into_auction (a : App) (d : Deal) (u : UndoMsg) (ts : Z) (n : nat) :
  timing_inv a -> deal a = Some d ->
  undo_count u = Some n -> (n <= length (actionTime d))%nat ->
  (length (play d) < n)%nat ->
  undo u ts a =
  (JS.Normal, set_deal (Some (rolled_into_auction (n - length (play d)) ts n d)) a).
Proof.
  intros Hinv Hd Hn Hle Hgt.
  unfold undo. rewrite Hn, Hd.
  assert ((length (actionTime d) <? n)%nat = false) as -> by (apply Nat.ltb_ge; lia).
  cbn [play auction set_play set_seenOpeningLead set_actionTime set_lastActionTime].
  assert ((n <=? length (play d))%nat = false) as -> by (apply Nat.leb_gt; lia).
  pose proof (Hinv d Hd).
  assert ((length (auction d) <? n - length (play d))%nat = false) as ->
    by (apply Nat.ltb_ge; lia).
  unfold rewind_tricks. cbn. reflexivity.
Qed.

(** ** Double dummy results *)

Lemma deals_match_true (dh h2 : list string) (i trips : nat) :
  deals_match dh h2 i trips = inr true ->
  forall j h, (i <= j < i + trips)%nat -> h2 !! j = Some h ->
              String.length h = 16%nat -> dh !! j = Some h.
Proof.
  revert i. induction trips as [|t IH]; intros i Hm j h Hj Hh Hl; [lia|].
  cbn [deals_match] in Hm.
  destruct (h2 !! i) as [hi|] eqn:Hi; [|done].
  destruct ((String.length hi =? 16)%nat && negb (JS.eq_opt hi (dh !! i)))%bool eqn:E; [done|].
  destruct (decide (j = i)) as [->|Hne].
  - rewrite Hi in Hh. injection Hh as ->.
    rewrite Hl in E. cbn in E. apply negb_false_iff, eq_opt_true in E. done.
  - apply (IH (S i) Hm j h); [lia|done..].
Qed.

Lemma deals_match_differs (dh h2 : list string) (i trips j : nat) (h : string) :
  (i <= j < i + trips)%nat ->
  (forall k, (i <= k < i + trips)%nat -> is_Some (h2 !! k)) ->
  h2 !! j = Some h -> String.length h = 16%nat -> dh !! j <> Some h ->
  deals_match dh h2 i trips = inr false.
Proof.
  revert i. induction trips as [|t IH]; intros i Hj Hall Hh Hl Hne; [lia|].
  cbn [deals_match].
  destruct (Hall i) as [hi Hi]; [lia|]. rewrite Hi.
  destruct ((String.length hi =? 16)%nat && negb (JS.eq_opt hi (dh !! i)))%bool eqn:E; [done|].
  destruct (decide (j = i)) as [->|Hji].
  - rewrite Hi in Hh. injection Hh as ->. rewrite Hl in E. cbn in E.
    apply negb_false_iff, eq_opt_true in E. by destruct Hne.
  - apply IH; [lia| |done..]. intros k Hk. apply Hall. lia.
Qed.

(** C8 (counterexample): a result computed for board 17 is rendered on a
    page that shows board 1 of a deal with other hands, some of whose cards
    have been played: the board numbers agree modulo 16 and no shown hand has
    its thirteen cards left to compare. *)
Lemma showDoubleDummy_counterexample :
  showDoubleDummy stale_result page_after_play = inr dd_done /\
  ~ fingerprint_matches stale_result page_after_play.
Proof. split; [reflexivity|]. intros [H _]. discriminate. Qed.

(** C8 (amended): the table is rendered only if the board numbers agree
    modulo 16 and every shown hand that still has its thirteen cards (16
    characters) is the hand the result was computed for.  On a page that is
    ready, board numbers that differ modulo 16 give the "board number does
    not match" message (or another attempt when the page shows 99), and a
    complete shown hand that differs gives "deals do not match". *)
Theorem showDoubleDummy_validates (d : DDDeal) (v : DDView) :
  (showDoubleDummy d v = inr dd_done ->
   exists (b s : Z) (h2 : list string),
     bnum d = JS.Num b /\ shown_bnum v = JS.Num s /\ Z.rem (b - s) 16 = 0 /\
     shown_hand v = Some h2 /\
     forall j h, (j < 4)%nat -> h2 !! j = Some h -> String.length h = 16%nat ->
                 hand d !! j = Some h) /\
  (view_ready v ->
   JS.strict_ne (JS.rem (JS.sub (bnum d) (shown_bnum v)) 16) (JS.Num 0) = true ->
   showDoubleDummy d v =
     inr (match shown_bnum v with
          | JS.Num 99 => dd_undefined
          | _ => dd_board_mismatch (bnum d) (shown_bnum v)
          end)) /\
  (view_ready v ->
   JS.strict_ne (JS.rem (JS.sub (bnum d) (shown_bnum v)) 16) (JS.Num 0) = false ->
   forall (h2 : list string) (j : nat) (h : string),
     shown_hand v = Some h2 -> length h2 = 4%nat ->
     h2 !! j = Some h -> String.length h = 16%nat -> hand d !! j <> Some h ->
     showDoubleDummy d v = inr dd_deals_do_not_match).
Proof.
  unfold showDoubleDummy, view_ready. repeat split.
  - destruct (ed_found v); [|done]. destruct (vulPanel_found v); [|done].
    destruct (hd_length v =? 4)%nat; [|done]. destruct (picturesOfCards v); [done|].
    destruct (innerText_empty v); [done|]. cbn [negb].
    destruct (JS.strict_ne _ _) eqn:Hne.
    { by destruct (shown_bnum v) as [[|[]|]|]; repeat case_match. }
    destruct (bnum d) as [b|], (shown_bnum v) as [s|]; try discriminate.
    cbn in Hne. apply negb_false_iff, Z.eqb_eq in Hne.
    destruct (shown_hand v) as [h2|]; [|done].
    destruct (deals_match (hand d) h2 0 4) as [e|[|]] eqn:Hm; [done| |done].
    intros _. exists b, s, h2. repeat split; try done.
    intros j h Hj. apply (deals_match_true _ _ _ _ Hm). lia.
  - intros (-> & -> & -> & -> & ->) ->. cbn [negb Nat.eqb].
    by destruct (shown_bnum v) as [[|[]|]|]; repeat case_match.
  - intros (-> & -> & -> & -> & ->) -> h2 j h -> Hlen Hj Hl Hne. cbn [negb Nat.eqb].
    rewrite (deals_match_differs (hand d) h2 0 4 j h); try done.
    + apply lookup_lt_Some in Hj. lia.
    + intros k Hk. apply lookup_lt_is_Some_2. lia.
Qed.

Lemma showDoubleDummy_validates_witness :
  showDoubleDummy other_deal_result page_other_deal = inr dd_deals_do_not_match.
Proof.
  refine (proj2 (proj2 (showDoubleDummy_validates other_deal_result page_other_deal))
            _ eq_refl _ 0%nat "AKJ.QT9.876.5432" eq_refl eq_refl eq_refl eq_refl _).
  - by repeat split.
  - by intros [=].
Defined.

(** ** The recommendation engine *)

Lemma select_elem (h legal : list Recommend.Card) (c : Recommend.Card) :
  Recommend.select h legal = Some c -> c ∈ legal.
Proof.
  unfold Recommend.select.
  assert (Hgen : forall best,
             fold_left (fun best c =>
                 match best with
                 | None => Some c
                 | Some b => if Recommend.prefer h c b then Some c else Some b
                 end) legal best = Some c ->
             c ∈ legal \/ best = Some c).
  { induction legal as [|x legal IH]; intros best Hf; cbn in Hf; [by right|].
    destruct (IH _ Hf) as [Hin|Hb]; [left; apply elem_of_cons; by right|].
    destruct best as [b|].
    - destruct (Recommend.prefer h x b); [|by right].
      injection Hb as ->. left. apply elem_of_cons. by left.
    - injection Hb as ->. left. apply elem_of_cons. by left. }
  intros Hf. by destruct (Hgen None Hf).
Qed.

Lemma legal_cards_subset (d : Recommend.Deal) (c : Recommend.Card) :
  c ∈ Recommend.legal_cards d -> c ∈ Recommend.acting_hand d.
Proof.
  unfold Recommend.legal_cards.
  destruct (Recommend.cards (Recommend.trick d)) as [|led rest]; [done|].
  destruct (filter _ _) as [|x follow] eqn:Hf; [done|].
  rewrite <- Hf. intros Hin. by destruct (proj1 (list_elem_of_filter _ _ _) Hin).
Qed.

Lemma legal_cards_follow (d : Recommend.Deal) (c led : Recommend.Card)
    (rest : list Recommend.Card) :
  Recommend.cards (Recommend.trick d) = led :: rest ->
  (exists c', c' ∈ Recommend.acting_hand d /\ Recommend.suit c' = Recommend.suit led) ->
  c ∈ Recommend.legal_cards d ->
  Recommend.suit c = Recommend.suit led.
Proof.
  intros Hled (c' & Hc' & Hs). unfold Recommend.legal_cards. rewrite Hled.
  destruct (filter _ _) as [|x follow] eqn:Hf.
  - assert (Hin : c' ∈ filter (fun c => Recommend.suit c = Recommend.suit led)
                              (Recommend.acting_hand d))
      by (by apply (proj2 (list_elem_of_filter _ _ _))).
    rewrite Hf in Hin. by apply elem_of_nil in Hin.
  - rewrite <- Hf. intros Hin. by destruct (proj1 (list_elem_of_filter _ _ _) Hin).
Qed.

(** C9: a card that [recommend] returns is in the remaining hand of the
    seat on play, and when a card has been led and that hand holds a card of
    the suit led, the recommended card is of the suit led. *)
Theorem recommend_legal
    (d : Recommend.Deal) (t : option Recommend.DoubleDummyTable)
    (c : Recommend.Card) (why : Recommend.Strain * nat) :
  Recommend.recommend d t = inl (c, why) ->
  c ∈ Recommend.acting_hand d /\
  forall led rest,
    Recommend.cards (Recommend.trick d) = led :: rest ->
    (exists c', c' ∈ Recommend.acting_hand d /\ Recommend.suit c' = Recommend.suit led) ->
    Recommend.suit c = Recommend.suit led.
Proof.
  unfold Recommend.recommend. intros Hr.
  assert (Hsel : Recommend.select (Recommend.acting_hand d) (Recommend.legal_cards d) = Some c).
  { destruct (Recommend.legal_cards d); [done|].
    destruct t as [tb|]; [|done].
    destruct (decide _); [|done].
    destruct (Recommend.select _ _); [|done]. by injection Hr as ->. }
  apply select_elem in Hsel. split; [by apply legal_cards_subset|].
  intros led rest Hled Hhas. by apply (legal_cards_follow d c led rest).
Qed.

Lemma recommend_legal_witness :
  Recommend.mkCard Recommend.Spades 12 ∈ Recommend.acting_hand Recommend.example_deal /\
  forall led rest,
    Recommend.cards (Recommend.trick Recommend.example_deal) = led :: rest ->
    (exists c', c' ∈ Recommend.acting_hand Recommend.example_deal /\
                Recommend.suit c' = Recommend.suit led) ->
    Recommend.suit (Recommend.mkCard Recommend.Spades 12) = Recommend.suit led.
Proof.
  exact (recommend_legal Recommend.example_deal (Some Recommend.example_table)
           (Recommend.mkCard Recommend.Spades 12) (Recommend.Suited Recommend.Hearts, 9%nat)
           eq_refl).
Defined.

(** ** Undo followed by replay *)

(** Outside the states in which the tracker follows the deal the round
    trip can fail: after the opening lead was taken back, an undo of the
    closing pass followed by the same pass again leaves [seenOpeningLead]
    false where it was true; every time stamp is 0 and the timing fields
    agree. *)
Lemma undo_replay_counterexample :
  run [at_time 0 (sc_undo (mkUndoMsg (Some 1%nat) None)); at_time 0 (sc_call_made "p")]
      lead_taken_back <> lead_taken_back.
Proof. vm_compute. discriminate. Qed.

Lemma rewind_eq (cnt : nat) (t : option Trick) (stack : list Trick) :
  rewind cnt t stack =
  if (cnt =? 0)%nat then (JS.Normal, t, stack)
  else
    match t with
    | None => (JS.Throw JS.TypeError, t, stack)
    | Some tr =>
        if (cnt <=? length (cards tr))%nat then
          (JS.Normal,
           Some (mkTrick (leader tr) (take (length (cards tr) - cnt) (cards tr))), stack)
        else
          match stack with
          | [] => (JS.Normal, None, [])
          | p :: stack' => rewind (cnt - length (cards tr)) (Some p) stack'
          end
    end.
Proof. by destruct stack. Qed.

(** Truncating the trick that [card] was added to, or reopening the trick
    that [card] completed, is where the loop starts from after one step. *)
Lemma rewind_push (trump : option string) (stack : list Trick) (t : Trick)
    (c : string) (k : nat) :
  rewind (S k) (Some (push_card trump (stack, t) c).2) (push_card trump (stack, t) c).1 =
  rewind k (Some t) stack.
Proof.
  unfold push_card. cbn [fst snd cards leader]. rewrite length_app. cbn [length].
  destruct t as [l cs]. cbn [cards leader].
  assert (Htake : forall n, (n <= length cs)%nat -> take n (cs ++ [c]) = take n cs).
  { intros n Hn. by rewrite take_app_le. }
  rewrite (rewind_eq k).
  destruct (Nat.eqb_spec (length cs + 1) 4) as [H4|H4]; cbn [fst snd].
  - rewrite rewind_eq. cbn [Nat.eqb cards leader length Nat.leb].
    rewrite Nat.sub_0_r, rewind_eq. cbn [Nat.eqb cards leader].
    rewrite length_app. cbn [length].
    destruct (Nat.eqb_spec k 0) as [->|Hk].
    + assert ((1 <=? length cs + 1)%nat = true) as -> by (apply Nat.leb_le; lia).
      replace (length cs + 1 - 1)%nat with (length cs) by lia.
      by rewrite Htake, firstn_all.
    + destruct (Nat.leb_spec k (length cs)) as [Hle|Hgt].
      * assert ((S k <=? length cs + 1)%nat = true) as -> by (apply Nat.leb_le; lia).
        replace (length cs + 1 - S k)%nat with (length cs - k)%nat by lia.
        by rewrite Htake by lia.
      * assert ((S k <=? length cs + 1)%nat = false) as -> by (apply Nat.leb_gt; lia).
        by replace (S k - (length cs + 1))%nat with (k - length cs)%nat by lia.
  - rewrite rewind_eq. cbn [Nat.eqb cards leader].
    rewrite length_app. cbn [length].
    destruct (Nat.eqb_spec k 0) as [->|Hk].
    + assert ((1 <=? length cs + 1)%nat = true) as -> by (apply Nat.leb_le; lia).
      replace (length cs + 1 - 1)%nat with (length cs) by lia.
      by rewrite Htake, firstn_all.
    + destruct (Nat.leb_spec k (length cs)) as [Hle|Hgt].
      * assert ((S k <=? length cs + 1)%nat = true) as -> by (apply Nat.leb_le; lia).
        replace (length cs + 1 - S k)%nat with (length cs - k)%nat by lia.
        by rewrite Htake by lia.
      * assert ((S k <=? length cs + 1)%nat = false) as -> by (apply Nat.leb_gt; lia).
        by replace (S k - (length cs + 1))%nat with (k - length cs)%nat by lia.
Qed.

Lemma build_snoc (trump : option string) (l0 : JS.num) (p : list string) (c : string) :
  build trump l0 (p ++ [c]) = push_card trump (build trump l0 p) c.
Proof. unfold build. by rewrite fold_left_app. Qed.

(** The loop of [undo] on the tricks that [trickcard] has built from the
    cards [p]: taking back [k] of them leaves the tricks of the others. *)
Lemma rewind_build (trump : option string) (l0 : JS.num) (p : list string) (k : nat) :
  (k <= length p)%nat ->
  rewind k (Some (build trump l0 p).2) (build trump l0 p).1 =
  (JS.Normal, Some (build trump l0 (take (length p - k) p)).2,
   (build trump l0 (take (length p - k) p)).1).
Proof.
  revert p. induction k as [|k IH]; intros p Hk.
  - rewrite rewind_eq. cbn [Nat.eqb]. by rewrite Nat.sub_0_r, firstn_all.
  - destruct p as [|c0 p0] using rev_ind; [cbn in Hk; lia|]. clear IHp0.
    rewrite length_app in Hk |- *. cbn [length] in Hk |- *.
    rewrite build_snoc.
    destruct (build trump l0 p0) as [stack t] eqn:Hb.
    rewrite rewind_push.
    replace stack with (build trump l0 p0).1 by (by rewrite Hb).
    replace t with (build trump l0 p0).2 by (by rewrite Hb).
    rewrite IH by lia.
    replace (length p0 + 1 - S k)%nat with (length p0 - k)%nat by lia.
    by rewrite take_app_le by lia.
Qed.

(** The handlers treat the timing fields as a log: nothing else depends on
    them. *)
Lemma auctionContract_strip (a : App) :
  auctionContract (strip a) = ((auctionContract a).1, strip (auctionContract a).2).
Proof.
  destruct a as [[d|] t tb]; [|reflexivity].
  unfold auctionContract, strip.
  cbn [deal trick table option_map strip_deal auction set_actionTime set_lastActionTime set_timingSaved].
  destruct (auction_incomplete (auction d)); [reflexivity|].
  destruct (contract_ix _ _) as [[|e] i1]; [|reflexivity].
  destruct (JS.at_ (auction d) i1) as [c1|]; [|reflexivity].
  destruct (String.length c1 =? 2)%nat;
    cbn [denom dealer set_deal set_declarer set_denom set_contract
         set_actionTime set_lastActionTime set_timingSaved];
    (destruct (declarer_ix _ _ _ _) as [[|e] i2]; reflexivity).
Qed.

Lemma opening_lead_strip (a : App) :
  opening_lead (strip a) = ((opening_lead a).1, strip (opening_lead a).2).
Proof.
  unfold opening_lead. rewrite auctionContract_strip.
  destruct (auctionContract a) as [c a1].
  destruct a as [[d|] t tb]; [|reflexivity].
  cbn [strip deal option_map strip_deal seenOpeningLead set_actionTime set_lastActionTime set_timingSaved
       fst snd].
  destruct (seenOpeningLead d); [reflexivity|].
  destruct c; [|reflexivity].
  destruct a1 as [[d1|] t1 tb1]; [|reflexivity].
  cbn [strip deal option_map strip_deal contract set_actionTime set_lastActionTime set_timingSaved].
  destruct (JS.eq_opt "Pass" (contract d1)); reflexivity.
Qed.

Lemma trick_push_strip (card : string) (a : App) :
  trick_push card (strip a) = ((trick_push card a).1, strip (trick_push card a).2).
Proof.
  destruct a as [da [t|] tb]; [|reflexivity].
  unfold trick_push, strip. cbn [trick deal table set_trick].
  destruct (length (cards (mkTrick (leader t) (cards t ++ [card]))) =? 4)%nat;
    [|reflexivity].
  destruct da as [d|]; [|reflexivity].
  cbn [option_map strip_deal tricks set_actionTime set_lastActionTime set_timingSaved denom].
  destruct (tricks d); reflexivity.
Qed.

Lemma card_to_trick_strip (card : string) (ts ts' : Z) (a : App) :
  (card_to_trick card ts' (strip a)).1 = (card_to_trick card ts a).1 /\
  strip (card_to_trick card ts' (strip a)).2 = strip (card_to_trick card ts a).2.
Proof.
  destruct a as [[d|] t tb]; [|by split].
  unfold card_to_trick. cbn [strip deal option_map].
  set (d1 := set_lastActionTime ts _). set (d1' := set_lastActionTime ts' _).
  assert (Hs : strip (set_deal (Some d1') (mkApp (Some (strip_deal d)) t tb))
               = strip (set_deal (Some d1) (mkApp (Some d) t tb))) by reflexivity.
  pose proof (opening_lead_strip (set_deal (Some d1) (mkApp (Some d) t tb))) as H1.
  pose proof (opening_lead_strip
                (set_deal (Some d1') (mkApp (Some (strip_deal d)) t tb))) as H2.
  rewrite Hs, H1 in H2.
  destruct (opening_lead (set_deal (Some d1) _)) as [c a1].
  destruct (opening_lead (set_deal (Some d1') _)) as [c' a1'].
  cbn [fst snd] in H2.
  destruct (proj1 (pair_equal_spec _ _ _ _) H2) as [<- Hst]. clear H1 H2 Hs.
  destruct c; cbn [fst snd]; [|by split].
  pose proof (trick_push_strip card a1) as H3.
  pose proof (trick_push_strip card a1') as H4.
  rewrite <- Hst, H3 in H4.
  destruct (trick_push card a1) as [c2 a2], (trick_push card a1') as [c2' a2'].
  cbn [fst snd] in *.
  by destruct (proj1 (pair_equal_spec _ _ _ _) H4) as [-> ->].
Qed.

Lemma strip_saved (a : App) : strip (saved a) = strip a.
Proof. by destruct a as [[d|] t tb]. Qed.

Lemma strip_trickcard (card : string) (ts : Z) (a : App) :
  strip (trickcard card ts a).2 = strip (card_to_trick card ts a).2.
Proof.
  destruct (trickcard_state card ts a) as [-> | ->]; [done|apply strip_saved].
Qed.

Lemma strip_auction_end (call : string) (a : App) :
  strip (auction_end call a).2 = strip a.
Proof.
  destruct (auction_end_state call a) as [-> | ->]; [done|apply strip_saved].
Qed.

Lemma trickcard_strip (card : string) (ts ts' : Z) (a : App) :
  strip (trickcard card ts' (strip a)).2 = strip (trickcard card ts a).2.
Proof.
  rewrite !strip_trickcard. apply card_to_trick_strip.
Qed.

Lemma dispatch_call_strip (call : string) (ts ts' : Z) (a : App) :
  strip (dispatch (strip a) (mkEvent (sc_call_made call) ts')) =
  strip (dispatch a (mkEvent (sc_call_made call) ts)).
Proof.
  destruct a as [[d|] t tb]; [|reflexivity].
  unfold dispatch, processWebsocket, on_sc_call_made.
  cbn [msg timeStamp strip deal option_map strip_deal amDummy reseating
       set_actionTime set_lastActionTime set_timingSaved].
  destruct (amDummy d || reseating d)%bool; [reflexivity|].
  cbn [snd]. by rewrite !strip_auction_end.
Qed.

Lemma dispatch_card_strip (card : string) (ts ts' : Z) (a : App) :
  strip (dispatch (strip a) (mkEvent (sc_card_played card) ts')) =
  strip (dispatch a (mkEvent (sc_card_played card) ts)).
Proof.
  unfold dispatch, processWebsocket, on_sc_card_played. cbn [msg timeStamp].
  pose proof (trickcard_strip card ts ts' a) as H.
  destruct a as [[d|] t tb]; [|reflexivity].
  cbn [strip deal option_map strip_deal amDummy blast2_complete
       set_actionTime set_lastActionTime set_timingSaved] in *.
  destruct (negb (amDummy d) || blast2_complete d)%bool; [exact H|reflexivity].
Qed.

Lemma run_cons (e : Event) (es : list Event) (a : App) :
  run (e :: es) a = run es (dispatch a e).
Proof. reflexivity. Qed.

Lemma run_app (es1 es2 : list Event) (a : App) :
  run (es1 ++ es2) a = run es2 (run es1 a).
Proof. unfold run. by rewrite fold_left_app. Qed.

(** Replaying calls and cards from two states that differ in their timing
    fields only leads to states that differ in their timing fields only. *)
Lemma run_replay_strip (calls cs : list (string * Z)) (a b : App) :
  strip a = strip b ->
  strip (run (call_events calls ++ card_events cs) a) =
  strip (run (call_events calls ++ card_events cs) b).
Proof.
  revert a b. induction calls as [|[c ts] calls IH]; intros a b Hab.
  - cbn [call_events map app]. revert a b Hab.
    induction cs as [|[c ts] cs IHc]; intros a b Hab; [exact Hab|].
    cbn [card_events map fst snd]. rewrite !run_cons. apply IHc.
    rewrite <- (dispatch_card_strip c ts ts a), <- (dispatch_card_strip c ts ts b).
    by rewrite Hab.
  - cbn [call_events map app fst snd]. rewrite !run_cons. apply IH.
    rewrite <- (dispatch_call_strip c ts ts a), <- (dispatch_call_strip c ts ts b).
    by rewrite Hab.
Qed.

Lemma run_calls_strip (calls : list (string * Z)) (a b : App) :
  strip a = strip b ->
  strip (run (call_events calls) a) = strip (run (call_events calls) b).
Proof.
  intros Hab. pose proof (run_replay_strip calls [] a b Hab) as H.
  cbn [card_events map] in H. by rewrite !app_nil_r in H.
Qed.

Lemma run_calls (calls : list (string * Z)) (d : Deal) (t : option Trick)
    (tb : option Table) :
  amDummy d = false -> reseating d = false ->
  strip (run (call_events calls) (mkApp (Some d) t tb)) =
  strip (mkApp (Some (set_auction (auction d ++ map fst calls) d)) t tb).
Proof.
  revert d. induction calls as [|[c ts] calls IH]; intros d Hdum Hres.
  - cbn. rewrite app_nil_r. by destruct d.
  - cbn [call_events map fst snd]. fold (call_events calls). rewrite run_cons.
    unfold dispatch, processWebsocket, on_sc_call_made.
    cbn [msg timeStamp deal]. rewrite Hdum, Hres. cbn [orb snd].
    rewrite (run_calls_strip calls _ _ (strip_auction_end _ _)).
    unfold set_deal. cbn [trick table].
    rewrite IH by done.
    cbn [push_call auction set_lastActionTime set_actionTime set_auction].
    by rewrite <- app_assoc.
Qed.

Lemma trickcard_playing (d : Deal) (l0 : JS.num) (p : list string) (tb : option Table)
    (c : string) (ts : Z) :
  seenOpeningLead d = true ->
  strip (trickcard c ts (playing d l0 p tb)).2 = strip (playing d l0 (p ++ [c]) tb).
Proof.
  intros Hseen. rewrite strip_trickcard. unfold playing at 2. rewrite build_snoc.
  unfold playing, card_to_trick, opening_lead, trick_push, push_card.
  destruct (build (denom d) l0 p) as [stack t].
  cbn [deal trick table set_deal set_trick seenOpeningLead set_tricks set_play
       set_lastActionTime set_actionTime fst snd cards leader tricks denom play].
  rewrite Hseen.
  cbn [deal trick table set_deal set_trick seenOpeningLead set_tricks set_play
       set_lastActionTime set_actionTime fst snd cards leader tricks denom play].
  destruct (length (cards t ++ [c]) =? 4)%nat; reflexivity.
Qed.

Lemma run_cards_playing (cs : list (string * Z)) (d : Deal) (l0 : JS.num)
    (p : list string) (tb : option Table) (a : App) :
  seenOpeningLead d = true -> amDummy d = false ->
  strip a = strip (playing d l0 p tb) ->
  strip (run (card_events cs) a) = strip (playing d l0 (p ++ map fst cs) tb).
Proof.
  intros Hseen Hdum. revert p a.
  induction cs as [|[c ts] cs IH]; intros p a Ha.
  - cbn. by rewrite app_nil_r.
  - cbn [card_events map fst snd]. fold (card_events cs). rewrite run_cons.
    replace (p ++ c :: map fst cs) with ((p ++ [c]) ++ map fst cs)
      by (by rewrite <- app_assoc).
    apply IH.
    rewrite <- (dispatch_card_strip c ts ts a), Ha, (dispatch_card_strip c ts ts).
    unfold dispatch, processWebsocket, on_sc_card_played. cbn [msg timeStamp].
    unfold playing at 1. cbn [deal amDummy set_tricks set_play]. rewrite Hdum.
    cbn [negb orb]. by apply trickcard_playing.
Qed.

(** What [auctionContract] binds depends on the auction and the dealer
    only. *)
Lemma auctionContract_normal_form (a a' : App) (d : Deal) :
  deal a = Some d ->
  auctionContract a = (JS.Normal, a') ->
  exists c dn dc,
    a' = set_deal (Some (set_bindings c dn dc d)) a /\
    forall b db, deal b = Some db -> auction db = auction d -> dealer db = dealer d ->
                 auctionContract b = (JS.Normal, set_deal (Some (set_bindings c dn dc db)) b).
Proof.
  intros Hd. unfold auctionContract. rewrite Hd.
  destruct (auction_incomplete (auction d)) eqn:Hinc.
  { intros [= <-]. exists None, None, None. split; [reflexivity|].
    intros b db -> -> _. by rewrite Hinc. }
  destruct (contract_ix _ _) as [[|e] i1] eqn:Hi1; [|done].
  destruct (JS.at_ (auction d) i1) as [c1|] eqn:Hc1; [|done].
  destruct (String.length c1 =? 2)%nat eqn:Hl;
    cbn [denom dealer set_deal set_declarer set_denom set_contract];
    (destruct (declarer_ix _ _ _ _) as [[|e] i2] eqn:Hi2; [|done]);
    intros [= <-]; eexists _, _, _; (split; [reflexivity|]);
    intros b db -> -> Hdl; rewrite Hinc, Hi1, Hc1, Hl;
    cbn [denom dealer set_deal set_declarer set_denom set_contract];
    rewrite Hi2, Hdl; reflexivity.
Qed.

Lemma set_bindings_same (d : Deal) :
  set_bindings (contract d) (denom d) (declarer d) d = d.
Proof. by destruct d. Qed.

Lemma bound_from_auction_frame (d : Deal) (b : App) (db : Deal) :
  bound_from_auction d ->
  deal b = Some db -> auction db = auction d -> dealer db = dealer d ->
  auctionContract b =
  (JS.Normal, set_deal (Some (set_bindings (contract d) (denom d) (declarer d) db)) b).
Proof.
  intros Hb Hdb Hau Hdl. unfold bound_from_auction in Hb.
  destruct (auctionContract_normal_form (mkApp (Some d) None None) _ d eq_refl Hb)
    as (c & dn & dc & Heq & Hall).
  injection Heq as Heq.
  assert (contract d = c) as <- by (by rewrite Heq).
  assert (denom d = dn) as <- by (by rewrite Heq).
  assert (declarer d = dc) as <- by (by rewrite Heq).
  by apply Hall.
Qed.

Lemma auctionContract_contract (a a' : App) (d d' : Deal) :
  deal a = Some d -> auctionContract a = (JS.Normal, a') -> deal a' = Some d' ->
  contract d' = None \/ exists c, contract d' = Some c /\ String.length c = 2%nat.
Proof.
  intros Hd Hrun Hd'.
  destruct (auction_complete (auction d)) eqn:Hc.
  - destruct (auctionContract_complete a d Hd Hc)
      as [[_ Ht]|(i1 & i2 & c & c2 & _ & Hl & _ & _ & _ & _ & _ & _ & Hn)]; [congruence|].
    rewrite Hn in Hrun. injection Hrun as <-. injection Hd' as <-.
    right. by exists c.
  - unfold auctionContract in Hrun. rewrite Hd in Hrun.
    unfold auction_complete in Hc. apply negb_false_iff in Hc. rewrite Hc in Hrun.
    injection Hrun as <-. injection Hd' as <-. by left.
Qed.

Lemma bound_not_pass (d : Deal) :
  bound_from_auction d -> JS.eq_opt "Pass" (contract d) = false.
Proof.
  intros Hb.
  destruct (auctionContract_contract (mkApp (Some d) None None) _ d d eq_refl Hb eq_refl)
    as [->|(c & -> & Hl)];
    [done|].
  cbn [JS.eq_opt]. apply (proj2 (String.eqb_neq _ _)). intros <-. discriminate.
Qed.

(** The opening lead of a deal whose bindings are those of its auction. *)
Lemma dispatch_first_card (d : Deal) (t : option Trick) (tb : option Table)
    (c : string) (ts : Z) :
  seenOpeningLead d = false -> play d = [] -> amDummy d = false ->
  bound_from_auction d ->
  strip (dispatch (mkApp (Some d) t tb) (mkEvent (sc_card_played c) ts)) =
  strip (playing (set_seenOpeningLead true d) (first_leader d) [c] tb).
Proof.
  intros Hseen Hplay Hdum Hb.
  unfold dispatch, processWebsocket, on_sc_card_played. cbn [msg timeStamp deal].
  rewrite Hdum. cbn [negb orb]. rewrite strip_trickcard.
  unfold card_to_trick. cbn [deal]. rewrite Hplay.
  unfold opening_lead.
  cbn [deal set_deal seenOpeningLead set_lastActionTime set_actionTime set_play].
  rewrite Hseen.
  erewrite (bound_from_auction_frame d); [|done|reflexivity..].
  cbn [deal set_deal contract set_bindings set_declarer set_denom set_contract].
  rewrite (bound_not_pass d Hb).
  unfold playing, build, trick_push, push_card, first_leader.
  cbn [fold_left fst snd cards leader app length Nat.eqb rev
       deal trick table set_deal set_trick denom declarer tricks
       set_tricks set_seenOpeningLead set_declarer set_denom set_contract
       set_lastActionTime set_actionTime set_play].
  destruct d. cbn in *. subst. reflexivity.
Qed.

(** An undo within the play, on the tricks [trickcard] has built. *)
Lemma undo_playing (a : App) (d : Deal) (l0 : JS.num) (u : UndoMsg) (ts : Z) (k : nat) :
  deal a = Some d -> seenOpeningLead d = true ->
  tricks d = Some (rev (build (denom d) l0 (play d)).1) ->
  trick a = Some (build (denom d) l0 (play d)).2 ->
  undo_count u = Some k ->
  (k <= length (play d))%nat -> (k <= length (actionTime d))%nat ->
  (undo u ts a).1 = JS.Normal /\
  strip (undo u ts a).2 =
  strip (playing d l0 (take (length (play d) - k) (play d)) (table a)).
Proof.
  intros Hd Hseen Hts Ht Hu Hk Hk'.
  unfold undo. rewrite Hu, Hd.
  assert ((length (actionTime d) <? k)%nat = false) as -> by (apply Nat.ltb_ge; lia).
  cbn [play set_actionTime set_lastActionTime].
  assert ((k <=? length (play d))%nat = true) as -> by (apply Nat.leb_le; lia).
  unfold rewind_tricks.
  cbn [deal set_deal seenOpeningLead tricks set_play set_actionTime set_lastActionTime trick].
  rewrite Hseen, Hts, Ht, rev_involutive, rewind_build by done.
  cbn [fst snd]. split; [done|].
  unfold playing. destruct a as [da t tb]. cbn in Hd. subst da.
  destruct d. reflexivity.
Qed.

Lemma playing_self (a : App) (d : Deal) (l0 : JS.num) :
  deal a = Some d ->
  tricks d = Some (rev (build (denom d) l0 (play d)).1) ->
  trick a = Some (build (denom d) l0 (play d)).2 ->
  playing d l0 (play d) (table a) = a.
Proof.
  intros Hd Hts Ht. unfold playing. destruct a as [da t tb]. cbn in *. subst da t.
  rewrite <- Hts. by destruct d.
Qed.

(** X1. Within the play, an undo followed by the cards it took back gives
    the state before the undo, but for the timing fields: the tricks filed,
    the trick in progress and its leader are rebuilt as they were. *)
Theorem undo_replay_in_play
    (a : App) (d : Deal) (l0 : JS.num) (u : UndoMsg) (ts : Z) (k : nat)
    (cs : list (string * Z)) :
  deal a = Some d -> seenOpeningLead d = true -> amDummy d = false ->
  tricks d = Some (rev (build (denom d) l0 (play d)).1) ->
  trick a = Some (build (denom d) l0 (play d)).2 ->
  undo_count u = Some k ->
  (k <= length (play d))%nat -> (k <= length (actionTime d))%nat ->
  map fst cs = drop (length (play d) - k) (play d) ->
  (undo u ts a).1 = JS.Normal /\
  strip (run (card_events cs) (undo u ts a).2) = strip a.
Proof.
  intros Hd Hseen Hdum Hts Ht Hu Hk Hk' Hcs.
  destruct (undo_playing a d l0 u ts k Hd Hseen Hts Ht Hu Hk Hk') as [Hn Hs].
  split; [exact Hn|].
  rewrite (run_cards_playing cs d l0 _ (table a) _ Hseen Hdum Hs).
  by rewrite Hcs, take_drop, playing_self.
Qed.

Lemma bound_from_auction_same (d d2 : Deal) :
  bound_from_auction d ->
  auction d2 = auction d -> dealer d2 = dealer d ->
  contract d2 = contract d -> denom d2 = denom d -> declarer d2 = declarer d ->
  bound_from_auction d2.
Proof.
  intros Hb Hau Hdl Hc Hdn Hdc. unfold bound_from_auction.
  rewrite (bound_from_auction_frame d (mkApp (Some d2) None None) d2 Hb eq_refl Hau Hdl).
  rewrite <- Hc, <- Hdn, <- Hdc. unfold set_deal. cbn [trick table].
  by rewrite set_bindings_same.
Qed.

(** X2. An undo followed by the calls and cards it took back gives the
    state before the undo, but for the timing fields, in every state in
    which the tracker follows the deal, whether the undo stays within the
    play or reaches into the auction. *)
Theorem undo_replay_round_trip
    (a : App) (d : Deal) (u : UndoMsg) (ts : Z) (k : nat)
    (calls cs : list (string * Z)) :
  well_tracked a -> deal a = Some d ->
  undo_count u = Some k ->
  (k <= length (auction d) + length (play d))%nat ->
  map fst cs = drop (length (play d) - k) (play d) ->
  map fst calls = drop (length (auction d) - (k - length (play d))) (auction d) ->
  (undo u ts a).1 = JS.Normal /\
  strip (run (call_events calls ++ card_events cs) (undo u ts a).2) = strip a.
Proof.
  intros (d0 & Hd0 & Hdum & Hres & Hlen & Hphase) Hd Hu Hk Hcs Hcalls.
  rewrite Hd in Hd0. injection Hd0 as <-.
  assert (Hinv : timing_inv a).
  { intros d' Hd'. rewrite Hd in Hd'. by injection Hd' as <-. }
  destruct (Nat.le_gt_cases k (length (play d))) as [Hin|Hout].
  - (* the undo stays within the play *)
    replace (k - length (play d))%nat with 0%nat in Hcalls by lia.
    rewrite Nat.sub_0_r, drop_all in Hcalls.
    destruct calls; [|discriminate]. cbn [call_events map app].
    destruct Hphase as [[Hseen Hplay]|(Hseen & Hplay & Hb & Hts & Ht)].
    + rewrite Hplay in Hin, Hcs. cbn in Hin, Hcs.
      assert (k = 0%nat) as -> by lia.
      destruct cs; [|discriminate]. cbn [card_events map run fold_left].
      unfold undo. rewrite Hu, Hd. cbn [Nat.ltb Nat.leb].
      unfold rewind_tricks.
      cbn [deal set_deal seenOpeningLead set_play set_actionTime set_lastActionTime].
      rewrite Hseen. split; [done|].
      destruct a as [da t tb]. cbn in Hd. subst da.
      cbn. rewrite !Nat.sub_0_r, !firstn_all. by destruct d.
    + destruct (undo_playing a d (first_leader d) u ts k Hd Hseen Hts Ht Hu Hin)
        as [Hn Hs]; [lia|].
      split; [exact Hn|].
      rewrite (run_cards_playing cs d (first_leader d) _ (table a) _ Hseen Hdum Hs).
      by rewrite Hcs, take_drop, playing_self.
  - (* the undo goes back into the auction *)
    replace (length (play d) - k)%nat with 0%nat in Hcs by lia.
    rewrite drop_0 in Hcs.
    rewrite (undo_rolls_into_auction a d u ts k Hinv Hd Hu) by lia.
    cbn [fst snd]. split; [done|].
    destruct a as [da t tb]. cbn in Hd. subst da. unfold set_deal. cbn [trick table].
    set (j := (k - length (play d))%nat) in *.
    set (d1 := rolled_into_auction j ts k d).
    rewrite run_app.
    pose proof (run_calls calls d1 t tb eq_refl Hres) as Hc.
    assert (Hau : auction d1 ++ map fst calls = auction d).
    { unfold d1. cbn. by rewrite Hcalls, take_drop. }
    rewrite Hau in Hc.
    set (d2 := set_auction (auction d) d1) in *.
    pose proof (run_replay_strip [] cs _ _ Hc) as Hr.
    cbn [call_events map app] in Hr. rewrite Hr. clear Hr Hc.
    destruct Hphase as [[Hseen Hplay]|(Hseen & Hplay & Hb & Hts & Ht)].
    + rewrite Hplay in Hcs. destruct cs; [|discriminate].
      cbn [card_events map run fold_left].
      unfold d2, d1, rolled_into_auction. destruct d. cbn in *. by subst.
    + destruct cs as [|[c1 t1] cs].
      { cbn in Hcs. by destruct Hplay. }
      cbn [card_events map fst snd]. fold (card_events cs). rewrite run_cons.
      assert (Hb2 : bound_from_auction d2) by (by apply (bound_from_auction_same d)).
      pose proof (dispatch_first_card d2 t tb c1 t1 eq_refl eq_refl eq_refl Hb2) as H1.
      rewrite (run_cards_playing cs (set_seenOpeningLead true d2) (first_leader d2)
                 [c1] tb _ eq_refl eq_refl H1).
      cbn [map fst snd app] in Hcs |- *. rewrite Hcs.
      cbn in Ht. subst t.
      unfold playing, first_leader.
      cbn [denom declarer set_seenOpeningLead].
      unfold d2, d1, rolled_into_auction.
      cbn [denom declarer set_auction set_amDummy set_play set_seenOpeningLead
           set_actionTime set_lastActionTime].
      fold (first_leader d). rewrite <- Hts.
      destruct d. cbn in *. by subst.
Qed.

Lemma undo_replay_in_play_witness :
  (undo (mkUndoMsg (Some 1%nat) None) 8 two_cards_played).1 = JS.Normal /\
  strip (run (card_events [("D5", 9)])
           (undo (mkUndoMsg (Some 1%nat) None) 8 two_cards_played).2)
  = strip two_cards_played.
Proof.
  apply (undo_replay_in_play two_cards_played (the_deal two_cards_played) (JS.Num 3)
           (mkUndoMsg (Some 1%nat) None) 8 1%nat [("D5", 9)]);
    vm_compute; first [reflexivity | lia].
Defined.

Lemma undo_replay_round_trip_witness :
  (undo (mkUndoMsg (Some 2%nat) None) 8 play_started).1 = JS.Normal /\
  strip (run (call_events [("p", 9)] ++ card_events [("D4", 10)])
           (undo (mkUndoMsg (Some 2%nat) None) 8 play_started).2)
  = strip play_started.
Proof.
  apply (undo_replay_round_trip play_started (the_deal play_started)
           (mkUndoMsg (Some 2%nat) None) 8 2%nat [("p", 9)] [("D4", 10)]).
  - exists (the_deal play_started).
    split; [reflexivity|]. split; [reflexivity|]. split; [reflexivity|].
    split; [reflexivity|]. right.
    split; [reflexivity|]. split; [by intros [=]|].
    split; [vm_compute; reflexivity|]. split; vm_compute; reflexivity.
  - reflexivity.
  - reflexivity.
  - vm_compute. lia.
  - reflexivity.
  - reflexivity.
Defined.

(** ** Invariants of the trick bookkeeping *)

(** The two ways [auctionContract] can end. *)
Lemma auctionContract_cases (a : App) (d : Deal) :
  deal a = Some d ->
  auctionContract a = (JS.Throw JS.TypeError, a) \/
  exists c dn dc,
    auctionContract a = (JS.Normal, set_deal (Some (set_bindings c dn dc d)) a) /\
    (c = None \/ exists s, c = Some s /\ String.length s = 2%nat) /\
    (dc = None \/ exists i : nat, dc = Some (call_seat (dealer d) (Z.of_nat i))).
Proof.
  intros Hd. destruct (auction_complete (auction d)) eqn:Hc.
  - destruct (auctionContract_complete a d Hd Hc)
      as [[_ Ht]|(i1 & i2 & c & c2 & _ & Hl & _ & _ & _ & _ & _ & _ & Hn)]; [by left|].
    right. exists (Some c), (Some (JS.charAt c 1)), (Some (call_seat (dealer d) (Z.of_nat i2))).
    split; [exact Hn|]. split; right; eauto.
  - right. exists None, None, None. split; [|by split; left].
    unfold auctionContract. rewrite Hd.
    unfold auction_complete in Hc. apply negb_false_iff in Hc. by rewrite Hc.
Qed.

Lemma call_seat_range (dl : string) (i : nat) :
  0 <= JS.indexOf seatorder dl -> 0 <= call_seat dl (Z.of_nat i) <= 3.
Proof.
  intros H. unfold call_seat.
  pose proof (Z.rem_bound_pos (JS.indexOf seatorder dl + Z.of_nat i) 4). lia.
Qed.

(** The three ways the opening lead block of [trickcard] can end. *)
Lemma opening_lead_cases (a : App) (d : Deal) :
  deal a = Some d ->
  (seenOpeningLead d = true /\ opening_lead a = (JS.Normal, a)) \/
  (seenOpeningLead d = false /\ opening_lead a = (JS.Throw JS.TypeError, a)) \/
  (seenOpeningLead d = false /\
   exists c dn dc,
     (dc = None \/ exists i : nat, dc = Some (call_seat (dealer d) (Z.of_nat i))) /\
     opening_lead a =
     (JS.Normal,
      mkApp (Some (set_tricks (Some []) (set_seenOpeningLead true (set_bindings c dn dc d))))
            (Some (mkTrick (JS.rem (JS.add (JS.of_option dc) (JS.Num 1)) 4) []))
            (table a))).
Proof.
  intros Hd. unfold opening_lead. rewrite Hd.
  destruct (seenOpeningLead d); [by left|]. right.
  destruct (auctionContract_cases a d Hd) as [->|(c & dn & dc & -> & Hc & Hdc)]; [by left|].
  right. split; [done|]. exists c, dn, dc. split; [done|].
  cbn [deal set_deal contract set_bindings set_declarer set_denom set_contract].
  assert (JS.eq_opt "Pass" c = false) as ->.
  { destruct Hc as [->|(s & -> & Hl)]; [done|].
    cbn [JS.eq_opt]. apply (proj2 (String.eqb_neq _ _)). intros <-. discriminate. }
  reflexivity.
Qed.

Section TrickInvariant.

Variable L : JS.num -> Prop.

Hypothesis L_next :
  forall l w, L l -> (w < 4)%nat -> L (JS.rem (JS.add l (JS.Num (Z.of_nat w))) 4).

Lemma rewind_wf (cnt : nat) (t : option Trick) (stack : list Trick) :
  Forall (fun t => length (cards t) = 4%nat /\ L (leader t)) stack ->
  (forall tr, t = Some tr ->
     (length (cards tr) <= 4)%nat /\ L (leader tr) /\
     (cnt = 0%nat -> (length (cards tr) < 4)%nat)) ->
  (forall tr, (rewind cnt t stack).1.2 = Some tr ->
     (length (cards tr) < 4)%nat /\ L (leader tr)) /\
  Forall (fun t => length (cards t) = 4%nat /\ L (leader t)) (rewind cnt t stack).2.
Proof.
  revert cnt t. induction stack as [|p stack IH]; intros cnt t Hst Ht;
    rewrite rewind_eq.
  - destruct (Nat.eqb_spec cnt 0) as [->|Hc]; cbn [fst snd].
    { split; [|done]. intros tr Htr. destruct (Ht tr Htr) as (_ & HL & Hlt). split; auto. }
    destruct t as [tr|]; cbn [fst snd]; [|by split].
    destruct (Ht tr eq_refl) as (Hle & HL & _).
    destruct (Nat.leb_spec cnt (length (cards tr))); cbn [fst snd]; [|by split].
    split; [|done]. intros tr' [= <-]. cbn. rewrite length_take. split; [lia|done].
  - destruct (Nat.eqb_spec cnt 0) as [->|Hc]; cbn [fst snd].
    { split; [|done]. intros tr Htr. destruct (Ht tr Htr) as (_ & HL & Hlt). split; auto. }
    destruct t as [tr|]; cbn [fst snd]; [|by split].
    destruct (Ht tr eq_refl) as (Hle & HL & _).
    destruct (Nat.leb_spec cnt (length (cards tr))) as [Hin|Hout]; cbn [fst snd].
    + split; [|done]. intros tr' [= <-]. cbn. rewrite length_take. split; [lia|done].
    + apply Forall_cons in Hst as [[Hp4 HpL] Hst].
      apply IH; [done|]. intros tr' [= <-]. split; [lia|]. split; [done|lia].
Qed.

Lemma trick_push_wf (card : string) (a : App) (d : Deal) :
  deal a = Some d -> is_Some (tricks d) ->
  tricks_wf L a -> tricks_wf L (trick_push card a).2.
Proof.
  intros Hd [ts Hts] Hwf. unfold trick_push.
  destruct (trick a) as [t|] eqn:Htk; [|done].
  destruct Hwf as (Ht & Htr & Hsome).
  destruct (Ht t Htk) as [Hlt HL].
  cbn [cards]. rewrite length_app. cbn [length].
  destruct (Nat.eqb_spec (length (cards t) + 1) 4) as [H4|H4].
  - cbn [deal set_trick]. rewrite Hd, Hts. cbn [snd].
    destruct (best_card_spec (denom d) (cards t ++ [card])) as (w & -> & Hw & _).
    split; [|split].
    + intros t' [= <-]. cbn. split; [lia|]. by apply L_next.
    + intros d' ts' [= <-] [= <-]. apply Forall_app. split; [by apply (Htr d)|].
      apply Forall_singleton. cbn. rewrite length_app. cbn. split; [lia|done].
    + intros d' [= <-] _. by eexists.
  - cbn [snd]. split; [|split].
    + intros t' [= <-]. cbn. rewrite length_app. cbn. split; [lia|done].
    + intros d' ts'. cbn [deal set_trick]. apply Htr.
    + intros d'. cbn [deal set_trick]. apply Hsome.
Qed.

Lemma tricks_wf_frame (a : App) (d d' : Deal) :
  deal a = Some d -> tricks d' = tricks d ->
  (seenOpeningLead d' = true -> seenOpeningLead d = true) ->
  tricks_wf L a -> tricks_wf L (set_deal (Some d') a).
Proof.
  intros Hd Hts Hs (Ht & Htr & Hsome). split; [|split].
  - apply Ht.
  - intros d0 ts0 [= <-] Hts0. rewrite Hts in Hts0. by apply (Htr d).
  - intros d0 [= <-] Hs0. rewrite Hts. apply (Hsome d Hd). by apply Hs.
Qed.

Lemma tricks_wf_fresh (a : App) (m : DealMsg) (ts : Z) :
  tricks_wf L a -> tricks_wf L (set_deal (Some (new_deal m ts)) a).
Proof.
  intros (Ht & _ & _). split; [|split].
  - apply Ht.
  - by intros d0 ts0 [= <-].
  - by intros d0 [= <-].
Qed.

Lemma tricks_wf_saved (a : App) : tricks_wf L a -> tricks_wf L (saved a).
Proof.
  intros Hwf. unfold saved. destruct (deal a) as [d|] eqn:Hd; [|done].
  by apply (tricks_wf_frame a d).
Qed.

Lemma card_to_trick_wf (card : string) (ts : Z) (a : App) :
  tricks_wf L a -> opening_ok L a -> tricks_wf L (card_to_trick card ts a).2.
Proof.
  intros Hwf Hop. unfold card_to_trick.
  destruct (deal a) as [d|] eqn:Hd; [|done].
  set (d1 := set_lastActionTime ts _).
  assert (Hwf1 : tricks_wf L (set_deal (Some d1) a)).
  { by apply (tricks_wf_frame a d). }
  destruct (opening_lead_cases (set_deal (Some d1) a) d1 eq_refl)
    as [[Hseen ->]|[[Hseen ->]|(Hseen & c & dn & dc & Hdc & ->)]]; cbn [snd fst].
  - eapply trick_push_wf; [reflexivity| |done].
    destruct Hwf as (_ & _ & Hsome). by apply (Hsome d).
  - done.
  - eapply trick_push_wf; [reflexivity|by eexists|].
    split; [|split].
    + intros t' [= <-]. cbn. split; [lia|]. by apply (Hop d Hd).
    + intros d' ts' [= <-] [= <-]. constructor.
    + intros d' [= <-] _. by eexists.
Qed.

Lemma trickcard_wf (card : string) (ts : Z) (a : App) :
  tricks_wf L a -> opening_ok L a -> tricks_wf L (trickcard card ts a).2.
Proof.
  intros Hwf Hop.
  destruct (trickcard_state card ts a) as [-> | ->]; [|apply tricks_wf_saved];
    by apply card_to_trick_wf.
Qed.

Lemma rewind_tricks_wf (n : nat) (a : App) :
  tricks_wf L a -> tricks_wf L (rewind_tricks n a).2.
Proof.
  intros Hwf. unfold rewind_tricks.
  destruct (deal a) as [d|] eqn:Hd; [|done].
  destruct (seenOpeningLead d) eqn:Hseen; [|done].
  destruct Hwf as (Ht & Htr & Hsome).
  destruct (Hsome d Hd Hseen) as [tks Htks]. rewrite Htks.
  pose proof (rewind_wf n (trick a) (rev tks)) as Hr.
  destruct (rewind n (trick a) (rev tks)) as [[c t'] stack'].
  cbn [fst snd] in Hr |- *.
  destruct Hr as [Ht' Hst'].
  { apply Forall_rev. by apply (Htr d). }
  { intros tr Htr'. destruct (Ht tr Htr') as [Hlt HL]. split; [lia|]. by split. }
  split; [|split].
  - apply Ht'.
  - intros d' ts' [= <-] [= <-]. by apply Forall_rev.
  - intros d' [= <-] _. by eexists.
Qed.

Lemma undo_wf (u : UndoMsg) (ts : Z) (a : App) :
  tricks_wf L a -> tricks_wf L (undo u ts a).2.
Proof.
  intros Hwf. unfold undo.
  destruct (undo_count u) as [n|]; [|done].
  destruct (deal a) as [d|] eqn:Hd; [|done].
  destruct (length (actionTime d) <? n)%nat; [done|].
  cbn [play auction set_play set_seenOpeningLead set_actionTime set_lastActionTime].
  destruct (n <=? length (play d))%nat.
  - apply rewind_tricks_wf. by apply (tricks_wf_frame a d).
  - destruct (length (auction d) <? n - length (play d))%nat; cbn [snd].
    + by apply (tricks_wf_frame a d).
    + apply rewind_tricks_wf. by apply (tricks_wf_frame a d).
Qed.

Lemma dispatch_wf (a : App) (e : Event) :
  tricks_wf L a -> opening_ok L a -> tricks_wf L (dispatch a e).
Proof.
  intros Hwf Hop. unfold dispatch, processWebsocket.
  destruct (msg e) as [call|call|card|card|m| |u].
  - unfold on_sc_call_made. destruct (deal a) as [d|] eqn:Hd; [|done].
    destruct (amDummy d || reseating d)%bool; [done|].
    auction_end_cases; [|apply tricks_wf_saved]; by apply (tricks_wf_frame a d).
  - unfold on_cs_make_bid. destruct (deal a) as [d|] eqn:Hd; [|done].
    auction_end_cases; [|apply tricks_wf_saved]; by apply (tricks_wf_frame a d).
  - unfold on_sc_card_played. destruct (deal a) as [d|] eqn:Hd; [|done].
    destruct (negb (amDummy d) || blast2_complete d)%bool; [|done].
    by apply trickcard_wf.
  - by apply trickcard_wf.
  - destruct (on_sc_deal_cases m (timeStamp e) a)
      as [-> | [-> | [-> | (d & Hd & [-> | ->])]]];
      [done|by apply tricks_wf_saved|by apply tricks_wf_fresh|
       by apply (tricks_wf_frame a d)..].
  - unfold on_sc_deal_blast_complete. destruct (deal a) as [d|] eqn:Hd; [|done].
    repeat case_match; cbn [snd]; try done; by apply (tricks_wf_frame a d).
  - by apply undo_wf.
Qed.

End TrickInvariant.

(** ** Invariants over all message sequences *)

Lemma run_invariant (P : App -> Prop) (Q : Event -> Prop) :
  (forall a e, P a -> Q e -> P (dispatch a e)) ->
  forall es a, Forall Q es -> P a -> P (run es a).
Proof.
  intros Hstep es. induction es as [|e es IH]; intros a Hq Ha; [done|].
  apply Forall_cons in Hq as [He Hq]. rewrite run_cons. apply IH; [done|].
  by apply Hstep.
Qed.

(** X3. Whatever messages of [Msg] arrive, in whatever order: the trick in
    progress holds fewer than four cards, every trick filed in
    [app.deal.tricks] holds exactly four, and [app.deal.tricks] exists
    whenever [app.deal.seenOpeningLead] is set. *)
Theorem trick_shape_invariant (tb : option Table) (es : list Event) :
  tricks_wf (fun _ => True) (run es (app0 tb)).
Proof.
  apply (run_invariant (tricks_wf (fun _ => True)) (fun _ => True)).
  - intros a e Ha _. apply dispatch_wf; [done|done|]. by intros d _ dc _.
  - by apply Forall_true.
  - split; [|split]; by intros.
Qed.

Lemma same_board_refl (d : Deal) : same_board d d.
Proof. by repeat split. Qed.

Lemma tracks_refl (d : Deal) : tracks d d.
Proof. split; [apply same_board_refl|by left]. Qed.

Lemma tracks_trans (d1 d2 d3 : Deal) : tracks d1 d2 -> tracks d2 d3 -> tracks d1 d3.
Proof.
  intros [(Hb & Ht & Hd & Hs & Hw & Hn & He) H12] [(Hb' & Ht' & Hd' & Hs' & Hw' & Hn' & He') H23].
  split.
  - repeat split; congruence.
  - destruct H23 as [H|[H|[i H]]].
    + rewrite H. exact H12.
    + by right; left.
    + right; right. exists i. by rewrite H, Hd.
Qed.

Lemma trick_push_tracks (card : string) (a : App) (d : Deal) :
  deal a = Some d ->
  exists d', deal (trick_push card a).2 = Some d' /\ tracks d d'.
Proof.
  intros Hd. unfold trick_push.
  destruct (trick a) as [t|]; [|by exists d; split; [|apply tracks_refl]].
  cbn [deal set_trick]. rewrite Hd.
  destruct (length _ =? 4)%nat; [|by exists d; split; [|apply tracks_refl]].
  destruct (tricks d) as [ts|]; [|by exists d; split; [|apply tracks_refl]].
  eexists. split; [reflexivity|]. split; [by repeat split|by left].
Qed.

Lemma tracks_saved (a : App) (d : Deal) :
  (exists d', deal a = Some d' /\ tracks d d') ->
  exists d', deal (saved a) = Some d' /\ tracks d d'.
Proof.
  intros (d' & Hd' & Ht). rewrite deal_saved, Hd'. eexists. split; [reflexivity|].
  apply (tracks_trans d d'); [done|]. split; [by repeat split|by left].
Qed.

Lemma card_to_trick_tracks (card : string) (ts : Z) (a : App) (d : Deal) :
  deal a = Some d ->
  exists d', deal (card_to_trick card ts a).2 = Some d' /\ tracks d d'.
Proof.
  intros Hd. unfold card_to_trick. rewrite Hd.
  set (d1 := set_lastActionTime ts _).
  assert (H1 : tracks d d1) by (split; [by repeat split|by left]).
  destruct (opening_lead_cases (set_deal (Some d1) a) d1 eq_refl)
    as [[Hseen ->]|[[Hseen ->]|(Hseen & c & dn & dc & Hdc & ->)]]; cbn [snd fst].
  - destruct (trick_push_tracks card (set_deal (Some d1) a) d1 eq_refl) as (d' & Hd' & Ht).
    exists d'. split; [done|]. by apply (tracks_trans d d1).
  - by exists d1.
  - set (d2 := set_tricks _ _).
    destruct (trick_push_tracks card (mkApp (Some d2) (Some (mkTrick
                (JS.rem (JS.add (JS.of_option dc) (JS.Num 1)) 4) [])) (table a)) d2 eq_refl)
      as (d' & Hd' & Ht).
    exists d'. split; [done|]. apply (tracks_trans d d2); [|done].
    split; [by repeat split|]. cbn. destruct Hdc as [->|[i ->]]; [by right; left|].
    right; right. by exists i.
Qed.

Lemma trickcard_tracks (card : string) (ts : Z) (a : App) (d : Deal) :
  deal a = Some d ->
  exists d', deal (trickcard card ts a).2 = Some d' /\ tracks d d'.
Proof.
  intros Hd.
  destruct (trickcard_state card ts a) as [-> | ->]; [|apply tracks_saved];
    by apply card_to_trick_tracks.
Qed.

Lemma rewind_tricks_tracks (n : nat) (a : App) (d : Deal) :
  deal a = Some d ->
  exists d', deal (rewind_tricks n a).2 = Some d' /\ tracks d d'.
Proof.
  intros Hd. unfold rewind_tricks. rewrite Hd.
  destruct (seenOpeningLead d); [|by exists d; split; [|apply tracks_refl]].
  destruct (tricks d) as [tks|].
  - destruct (rewind n (trick a) (rev tks)) as [[c t] stack]. cbn.
    eexists. split; [reflexivity|]. split; [by repeat split|by left].
  - destruct (rewind_no_tricks n (trick a)) as [c t]. cbn.
    exists d. split; [done|apply tracks_refl].
Qed.

Lemma undo_tracks (u : UndoMsg) (ts : Z) (a : App) (d : Deal) :
  deal a = Some d ->
  exists d', deal (undo u ts a).2 = Some d' /\ tracks d d'.
Proof.
  intros Hd. unfold undo.
  destruct (undo_count u) as [n|]; [|by exists d; split; [|apply tracks_refl]].
  rewrite Hd.
  destruct (length (actionTime d) <? n)%nat; [by exists d; split; [|apply tracks_refl]|].
  cbn [play auction set_play set_seenOpeningLead set_actionTime set_lastActionTime].
  destruct (n <=? length (play d))%nat.
  - match goal with |- context [rewind_tricks n (set_deal (Some ?d2) a)] =>
      destruct (rewind_tricks_tracks n (set_deal (Some d2) a) d2 eq_refl) as (d' & Hd' & Ht);
      exists d'; split; [done|]; apply (tracks_trans d d2); [|done];
      split; [by repeat split|by left]
    end.
  - destruct (length (auction d) <? n - length (play d))%nat; cbn [snd].
    + eexists. split; [reflexivity|]. split; [by repeat split|by left].
    + match goal with |- context [rewind_tricks n (set_deal (Some ?d2) a)] =>
        destruct (rewind_tricks_tracks n (set_deal (Some d2) a) d2 eq_refl) as (d' & Hd' & Ht);
        exists d'; split; [done|]; apply (tracks_trans d d2); [|done];
        split; [by repeat split|by left]
      end.
Qed.

Lemma dispatch_tracks (a : App) (d : Deal) (e : Event) :
  deal a = Some d -> not_sc_deal e ->
  exists d', deal (dispatch a e) = Some d' /\ tracks d d'.
Proof.
  intros Hd He. unfold dispatch, processWebsocket. unfold not_sc_deal in He.
  destruct (msg e) as [call|call|card|card|m| |u]; [| | | |done| |].
  - unfold on_sc_call_made. rewrite Hd.
    destruct (amDummy d || reseating d)%bool; [by exists d; split; [|apply tracks_refl]|].
    auction_end_cases; [|apply tracks_saved];
      (eexists; split; [reflexivity|]; split; [by repeat split|by left]).
  - unfold on_cs_make_bid. rewrite Hd.
    auction_end_cases; [|apply tracks_saved];
      (eexists; split; [reflexivity|]; split; [by repeat split|by left]).
  - unfold on_sc_card_played. rewrite Hd.
    destruct (negb (amDummy d) || blast2_complete d)%bool;
      [by apply trickcard_tracks|by exists d; split; [|apply tracks_refl]].
  - by apply trickcard_tracks.
  - unfold on_sc_deal_blast_complete. rewrite Hd.
    repeat case_match; cbn [snd];
      first [by exists d; split; [|apply tracks_refl]
            |eexists; split; [reflexivity|]; split; [by repeat split|by left]].
  - by apply undo_tracks.
Qed.

(** X4. Among the messages of [Msg] only [<sc_deal>] changes which board
    [app.deal] is: after any other of them [app.deal] is still defined and
    has the board number, table, dealer and four hands it had before. *)
Theorem deal_identity_kept (a : App) (d : Deal) (e : Event) :
  deal a = Some d -> not_sc_deal e ->
  exists d', deal (dispatch a e) = Some d' /\ same_board d d'.
Proof.
  intros Hd He. destruct (dispatch_tracks a d e Hd He) as (d' & Hd' & Hb & _).
  by exists d'.
Qed.

Lemma deal_identity_kept_witness :
  exists d', deal (dispatch two_cards_played (at_time 7 (sc_undo (mkUndoMsg (Some 1%nat) None))))
             = Some d' /\ same_board (the_deal two_cards_played) d'.
Proof.
  apply (deal_identity_kept two_cards_played (the_deal two_cards_played)); [reflexivity|exact I].
Defined.

Lemma leader_ok_next (l : JS.num) (w : nat) :
  leader_ok l -> (w < 4)%nat -> leader_ok (JS.rem (JS.add l (JS.Num (Z.of_nat w))) 4).
Proof.
  intros [->|(z & -> & Hz)] Hw; [by left|]. right. eexists. split; [reflexivity|].
  pose proof (Z.rem_bound_pos (z + Z.of_nat w) 4). lia.
Qed.

Lemma seats_opening_ok (a : App) : seats_ok a -> opening_ok leader_ok a.
Proof.
  intros Hs d Hd dc [->|[i ->]]; [by left|]. right.
  destruct (Hs d Hd) as [Hdl _]. pose proof (call_seat_range (dealer d) i Hdl).
  eexists. split; [reflexivity|].
  pose proof (Z.rem_bound_pos (call_seat (dealer d) (Z.of_nat i) + 1) 4). lia.
Qed.

Lemma dispatch_no_deal (a : App) (e : Event) :
  deal a = None -> not_sc_deal e -> deal (dispatch a e) = None.
Proof.
  intros Hd He. unfold dispatch, processWebsocket. unfold not_sc_deal in He.
  destruct (msg e) as [call|call|card|card|m| |u]; [| | | |done| |].
  - unfold on_sc_call_made. by rewrite Hd.
  - unfold on_cs_make_bid. by rewrite Hd.
  - unfold on_sc_card_played. by rewrite Hd.
  - destruct (trickcard_state card (timeStamp e) a) as [-> | ->];
      rewrite ?deal_saved; unfold card_to_trick; rewrite Hd; cbn [snd]; by rewrite Hd.
  - unfold on_sc_deal_blast_complete. by rewrite Hd.
  - unfold undo. destruct (undo_count u); [|done]. by rewrite Hd.
Qed.

Lemma tracks_seats (d d' : Deal) :
  tracks d d' ->
  (0 <= JS.indexOf seatorder (dealer d) /\ forall dc, declarer d = Some dc -> 0 <= dc <= 3) ->
  0 <= JS.indexOf seatorder (dealer d') /\ forall dc, declarer d' = Some dc -> 0 <= dc <= 3.
Proof.
  intros [(_ & _ & Hdl & _) Hdc] [Hk Hr]. rewrite Hdl. split; [done|].
  intros dc Hdc'. destruct Hdc as [H|[H|[i H]]].
  - apply Hr. congruence.
  - congruence.
  - rewrite H in Hdc'. injection Hdc' as <-. by apply call_seat_range.
Qed.

Lemma dispatch_seats (a : App) (e : Event) :
  seats_ok a ->
  match msg e with
  | sc_deal m => 0 <= JS.indexOf seatorder (m_dealer m)
  | _ => True
  end ->
  seats_ok (dispatch a e).
Proof.
  intros Hs He.
  destruct (msg e) as [call|call|card|card|m| |u] eqn:Hm.
  5: { unfold dispatch, processWebsocket. rewrite Hm.
       assert (Hfresh : seats_ok (set_deal (Some (new_deal m (timeStamp e))) a)).
       { intros d' [= <-]. by split. }
       assert (Hkeep : forall d d', deal a = Some d ->
                         dealer d' = dealer d -> declarer d' = declarer d ->
                         seats_ok (set_deal (Some d') a)).
       { intros d d' Hd H1 H2 d0 [= <-]. rewrite H1, H2. by apply Hs. }
       destruct (on_sc_deal_cases m (timeStamp e) a)
         as [-> | [-> | [-> | (d & Hd & [-> | ->])]]];
         [done| |done|by apply (Hkeep d)..].
       unfold saved. destruct (deal a) as [d|] eqn:Hd; [|done]. by apply (Hkeep d). }
  all: assert (Hn : not_sc_deal e) by (unfold not_sc_deal; by rewrite Hm).
  all: intros d' Hd'; destruct (deal a) as [d|] eqn:Hd;
    [|by rewrite (dispatch_no_deal a e Hd Hn) in Hd'].
  all: destruct (dispatch_tracks a d e Hd Hn) as (d2 & Hd2 & Ht);
    rewrite Hd2 in Hd'; injection Hd' as <-;
    apply (tracks_seats d d2 Ht); by apply Hs.
Qed.

(** X5. When the dealer of every [<sc_deal>] is found in 'swne'
    ([seatorder.indexOf] is not -1), then after any sequence of messages of
    [Msg] so is the dealer of [app.deal], the declarer, if bound, is a seat
    number 0..3, and the leader of the trick in progress and of every filed
    trick is a seat number 0..3 or [NaN] (the latter when the first card
    arrived before the auction had ended). *)
Theorem seat_numbers_invariant (tb : option Table) (es : list Event) :
  dealers_known es ->
  seats_ok (run es (app0 tb)) /\ tricks_wf leader_ok (run es (app0 tb)).
Proof.
  intros Hes.
  apply (run_invariant (fun a => seats_ok a /\ tricks_wf leader_ok a)
           (fun e => match msg e with
                     | sc_deal m => 0 <= JS.indexOf seatorder (m_dealer m)
                     | _ => True
                     end)).
  - intros a e [Hs Hw] He. split; [by apply dispatch_seats|].
    apply dispatch_wf; [apply leader_ok_next|done|by apply seats_opening_ok].
  - exact Hes.
  - split; [by intros d|]. split; [|split]; by intros.
Qed.

Lemma seat_numbers_invariant_witness :
  dealers_known scenario_E_events /\
  seats_ok (run scenario_E_events (app0 None)) /\
  tricks_wf leader_ok (run scenario_E_events (app0 None)).
Proof.
  assert (H : dealers_known scenario_E_events).
  { unfold dealers_known, scenario_E_events. repeat constructor. by vm_compute. }
  split; [exact H|]. exact (seat_numbers_invariant None scenario_E_events H).
Defined.

(** ** More on [auctionContract] and [trickcard] *)

(** X6. [auctionContract] ends in an exception exactly when the auction has
    ended (three final passes after at least one other call) and none of the
    calls before the final three passes is a bid, that is, has two
    characters; [app] is then as it was.  A passed out deal is one such
    auction, an auction of doubles and passes is another. *)
Theorem auctionContract_throws_iff (a : App) (d : Deal) :
  deal a = Some d ->
  (auctionContract a = (JS.Throw JS.TypeError, a) <->
   auction_complete (auction d) = true /\
   forall j c, (j < length (auction d) - 3)%nat -> auction d !! j = Some c ->
               String.length c <> 2%nat) /\
  ((auctionContract a).1 <> JS.Normal -> auctionContract a = (JS.Throw JS.TypeError, a)).
Proof.
  intros Hd. destruct (auction_complete (auction d)) eqn:Hc.
  - destruct (auctionContract_complete a d Hd Hc)
      as [[Hnone Ht]|(i1 & i2 & c & c2 & Hi1 & Hl & _ & _ & _ & _ & _ & _ & Hn)].
    + split; [|done]. split; [done|]. by intros _.
    + split.
      * split; [by rewrite Hn|]. intros [_ Hnone]. exfalso.
        apply auction_complete_last3 in Hc as [Hlen [pre Hpre]].
        destruct (decide (i1 < length (auction d) - 3)%nat) as [Hlt|Hge];
          [by apply (Hnone i1 c Hlt Hi1)|].
        rewrite Hpre in Hi1, Hge. rewrite length_app in Hge. cbn [length] in Hge.
        rewrite lookup_app_r in Hi1 by lia.
        destruct (i1 - length pre)%nat as [|[|[|k]]]; cbn in Hi1; simplify_eq; discriminate.
      * by rewrite Hn.
  - assert (Hn : (auctionContract a).1 = JS.Normal).
    { unfold auctionContract. rewrite Hd.
      unfold auction_complete in Hc. apply negb_false_iff in Hc. by rewrite Hc. }
    split; [|done]. split; [|by intros [? _]].
    intros Ht. by rewrite Ht in Hn.
Qed.

Lemma auctionContract_throws_iff_witness :
  auctionContract (mkApp (Some (deal_with "n" ["p"; "d"; "p"; "p"; "p"])) None None)
  = (JS.Throw JS.TypeError, mkApp (Some (deal_with "n" ["p"; "d"; "p"; "p"; "p"])) None None).
Proof.
  apply (proj1 (auctionContract_throws_iff
                  (mkApp (Some (deal_with "n" ["p"; "d"; "p"; "p"; "p"])) None None)
                  (deal_with "n" ["p"; "d"; "p"; "p"; "p"]) eq_refl)).
  split; [reflexivity|].
  intros [|[|j]] c Hj Hc; cbn in Hj, Hc; [| |lia]; simplify_eq; discriminate.
Defined.

(** X7. Running [auctionContract] a second time changes nothing: the result
    of a second run, completion and [app], is that of the first. *)
Theorem auctionContract_idempotent (a : App) :
  auctionContract (auctionContract a).2 = auctionContract a.
Proof.
  destruct (deal a) as [d|] eqn:Hd.
  - destruct (auctionContract a) as [[|e] a'] eqn:Hrun; cbn [snd].
    + destruct (auctionContract_normal_form a a' d Hd Hrun) as (c & dn & dc & -> & Hall).
      rewrite (Hall (set_deal (Some (set_bindings c dn dc d)) a)
                 (set_bindings c dn dc d) eq_refl eq_refl eq_refl).
      by destruct a.
    + destruct (auctionContract_cases a d Hd) as [H|(c & dn & dc & H & _)];
        rewrite H in Hrun; simplify_eq. exact H.
  - unfold auctionContract at 2 3. rewrite Hd. cbn [snd].
    unfold auctionContract. by rewrite Hd.
Qed.

Lemma trick_push_records (card : string) (a : App) (d : Deal) :
  deal a = Some d -> (trick_push card a).1 = JS.Normal ->
  last_played card (trick_push card a).2 /\
  exists d', deal (trick_push card a).2 = Some d' /\
             seenOpeningLead d' = seenOpeningLead d /\ play d' = play d.
Proof.
  intros Hd. unfold trick_push.
  destruct (trick a) as [t|]; [|done].
  cbn [cards deal set_trick]. rewrite Hd.
  destruct (Nat.eqb_spec (length (cards t ++ [card])) 4) as [H4|H4].
  - destruct (tricks d) as [ts|]; [|done]. intros _. cbn [snd]. split.
    + eexists _, _. split; [reflexivity|]. split; [reflexivity|]. right.
      split; [done|]. exists ts, (mkTrick (leader t) (cards t ++ [card])).
      split; [done|]. split; [done|]. cbn. by rewrite last_snoc.
    + by eexists.
  - intros _. cbn [snd]. split.
    + exists d, (mkTrick (leader t) (cards t ++ [card])).
      split; [done|]. split; [done|]. left. cbn. by rewrite last_snoc.
    + by exists d.
Qed.

Lemma card_to_trick_records (card : string) (ts : Z) (a : App) :
  (card_to_trick card ts a).1 = JS.Normal ->
  last_played card (card_to_trick card ts a).2 /\
  exists d', deal (card_to_trick card ts a).2 = Some d' /\
             seenOpeningLead d' = true /\ last (play d') = Some card.
Proof.
  unfold card_to_trick. destruct (deal a) as [d|] eqn:Hd; [|done].
  set (d1 := set_lastActionTime ts _).
  destruct (opening_lead_cases (set_deal (Some d1) a) d1 eq_refl)
    as [[Hseen ->]|[[Hseen ->]|(Hseen & c & dn & dc & Hdc & ->)]]; [|done|].
  - intros Hn.
    destruct (trick_push_records card (set_deal (Some d1) a) d1 eq_refl Hn)
      as [Hl (d' & Hd' & Hs & Hp)].
    split; [done|]. exists d'. split; [done|]. rewrite Hs, Hp. split; [done|].
    cbn. by rewrite last_snoc.
  - intros Hn. set (d2 := set_tricks _ _) in *.
    match type of Hn with (trick_push card ?x).1 = _ =>
      destruct (trick_push_records card x d2 eq_refl Hn) as [Hl (d' & Hd' & Hs & Hp)] end.
    split; [done|]. exists d'. split; [done|]. rewrite Hs, Hp. split; [done|].
    cbn. by rewrite last_snoc.
Qed.

Lemma records_saved (card : string) (a : App) :
  (last_played card a /\
   exists d', deal a = Some d' /\ seenOpeningLead d' = true /\ last (play d') = Some card) ->
  last_played card (saved a) /\
  exists d', deal (saved a) = Some d' /\
             seenOpeningLead d' = true /\ last (play d') = Some card.
Proof.
  intros [(d & t & Hd & Ht & Hl) (d' & Hd' & Hs & Hp)].
  rewrite Hd in Hd'. injection Hd' as <-.
  split.
  - exists (set_timingSaved true d), t.
    rewrite deal_saved, trick_saved, Hd. by repeat (split; [done|]).
  - exists (set_timingSaved true d). rewrite deal_saved, Hd. by repeat (split; [done|]).
Qed.

(** X8. A card that [trickcard] takes without an exception is on record:
    it is the last entry of [app.deal.play], the opening lead is marked as
    seen, and the card is the last card of the trick in progress or, when it
    was a fourth card, of the trick filed last.  So the branch for a passed
    out deal, which would return with no trick opened, is never the one that
    completes. *)
Theorem trickcard_records_card (card : string) (ts : Z) (a : App) :
  (trickcard card ts a).1 = JS.Normal ->
  last_played card (trickcard card ts a).2 /\
  exists d', deal (trickcard card ts a).2 = Some d' /\
             seenOpeningLead d' = true /\ last (play d') = Some card.
Proof.
  intros Hn. apply trickcard_normal in Hn.
  destruct (trickcard_state card ts a) as [-> | ->]; [|apply records_saved];
    by apply card_to_trick_records.
Qed.

Lemma trickcard_records_card_witness :
  last_played "D6" (trickcard "D6" 9 two_cards_played).2 /\
  exists d', deal (trickcard "D6" 9 two_cards_played).2 = Some d' /\
             seenOpeningLead d' = true /\ last (play d') = Some "D6".
Proof. apply (trickcard_records_card "D6" 9 two_cards_played). reflexivity. Defined.

(** ** What [undo] leaves *)

Lemma rewind_suffix (cnt : nat) (t : option Trick) (stack : list Trick) :
  (rewind cnt t stack).2 `suffix_of` stack.
Proof.
  revert cnt t. induction stack as [|p stack IH]; intros cnt t; rewrite rewind_eq.
  - repeat case_match; cbn [snd]; done.
  - destruct (cnt =? 0)%nat; [done|]. destruct t as [tr|]; [|done].
    destruct (cnt <=? length (cards tr))%nat; [done|].
    by apply suffix_cons_r.
Qed.

Lemma shortened_refl (d : Deal) : shortened d d.
Proof. repeat split; try done. by destruct (tricks d). Qed.

Lemma rewind_tricks_shortens (n : nat) (a : App) (d : Deal) :
  deal a = Some d ->
  exists d', deal (rewind_tricks n a).2 = Some d' /\
    auction d' = auction d /\ play d' = play d /\ actionTime d' = actionTime d /\
    match tricks d', tricks d with
    | Some ts', Some ts => ts' `prefix_of` ts
    | None, None => True
    | _, _ => False
    end.
Proof.
  intros Hd. unfold rewind_tricks. rewrite Hd.
  assert (Hsame : match tricks d, tricks d with
                  | Some ts', Some ts => ts' `prefix_of` ts
                  | None, None => True
                  | _, _ => False
                  end) by (by destruct (tricks d)).
  destruct (seenOpeningLead d); [|by exists d].
  destruct (tricks d) as [tks|] eqn:Htks.
  - pose proof (rewind_suffix n (trick a) (rev tks)) as [k Hk].
    destruct (rewind n (trick a) (rev tks)) as [[c t] stack]. cbn [snd] in Hk |- *.
    eexists. split; [reflexivity|]. cbn. repeat split.
    exists (rev k). rewrite <- (rev_involutive tks), Hk. by rewrite rev_app_distr.
  - destruct (rewind_no_tricks n (trick a)) as [c t]. cbn [snd].
    exists d. rewrite ?Htks. by repeat split.
Qed.

(** X9. [undo] only takes away: whatever the message, afterwards the
    auction, the play, the action times and the filed tricks of [app.deal]
    are beginnings of what they were. *)
Theorem undo_only_shortens (u : UndoMsg) (ts : Z) (a : App) (d : Deal) :
  deal a = Some d ->
  exists d', deal (undo u ts a).2 = Some d' /\ shortened d d'.
Proof.
  intros Hd. unfold undo.
  destruct (undo_count u) as [n|]; [|by exists d; split; [|apply shortened_refl]].
  rewrite Hd.
  destruct (length (actionTime d) <? n)%nat; [by exists d; split; [|apply shortened_refl]|].
  cbn [play auction set_play set_seenOpeningLead set_actionTime set_lastActionTime].
  destruct (n <=? length (play d))%nat.
  - match goal with |- context [rewind_tricks n (set_deal (Some ?d2) a)] =>
      destruct (rewind_tricks_shortens n (set_deal (Some d2) a) d2 eq_refl)
        as (d' & Hd' & Hau & Hpl & Htm & Htk) end.
    exists d'. split; [done|]. unfold shortened. rewrite Hau, Hpl, Htm.
    cbn in Htk |- *. repeat split; try done; apply prefix_take.
  - destruct (length (auction d) <? n - length (play d))%nat; cbn [snd].
    + eexists. split; [reflexivity|]. unfold shortened. cbn.
      repeat split; try done; try apply prefix_take; try apply prefix_nil.
      by destruct (tricks d).
    + match goal with |- context [rewind_tricks n (set_deal (Some ?d2) a)] =>
        destruct (rewind_tricks_shortens n (set_deal (Some d2) a) d2 eq_refl)
          as (d' & Hd' & Hau & Hpl & Htm & Htk) end.
      exists d'. split; [done|]. unfold shortened. rewrite Hau, Hpl, Htm.
      cbn in Htk |- *. repeat split; try done; try apply prefix_take; apply prefix_nil.
Qed.

Lemma undo_only_shortens_witness :
  exists d', deal (undo (mkUndoMsg (Some 2%nat) None) 7 two_cards_played).2 = Some d' /\
             shortened (the_deal two_cards_played) d'.
Proof.
  apply (undo_only_shortens (mkUndoMsg (Some 2%nat) None) 7 two_cards_played
           (the_deal two_cards_played)).
  reflexivity.
Defined.

(** X10. An [<sc_undo>] that takes back no action (count 0 without the
    position '*') completes and leaves [app] as it was, except that
    [app.deal.lastActionTime] becomes the time stamp of the message: the
    next action is timed from the undo. *)
Theorem undo_zero_restarts_clock (u : UndoMsg) (ts : Z) (a : App) (d : Deal) :
  deal a = Some d -> undo_count u = Some 0%nat ->
  undo u ts a = (JS.Normal, set_deal (Some (set_lastActionTime ts d)) a).
Proof.
  intros Hd Hu. unfold undo. rewrite Hu, Hd.
  cbn [Nat.ltb Nat.leb play auction set_play set_actionTime set_lastActionTime].
  rewrite !Nat.sub_0_r, !firstn_all.
  destruct a as [da t tb]. cbn in Hd. subst da.
  destruct d as [b ti dl s w n e b1 b2 seen lat at_ au pl dum res rep c dn dc tks].
  unfold rewind_tricks. cbn.
  destruct seen; [|done]. destruct tks as [tks|]; [|done].
  rewrite rewind_eq. cbn. by rewrite rev_involutive.
Qed.

Lemma undo_zero_restarts_clock_witness :
  undo (mkUndoMsg (Some 0%nat) None) 7 two_cards_played =
  (JS.Normal, set_deal (Some (set_lastActionTime 7 (the_deal two_cards_played))) two_cards_played).
Proof.
  apply (undo_zero_restarts_clock (mkUndoMsg (Some 0%nat) None) 7 two_cards_played
           (the_deal two_cards_played)); reflexivity.
Defined.

(** ** The messages around a second [<sc_deal>] *)




(** X12. The redundant second [<sc_deal>] of a Robot Race table, together
    with the [<sc_deal_blast_complete>] that follows it, leaves [app] exactly
    as it was: neither [blast2_complete] nor any other field of the deal
    changes. *)
Theorem type1_repeat_ignored (a : App) (d : Deal) (m : DealMsg) (t t' : Z) :
  deal a = Some d -> reseating d = false -> type1DealRepeat d = false ->
  type1_repeat d m a = inr true ->
  run [mkEvent (sc_deal m) t; mkEvent sc_deal_blast_complete t'] a = a.
Proof.
  intros Hd Hres Hrep Ht1. unfold run. cbn [fold_left].
  unfold dispatch at 2. unfold processWebsocket, on_sc_deal. cbn [msg timeStamp].
  rewrite Hd, Hres, Ht1. cbn [snd].
  unfold dispatch, processWebsocket, on_sc_deal_blast_complete.
  cbn [msg deal set_deal reseating type1DealRepeat set_type1DealRepeat]. rewrite Hres.
  destruct a as [da tr tb]. cbn in Hd. subst da.
  destruct d. cbn in *. by subst.
Qed.

Lemma type1_repeat_ignored_witness :
  run [mkEvent (sc_deal (mkDealMsg "3" "12" "s" "SAKQHAKQDAKQCAKQJ" "SHDC" "SHDC" "SHDC" false)) 3;
       mkEvent sc_deal_blast_complete 4] robot_race = robot_race.
Proof.
  apply (type1_repeat_ignored robot_race (the_deal robot_race)); reflexivity.
Defined.

(** ** [showDoubleDummy]: when the table is rendered *)

Lemma deals_match_all (dh h2 : list string) (i trips : nat) :
  (forall k, (i <= k < i + trips)%nat ->
     exists h, h2 !! k = Some h /\ (String.length h = 16%nat -> dh !! k = Some h)) ->
  deals_match dh h2 i trips = inr true.
Proof.
  revert i. induction trips as [|t IH]; intros i Hall; [done|].
  cbn [deals_match]. destruct (Hall i) as (h & -> & Hh); [lia|].
  destruct (Nat.eqb_spec (String.length h) 16) as [Hl|Hl]; cbn [andb].
  - rewrite (Hh Hl). cbn [JS.eq_opt]. rewrite String.eqb_refl. cbn [negb].
    apply IH. intros k Hk. apply Hall. lia.
  - apply IH. intros k Hk. apply Hall. lia.
Qed.

(** X13. [showDoubleDummy] goes on to render the table ('done') whenever
    the page is ready, the board number it shows equals that of the result
    modulo 16, the four hands can be read from the page, each of them that
    still has its thirteen cards is the hand of the result, and the hand
    diagrams have been positioned.  With the first part of C8 this makes
    the conditions exact. *)
Theorem showDoubleDummy_renders (d : DDDeal) (v : DDView) (b s : Z) (h2 : list string) :
  view_ready v ->
  bnum d = JS.Num b -> shown_bnum v = JS.Num s -> Z.rem (b - s) 16 = 0 ->
  shown_hand v = Some h2 -> (4 <= length h2)%nat ->
  (forall j h, (j < 4)%nat -> h2 !! j = Some h -> String.length h = 16%nat ->
               hand d !! j = Some h) ->
  not_positioned v = false ->
  showDoubleDummy d v = inr dd_done.
Proof.
  unfold showDoubleDummy.
  intros (-> & -> & -> & -> & ->) Hb Hs Hrem Hh Hlen Hall Hpos. cbn [negb Nat.eqb].
  rewrite Hb, Hs. cbn [JS.sub JS.rem JS.strict_ne]. rewrite Hrem. cbn [Z.eqb negb].
  rewrite Hh, (deals_match_all (hand d) h2 0 4), Hpos; [done|].
  intros k Hk. destruct (lookup_lt_is_Some_2 h2 k) as [h Hk']; [lia|].
  exists h. split; [done|]. apply Hall; [lia|done].
Qed.

Lemma showDoubleDummy_renders_witness :
  showDoubleDummy other_deal_result page_other_table = inr dd_done.
Proof.
  apply (showDoubleDummy_renders other_deal_result page_other_table 3 19
           ["AKQ.JT9.876.5432"; "JT9.876.5432.AKQ"; "876.5432.AKQ.JT9"; "5432.AKQ.JT9.876"]);
    try reflexivity.
  - by repeat split.
  - intros [|[|[|[|j]]]] h Hj Hh _; cbn in Hh |- *; try lia; done.
Defined.

(** ** [saveDealTiming]: the packed action times *)

Lemma round_tenth_bounds (lo hi tm : Z) :
  10 * lo - 5 <= tm -> tm < 10 * hi + 5 -> lo <= (tm + 5) / 10 <= hi.
Proof.
  intros Hlo Hhi. split.
  - apply Z.div_le_lower_bound; lia.
  - apply Z.lt_succ_r, Z.div_lt_upper_bound; lia.
Qed.

(** The five ranges of the packing loop. *)
Lemma pack_time_cases (tm : Z) :
  (tm = 0 /\ pack_time tm = 0) \/
  (tm < 5 /\ tm <> 0 /\ pack_time tm = 1) \/
  (5 <= tm < 552955 /\ pack_time tm = (tm + 5) / 10 /\ 1 <= (tm + 5) / 10 <= 55295) \/
  (552955 <= tm < 634865 /\ pack_time tm = (tm + 20480 + 5) / 10 /\
   57344 <= (tm + 20480 + 5) / 10 <= 65534) \/
  (634865 <= tm /\ pack_time tm = 65535).
Proof.
  unfold pack_time, to_uint16, round_tenth.
  destruct (Z.ltb_spec tm 5) as [H5|H5]; destruct (Z.eqb_spec tm 0) as [H0|H0];
    cbn [andb negb].
  - left. by subst.
  - right; left. by repeat split.
  - lia.
  - destruct (Z.leb_spec 552955 tm) as [Hs|Hs]; [destruct (Z.leb_spec 634865 tm) as [Hm|Hm]|].
    + right; right; right; right. by split.
    + right; right; right; left. split; [lia|].
      pose proof (round_tenth_bounds 57344 65534 (tm + 20480)) as Hb.
      split; [apply Z.mod_small|]; lia.
    + right; right; left. split; [lia|].
      pose proof (round_tenth_bounds 1 55295 tm) as Hb.
      split; [apply Z.mod_small|]; lia.
Qed.

(** X14. The codes that [saveDealTiming] packs, one per action after the
    header [v[0]]: each fits 16 bits and none is a UTF-16 surrogate
    (U+D800 to U+DFFF), whatever the action times are, so that the string
    built from them survives local storage. *)
Theorem pack_timing_no_surrogate (d : Deal) :
  length (pack_timing d) = S (length (actionTime d)) /\
  Forall (fun c => 0 <= c <= 65535 /\ ~ surrogate c) (tail (pack_timing d)).
Proof.
  unfold pack_timing. cbn [length tail]. rewrite length_map. split; [done|].
  apply Forall_map, Forall_forall. intros tm _. unfold surrogate.
  destruct (pack_time_cases tm)
    as [[? E]|[(? & ? & E)|[(? & E & ?)|[(? & E & ?)|[? E]]]]]; rewrite E; lia.
Qed.

(** X15. An action time is packed as 0 only if it is 0: a time that is not
    zero never looks like the mark for "no timing information". *)
Theorem pack_time_zero_iff (tm : Z) :
  pack_time tm = 0 <-> tm = 0.
Proof.
  destruct (pack_time_cases tm)
    as [[? E]|[(? & ? & E)|[(? & E & ?)|[(? & E & ?)|[? E]]]]]; rewrite E; lia.
Qed.



(** ** Who made the call, who played the card *)

Lemma rem4_cases (c n : Z) :
  0 <= c -> 0 <= n ->
  exists r, (r = 0 \/ r = 1 \/ r = 2 \/ r = 3) /\
            forall c', 0 <= c' -> Z.rem (c' + n) 4 = (c' + r) mod 4.
Proof.
  intros Hc Hn. exists (n mod 4).
  pose proof (Z.mod_pos_bound n 4). split; [lia|].
  intros c' Hc'. rewrite Z.rem_mod_nonneg by lia.
  by rewrite Z.add_mod_idemp_r.
Qed.

(** X17. The bidder that [<sc_call_made>] reports for the call number
    [ncalls] of the auction, counted in its own array N, E, S, W, is the
    seat that [auctionContract] gives the same call in the order of
    'swne': the two ways of counting seats from the dealer agree. *)
Theorem bidder_is_call_seat (dl : string) (ncalls : Z) :
  dl ∈ ["s"; "w"; "n"; "e"] -> 1 <= ncalls ->
  bidder dl ncalls =
  Some (toUpperCase (JS.charAt seatorder (Z.to_nat (call_seat dl (ncalls - 1))))).
Proof.
  intros Hdl Hn. unfold bidder, call_seat.
  destruct (rem4_cases 0 (ncalls - 1)) as (r & Hr & Hrem); [lia..|].
  replace (array_indexOf ["N"; "E"; "S"; "W"]
             (if String.eqb dl "" then "N" else toUpperCase dl) 0 + ncalls - 1)
    with (array_indexOf ["N"; "E"; "S"; "W"]
             (if String.eqb dl "" then "N" else toUpperCase dl) 0 + (ncalls - 1)) by lia.
  repeat (apply elem_of_cons in Hdl as [-> | Hdl]); [..|by apply elem_of_nil in Hdl];
    vm_compute array_indexOf; vm_compute JS.indexOf; cbn [Z.leb Z.compare];
    rewrite !Hrem by lia;
    destruct Hr as [-> | [-> | [-> | ->]]]; vm_compute; reflexivity.
Qed.

Lemma bidder_is_call_seat_witness :
  bidder "w" 7 = Some (toUpperCase (JS.charAt seatorder (Z.to_nat (call_seat "w" (7 - 1))))).
Proof.
  apply (bidder_is_call_seat "w" 7); [|lia].
  apply elem_of_cons. right. apply elem_of_cons. by left.
Defined.

(** The messages of the auction leave the declarer as it is. *)
Lemma bidding_keeps_declarer (dc : option Z) (a : App) (e : Event) :
  (exists d, deal a = Some d /\ declarer d = dc /\ seenOpeningLead d = false) ->
  is_bidding e ->
  exists d, deal (dispatch a e) = Some d /\ declarer d = dc /\ seenOpeningLead d = false.
Proof.
  intros (d & Hd & Hdc & Hs) He. unfold dispatch, processWebsocket.
  unfold is_bidding in He. destruct (msg e); try done.
  - unfold on_sc_call_made. rewrite Hd.
    destruct (amDummy d || reseating d)%bool; [by exists d|].
    auction_end_cases; [by eexists|].
    apply (deal_fields_saved (fun d => declarer d = dc /\ seenOpeningLead d = false));
      [done|by eexists].
  - unfold on_cs_make_bid. rewrite Hd.
    auction_end_cases; [by eexists|].
    apply (deal_fields_saved (fun d => declarer d = dc /\ seenOpeningLead d = false));
      [done|by eexists].
  - unfold on_sc_deal_blast_complete. rewrite Hd.
    repeat case_match; cbn [snd]; first [by exists d | by eexists].
Qed.

(** X18. The player reported for the opening lead.  After the [<sc_deal>]
    of a new board and any messages of the auction, [app.deal.declarer] is
    still [undefined] when the first [<sc_card_played>] arrives, because
    [auctionContract] runs only inside [trickcard]: the player computed for
    that card is '?'. *)
Theorem opening_lead_player_unknown (a : App) (m : DealMsg) (ts : Z) (es : list Event) :
  Forall is_bidding es ->
  exists d, deal (run es (set_deal (Some (new_deal m ts)) a)) = Some d /\
            card_player d (trick (run es (set_deal (Some (new_deal m ts)) a))) = Some "?".
Proof.
  intros Hes.
  destruct (run_invariant
              (fun a => exists d, deal a = Some d /\ declarer d = None /\
                                  seenOpeningLead d = false)
              is_bidding (bidding_keeps_declarer None) es
              (set_deal (Some (new_deal m ts)) a) Hes) as (d & Hd & Hdc & Hs);
    [by eexists|].
  exists d. split; [done|]. unfold card_player. rewrite Hdc, Hs.
  by destruct (trick _).
Qed.

Lemma opening_lead_player_unknown_witness :
  exists d, deal (run (map (at_time 1) [sc_deal_blast_complete; sc_call_made "1S";
                                        cs_make_bid "P"; sc_call_made "p"; sc_call_made "p"])
                    (set_deal (Some (new_deal full_deal_msg 0)) two_cards_played)) = Some d /\
            card_player d
              (trick (run (map (at_time 1) [sc_deal_blast_complete; sc_call_made "1S";
                                            cs_make_bid "P"; sc_call_made "p"; sc_call_made "p"])
                        (set_deal (Some (new_deal full_deal_msg 0)) two_cards_played)))
            = Some "?".
Proof.
  apply (opening_lead_player_unknown two_cards_played full_deal_msg 0).
  repeat constructor.
Defined.

(** ** What an undo into the auction leaves behind *)

(** C6 (counterexample): after 1S - Pass - Pass - Pass and one card, an undo
    of two actions takes back the card and the closing pass; the deal keeps
    contract 1S, denomination S and declarer North. *)
Lemma undo_into_auction_counterexample :
  ~ bindings_cleared (snd (undo (mkUndoMsg (Some 2%nat) None) 0 play_started)).
Proof. intros (d & Hd & Hc & _). cbv in Hd. injection Hd as <-. discriminate. Qed.

(** How [auctionContract] completes depends on the auction and the dealer
    only. *)
Lemma auctionContract_completion (a b : App) (d db : Deal) :
  deal a = Some d -> deal b = Some db ->
  auction db = auction d -> dealer db = dealer d ->
  (auctionContract b).1 = (auctionContract a).1.
Proof.
  intros Hd Hdb Hau Hdl.
  destruct (auctionContract_cases a d Hd) as [Ha|(c & dn & dc & Ha & _)].
  - destruct (auctionContract_cases b db Hdb) as [Hb|(c & dn & dc & Hb & _)];
      [by rewrite Ha, Hb|].
    destruct (auctionContract_normal_form b _ db Hdb Hb) as (c' & dn' & dc' & _ & Hall).
    rewrite (Hall a d Hd) in Ha by done. discriminate.
  - destruct (auctionContract_normal_form a _ d Hd Ha) as (c' & dn' & dc' & _ & Hall).
    by rewrite (Hall b db Hdb Hau Hdl), Ha.
Qed.

Lemma opening_lead_left_behind
    (a : App) (d : Deal) (c dn : option string) (dc : option Z)
    (tks : option (list Trick)) (tr : option Trick) :
  deal a = Some d -> seenOpeningLead d = false ->
  ((auctionContract a).1 = JS.Normal ->
   opening_lead (left_behind c dn dc tks tr a) = opening_lead a) /\
  (forall e, (auctionContract a).1 = JS.Throw e ->
   opening_lead (left_behind c dn dc tks tr a) = (JS.Throw e, left_behind c dn dc tks tr a)).
Proof.
  intros Hd Hs.
  set (b := left_behind c dn dc tks tr a).
  set (db := set_tricks tks (set_bindings c dn dc d)).
  assert (Hb : deal b = Some db) by (unfold b, left_behind; by rewrite Hd).
  assert (Hsb : seenOpeningLead db = false) by done.
  split.
  - intros Hn. unfold opening_lead. rewrite Hb, Hd, Hs, Hsb.
    destruct (auctionContract a) as [[|e] a1] eqn:Ha; [|done].
    destruct (auctionContract_normal_form a a1 d Hd Ha) as (c0 & dn0 & dc0 & -> & Hall).
    rewrite (Hall b db Hb eq_refl eq_refl).
    assert (JS.eq_opt "Pass" c0 = false) as Hp.
    { destruct (auctionContract_contract a _ d (set_bindings c0 dn0 dc0 d) Hd Ha eq_refl)
        as [Hc|(s & Hc & Hl)]; cbn in Hc; subst c0; [done|].
      cbn [JS.eq_opt]. apply (proj2 (String.eqb_neq _ _)). intros <-. discriminate. }
    cbn [deal set_deal contract set_bindings set_declarer set_denom set_contract].
    rewrite Hp. unfold b, left_behind. rewrite Hd.
    destruct a as [da t tb]. cbn in Hd. subst da. by destruct d.
  - intros e He.
    pose proof (auctionContract_completion a b d db Hd Hb eq_refl eq_refl) as Hc.
    rewrite He in Hc.
    destruct (auctionContract_cases b db Hb) as [Ht|(c0 & dn0 & dc0 & Ht & _)];
      rewrite Ht in Hc; [|done].
    injection Hc as <-. unfold opening_lead. by rewrite Hb, Hsb, Ht.
Qed.

(** The next card after an undo into the auction: what [trickcard] makes of
    the values left behind. *)
Lemma trickcard_left_behind
    (a : App) (d : Deal) (c dn : option string) (dc : option Z)
    (tks : option (list Trick)) (tr : option Trick) (card : string) (ts : Z) :
  deal a = Some d -> seenOpeningLead d = false ->
  ((auctionContract a).1 = JS.Normal ->
   trickcard card ts (left_behind c dn dc tks tr a) = trickcard card ts a) /\
  (forall e, (auctionContract a).1 = JS.Throw e ->
   trickcard card ts (left_behind c dn dc tks tr a) =
   (JS.Throw e, left_behind c dn dc tks tr (set_deal (Some (card_pushed card ts d)) a))).
Proof.
  intros Hd Hs.
  set (a1 := set_deal (Some (card_pushed card ts d)) a).
  assert (Hl : card_to_trick card ts (left_behind c dn dc tks tr a) =
               match opening_lead (left_behind c dn dc tks tr a1) with
               | (JS.Throw e, a2) => (JS.Throw e, a2)
               | (JS.Normal, a2) => trick_push card a2
               end).
  { unfold card_to_trick, left_behind, a1, card_pushed. rewrite Hd.
    destruct a as [da t tb]. cbn in Hd. subst da. by destruct d. }
  assert (Hr : card_to_trick card ts a =
               match opening_lead a1 with
               | (JS.Throw e, a2) => (JS.Throw e, a2)
               | (JS.Normal, a2) => trick_push card a2
               end).
  { unfold card_to_trick. by rewrite Hd. }
  assert (Hc : (auctionContract a1).1 = (auctionContract a).1).
  { by apply (auctionContract_completion a a1 d (card_pushed card ts d)). }
  destruct (opening_lead_left_behind a1 (card_pushed card ts d) c dn dc tks tr eq_refl Hs)
    as [Hnorm Hthrow].
  unfold trickcard. rewrite Hl, Hr. split.
  - intros Hn. rewrite Hnorm; [done|]. by rewrite Hc.
  - intros e He. rewrite (Hthrow e); [done|]. by rewrite Hc.
Qed.

(** The player that the card_played event names while the opening lead is
    still to come. *)
Lemma card_player_before_lead (d : Deal) (t : option Trick) :
  seenOpeningLead d = false ->
  card_player d t = match declarer d with
                    | Some dc => JS.at_ ["S"; "W"; "N"; "E"] (Z.rem (dc + 1) 4)
                    | None => Some "?"
                    end.
Proof. intros Hs. unfold card_player. rewrite Hs. by destruct t. Qed.

(** C6 (amended): an accepted undo of more actions than cards played puts
    the deal back into the auction: [seenOpeningLead] and [amDummy] are reset,
    [play] is emptied and the remaining actions are taken from the end of
    [auction].  The number of actions is the count of the message, or 1 for
    the count 0 with position '*'.  Contract, denomination, declarer,
    [app.deal.tricks] and [app.trick] are left as they were.  While the
    auction goes on the declarer stays, and the player named with the next
    card is the seat after that declarer, or '?' without one.  When that
    card reaches [trickcard] and [auctionContract] accepts the auction, the
    result of [trickcard], completion and [app], does not depend on the five
    values left behind; when [auctionContract] throws, [trickcard] throws
    after recording the card and the five values stay.  After
    1S - Pass - Pass - Pass by North, a card, an undo of two and
    2H - Pass - Pass - Pass by West, the player named with the next card is
    East, while [trickcard] makes West declarer and North the leader. *)
Theorem undo_into_auction :
  (forall (a : App) (d : Deal) (u : UndoMsg) (ts : Z) (c : nat),
     timing_inv a -> deal a = Some d -> count u = Some c ->
     let n := if ((c =? 0)%nat && JS.eq_opt "*" (position u))%bool then 1%nat else c in
     (n <= length (actionTime d))%nat -> (length (play d) < n)%nat ->
     (exists d',
        undo u ts a = (JS.Normal, set_deal (Some d') a) /\
        d' = rolled_into_auction (n - length (play d)) ts n d /\
        seenOpeningLead d' = false /\ amDummy d' = false /\ play d' = [] /\
        auction d' = take (length (auction d) - (n - length (play d))) (auction d) /\
        contract d' = contract d /\ denom d' = denom d /\ declarer d' = declarer d /\
        tricks d' = tricks d) /\
     trick (undo u ts a).2 = trick a /\
     forall es, Forall is_bidding es ->
       exists d2, deal (run es (undo u ts a).2) = Some d2 /\
                  seenOpeningLead d2 = false /\ declarer d2 = declarer d /\
                  card_player d2 (trick (run es (undo u ts a).2)) =
                    match declarer d with
                    | Some dc => JS.at_ ["S"; "W"; "N"; "E"] (Z.rem (dc + 1) 4)
                    | None => Some "?"
                    end) /\
  (forall (a : App) (d : Deal) (c dn : option string) (dc : option Z)
          (tks : option (list Trick)) (tr : option Trick) (card : string) (ts : Z),
     deal a = Some d -> seenOpeningLead d = false ->
     ((auctionContract a).1 = JS.Normal ->
      trickcard card ts (left_behind c dn dc tks tr a) = trickcard card ts a) /\
     (forall e, (auctionContract a).1 = JS.Throw e ->
      trickcard card ts (left_behind c dn dc tks tr a) =
      (JS.Throw e,
       left_behind c dn dc tks tr (set_deal (Some (card_pushed card ts d)) a)))) /\
  (rebid_after_undo =
     run (map (at_time 0)
            [sc_undo (mkUndoMsg (Some 2%nat) None);
             sc_call_made "2H"; sc_call_made "p"; sc_call_made "p"; sc_call_made "p"])
         play_started /\
   auction rebid_after_undo_deal = ["1S"; "p"; "p"; "2H"; "p"; "p"; "p"] /\
   declarer rebid_after_undo_deal = Some 2 /\
   card_player rebid_after_undo_deal (trick rebid_after_undo) = Some "E" /\
   exists d',
     deal (trickcard "H2" 0 rebid_after_undo).2 = Some d' /\
     contract d' = Some "2H" /\ declarer d' = Some 1 /\
     trick (trickcard "H2" 0 rebid_after_undo).2 = Some (mkTrick (JS.Num 2) ["H2"])).
Proof.
  split; [|split].
  - intros a d u ts c Hinv Hd Hc n Hle Hgt.
    assert (Hn : undo_count u = Some n) by (unfold undo_count; by rewrite Hc).
    pose proof (undo_rolls_into_auction a d u ts n Hinv Hd Hn Hle Hgt) as Hu.
    split; [|split].
    + eexists. split; [exact Hu|]. by repeat split.
    + by rewrite Hu.
    + intros es Hes. rewrite Hu. cbn [snd].
      destruct (run_invariant
                  (fun a => exists d0, deal a = Some d0 /\ declarer d0 = declarer d /\
                                       seenOpeningLead d0 = false)
                  is_bidding (bidding_keeps_declarer (declarer d)) es
                  (set_deal (Some (rolled_into_auction (n - length (play d)) ts n d)) a) Hes)
        as (d2 & Hd2 & Hdc & Hs); [by eexists|].
      exists d2. split; [done|]. split; [done|]. split; [done|].
      by rewrite (card_player_before_lead d2 _ Hs), Hdc.
  - intros a d c dn dc tks tr card ts. apply trickcard_left_behind.
  - split; [vm_compute; reflexivity|]. split; [reflexivity|]. split; [reflexivity|].
    split; [vm_compute; reflexivity|].
    eexists. split; [vm_compute; reflexivity|]. by repeat split.
Qed.

Lemma undo_into_auction_witness :
  (exists d',
     undo (mkUndoMsg (Some 2%nat) None) 9 play_started
       = (JS.Normal, set_deal (Some d') play_started) /\
     seenOpeningLead d' = false /\ auction d' = ["1S"; "p"; "p"] /\
     contract d' = Some "1S" /\ declarer d' = Some 2) /\
  (exists d2,
     deal (run (map (at_time 9) [sc_call_made "2H"; sc_call_made "p"; sc_call_made "p";
                                 sc_call_made "p"])
             (undo (mkUndoMsg (Some 2%nat) None) 9 play_started).2) = Some d2 /\
     card_player d2
       (trick (run (map (at_time 9) [sc_call_made "2H"; sc_call_made "p"; sc_call_made "p";
                                     sc_call_made "p"])
                 (undo (mkUndoMsg (Some 2%nat) None) 9 play_started).2)) = Some "E") /\
  trickcard "H2" 9 rebid_after_undo =
  trickcard "H2" 9 (left_behind None None None None None rebid_after_undo).
Proof.
  assert (Hinv : timing_inv play_started).
  { intros d Hd. injection Hd as <-. vm_compute. reflexivity. }
  destruct undo_into_auction as (Hundo & Hcard & _).
  destruct (Hundo play_started play_started_deal (mkUndoMsg (Some 2%nat) None) 9 2%nat
              Hinv eq_refl eq_refl ltac:(vm_compute; lia) ltac:(vm_compute; lia))
    as ((d' & Hrun & Hd' & Hs & _) & _ & Hplayer).
  split; [|split].
  - exists d'. split; [exact Hrun|]. subst d'. repeat split; vm_compute; reflexivity.
  - destruct (Hplayer (map (at_time 9) [sc_call_made "2H"; sc_call_made "p";
                                        sc_call_made "p"; sc_call_made "p"]))
      as (d2 & Hd2 & _ & _ & Hp); [repeat constructor|].
    exists d2. split; [exact Hd2|]. exact Hp.
  - destruct (Hcard (left_behind None None None None None rebid_after_undo)
                (set_tricks None (set_bindings None None None rebid_after_undo_deal))
                (Some "1S") (Some "S") (Some 2) (Some []) (Some (mkTrick (JS.Num 3) ["D4"]))
                "H2" 9 eq_refl eq_refl) as [Hn _].
    exact (Hn eq_refl).
Defined.

(** ** [historyDDcallback]: the attempts to show a result *)

Lemma dd_tries_trace (d : DDDeal) (mh : bool) (page : string -> nat -> DDView)
    (source : string) (itry left : nat) :
  let r := dd_tries d mh page source itry left in
  (length r.2 <= left)%nat /\
  (r.1 = cb_unable -> length r.2 = left) /\
  (forall k, r.1 = cb_rendered k ->
     (itry <= k)%nat /\ length r.2 = S (k - itry) /\
     exists src, r.2 !! (k - itry)%nat = Some src /\
                 showDoubleDummy d (page src k) = inr dd_done) /\
  (forall i src, r.2 !! i = Some src ->
     (i = 0%nat -> src = source) /\
     forall src', r.2 !! S i = Some src' ->
       (showDoubleDummy d (page src (itry + i)%nat) = inr dd_undefined /\
        src' = if mh then other_viewer src else src) \/
       (exists x, showDoubleDummy d (page src (itry + i)%nat) = inr x /\
                  mh = true /\ is_mismatch x = true /\ src' = src)).
Proof.
  revert source itry. induction left as [|left IH]; intros source itry.
  { cbn. repeat split; try done; lia. }
  cbn [dd_tries].
  assert (Hnext : forall src,
    (showDoubleDummy d (page source itry) = inr dd_undefined /\
     src = (if mh then other_viewer source else source)) \/
    (exists x, showDoubleDummy d (page source itry) = inr x /\
               mh = true /\ is_mismatch x = true /\ src = source) ->
    let r := (let '(o, tr) := dd_tries d mh page src (S itry) left in (o, source :: tr)) in
    (length r.2 <= S left)%nat /\
    (r.1 = cb_unable -> length r.2 = S left) /\
    (forall k, r.1 = cb_rendered k ->
       (itry <= k)%nat /\ length r.2 = S (k - itry) /\
       exists src, r.2 !! (k - itry)%nat = Some src /\
                   showDoubleDummy d (page src k) = inr dd_done) /\
    (forall i src0, r.2 !! i = Some src0 ->
       (i = 0%nat -> src0 = source) /\
       forall src', r.2 !! S i = Some src' ->
         (showDoubleDummy d (page src0 (itry + i)%nat) = inr dd_undefined /\
          src' = if mh then other_viewer src0 else src0) \/
         (exists x, showDoubleDummy d (page src0 (itry + i)%nat) = inr x /\
                    mh = true /\ is_mismatch x = true /\ src' = src0))).
  { intros src Hstep. specialize (IH src (S itry)). cbn zeta in IH.
    destruct (dd_tries d mh page src (S itry) left) as [o tr]. cbn [fst snd] in IH |- *.
    destruct IH as (Hlen & Hun & Hren & Htr). cbn [length].
    split; [lia|]. split; [intros Ho; by rewrite Hun|]. split.
    - intros k Hk. destruct (Hren k Hk) as (Hle & Hl & src1 & Hs1 & Hdone).
      split; [lia|]. split; [lia|]. exists src1. split; [|done].
      replace (k - itry)%nat with (S (k - S itry)) by lia. done.
    - intros [|i] src0 Hi.
      + cbn in Hi. injection Hi as <-. split; [done|].
        intros src' Hs'. cbn in Hs'. destruct (Htr 0%nat src' Hs') as [Hz _].
        rewrite (Hz eq_refl), Nat.add_0_r.
        destruct Hstep as [[H1 H2]|(x & H1 & H2 & H3 & H4)]; [left|right]; eauto.
      + cbn in Hi. destruct (Htr i src0 Hi) as [_ Hs]. split; [lia|].
        intros src' Hs'. cbn in Hs'.
        replace (itry + S i)%nat with (S itry + i)%nat by lia. by apply Hs. }
  assert (Hstop : forall o, (forall k, o = cb_rendered k ->
                     k = itry /\ showDoubleDummy d (page source itry) = inr dd_done) ->
                   o <> cb_unable ->
    let r := (o, [source]) in
    (length r.2 <= S left)%nat /\
    (r.1 = cb_unable -> length r.2 = S left) /\
    (forall k, r.1 = cb_rendered k ->
       (itry <= k)%nat /\ length r.2 = S (k - itry) /\
       exists src, r.2 !! (k - itry)%nat = Some src /\
                   showDoubleDummy d (page src k) = inr dd_done) /\
    (forall i src0, r.2 !! i = Some src0 ->
       (i = 0%nat -> src0 = source) /\
       forall src', r.2 !! S i = Some src' ->
         (showDoubleDummy d (page src0 (itry + i)%nat) = inr dd_undefined /\
          src' = if mh then other_viewer src0 else src0) \/
         (exists x, showDoubleDummy d (page src0 (itry + i)%nat) = inr x /\
                    mh = true /\ is_mismatch x = true /\ src' = src0))).
  { intros o Ho Hne. cbn [fst snd length]. split; [lia|]. split; [done|]. split.
    - intros k Hk. destruct (Ho k Hk) as [-> Hdone]. split; [lia|].
      rewrite Nat.sub_diag. split; [done|]. by exists source.
    - intros [|i] src0 Hi; [|done]. cbn in Hi. injection Hi as <-. by split. }
  destruct (showDoubleDummy d (page source itry)) as [e|r] eqn:Hshow.
  { by apply Hstop. }
  destruct r; cbn [is_mismatch]; rewrite ?andb_false_r, ?andb_true_r.
  - apply Hnext. left. by split.
  - by apply Hstop.
  - by apply Hstop.
  - destruct mh; [|by apply Hstop].
    apply Hnext. right. eexists. by repeat split.
  - destruct mh; [|by apply Hstop].
    apply Hnext. right. eexists. by repeat split.
  - apply Hstop; [|done]. by intros k [= <-].
Qed.

(** X19. [historyDDcallback] calls [showDoubleDummy] at most 11 times for
    a cached result and at most twice otherwise.  It gives up as "unable to
    render" only after that many attempts, and it reports success at
    attempt [k] only if the attempt number [k], the last one made,
    answered 'done'. *)
Theorem historyDDcallback_attempts (d : DDDeal) (source : string) (dd : option bool)
    (visible : option string) (page : string -> nat -> DDView) :
  let r := historyDDcallback d source dd visible page in
  (length r.2 <= 11)%nat /\
  (dd <> Some true -> length r.2 <= 2)%nat /\
  (r.1 = cb_unable -> length r.2 = if default false dd then 11%nat else 2%nat) /\
  (forall k, r.1 = cb_rendered k ->
     length r.2 = S k /\
     exists src, r.2 !! k = Some src /\ showDoubleDummy d (page src k) = inr dd_done).
Proof.
  unfold historyDDcallback.
  destruct dd as [c|]; [|cbn; repeat split; try done; lia].
  assert (Hgen : forall mh src,
    let r := dd_tries d mh page src 0 (if c then 11%nat else 2%nat) in
    (length r.2 <= 11)%nat /\
    (Some c <> Some true -> length r.2 <= 2)%nat /\
    (r.1 = cb_unable -> length r.2 = if default false (Some c) then 11%nat else 2%nat) /\
    (forall k, r.1 = cb_rendered k ->
       length r.2 = S k /\
       exists src, r.2 !! k = Some src /\ showDoubleDummy d (page src k) = inr dd_done)).
  { intros mh src.
    destruct (dd_tries_trace d mh page src 0 (if c then 11%nat else 2%nat))
      as (Hlen & Hun & Hren & _).
    cbn zeta. split; [destruct c; lia|]. split; [destruct c; [done|intros _; lia]|].
    split; [exact Hun|]. intros k Hk. destruct (Hren k Hk) as (_ & Hl & Hex).
    rewrite Nat.sub_0_r in Hl, Hex. by split. }
  destruct (String.eqb source "mh_hand"); [|apply Hgen].
  destruct visible as [mode|]; [apply Hgen|].
  cbn. repeat split; try done; lia.
Qed.

(** X20. Which deal viewer an attempt looks at.  For a request that is not
    from mh_hand every attempt looks at the viewer of [d.source].  For one
    from mh_hand the first attempt looks at the visible viewer; after an
    attempt that found the page not ready the next one looks at the other
    viewer, but after a "board number does not match" or "deals do not
    match" answer the next attempt looks at the same viewer again. *)
Theorem historyDDcallback_viewers (d : DDDeal) (source : string) (dd : option bool)
    (visible : option string) (page : string -> nat -> DDView) (i : nat) (src : string) :
  (historyDDcallback d source dd visible page).2 !! i = Some src ->
  (source <> "mh_hand" -> src = source) /\
  (source = "mh_hand" ->
   (i = 0%nat -> visible = Some src) /\
   forall src', (historyDDcallback d source dd visible page).2 !! S i = Some src' ->
     (showDoubleDummy d (page src i) = inr dd_undefined /\ src' = other_viewer src) \/
     (exists x, showDoubleDummy d (page src i) = inr x /\ is_mismatch x = true /\
                src' = src)).
Proof.
  unfold historyDDcallback. destruct dd as [c|]; [|done].
  destruct (String.eqb_spec source "mh_hand") as [->|Hne].
  - destruct visible as [mode|]; [|done]. intros Hi. split; [done|]. intros _.
    destruct (dd_tries_trace d true page mode 0 (if c then 11%nat else 2%nat))
      as (_ & _ & _ & Htr).
    destruct (Htr i src Hi) as [H0 Hs]. split; [by intros ->%H0|].
    intros src' Hs'. destruct (Hs src' Hs') as [H|(x & H1 & _ & H3 & H4)]; [by left|].
    right. by exists x.
  - intros Hi. split; [|done]. intros _.
    pose proof (dd_tries_trace d false page source 0 (if c then 11%nat else 2%nat)) as Ht.
    cbn zeta in Ht. destruct Ht as (_ & _ & _ & Htr).
    revert src Hi. induction i as [|i IHi]; intros src Hi.
    + by apply (Htr 0%nat src Hi).
    + destruct (lookup_lt_is_Some_2
                  (dd_tries d false page source 0 (if c then 11%nat else 2%nat)).2 i)
        as [s0 Hs0]; [apply lookup_lt_Some in Hi; lia|].
      destruct (Htr i s0 Hs0) as [_ Hs].
      destruct (Hs src Hi) as [[_ ->]|(x & _ & Hmh & _)]; [by apply IHi|done].
Qed.

Lemma historyDDcallback_viewers_witness :
  ("mh_hand" <> "mh_hand" -> "session" = "mh_hand") /\
  ("mh_hand" = "mh_hand" ->
   (1%nat = 0%nat -> Some "session" = Some "session") /\
   forall src',
     (historyDDcallback other_deal_result "mh_hand" (Some true) (Some "session") page_stays).2
       !! 2%nat = Some src' ->
     (showDoubleDummy other_deal_result (page_stays "session" 1) = inr dd_undefined /\
      src' = other_viewer "session") \/
     (exists x, showDoubleDummy other_deal_result (page_stays "session" 1) = inr x /\
                is_mismatch x = true /\ src' = "session")).
Proof.
  apply (historyDDcallback_viewers other_deal_result "mh_hand" (Some true) (Some "session")
           page_stays 1 "session").
  reflexivity.
Defined.

(** ** Timing: the end of the auction, and messages that catch up *)

(** X21. At a bidding table (type "100") the handlers of [<sc_call_made>]
    and [cs_make_bid] save the timing after a call exactly when the auction
    with that call passes the guard of [auctionContract]: the two tests,
    written apart, agree on every auction. *)
Theorem last_pass_is_auction_complete (tb : Table) (call : string) (au : list string) :
  type tb = "100" ->
  last_pass_at_bidding_table tb call (au ++ [call]) = auction_complete (au ++ [call]).
Proof.
  intros Htb. unfold last_pass_at_bidding_table, auction_complete, auction_incomplete.
  rewrite Htb, String.eqb_refl. cbn [andb].
  rewrite !negb_orb, !negb_involutive.
  set (n := Z.of_nat (length (au ++ [call]))).
  assert (Hn : n = Z.of_nat (length au) + 1).
  { unfold n. rewrite length_app. cbn [length]. lia. }
  assert (Hlast : JS.at_is (au ++ [call]) (n - 1) "p" = String.eqb call "p").
  { unfold JS.at_is. replace (n - 1) with (Z.of_nat (length au)) by lia.
    rewrite at_nat, lookup_app_r by lia. by rewrite Nat.sub_diag. }
  rewrite Hlast.
  replace (negb (n <? 4)) with (3 <? n) by (destruct (Z.ltb_spec 3 n), (Z.ltb_spec n 4); lia || done).
  by rewrite <- !andb_assoc.
Qed.

Lemma last_pass_is_auction_complete_witness :
  last_pass_at_bidding_table (mkTable "" "100") "p" (["1N"; "p"; "p"] ++ ["p"]) =
  auction_complete (["1N"; "p"; "p"] ++ ["p"]).
Proof. apply (last_pass_is_auction_complete (mkTable "" "100") "p" ["1N"; "p"; "p"]). reflexivity. Defined.

Lemma trick_push_flags (card : string) (a : App) (d : Deal) :
  deal a = Some d ->
  exists d', deal (trick_push card a).2 = Some d' /\
    blast1_complete d' = blast1_complete d /\ blast2_complete d' = blast2_complete d /\
    amDummy d' = amDummy d /\ reseating d' = reseating d /\
    actionTime d' = actionTime d /\ auction d' = auction d.
Proof.
  intros Hd. unfold trick_push.
  destruct (trick a) as [t|]; [|by exists d].
  cbn [deal set_trick]. rewrite Hd.
  destruct (length _ =? 4)%nat; [|by exists d].
  destruct (tricks d) as [ts|]; [|by exists d].
  by eexists.
Qed.

(** What [trickcard] does to the flags and the timing, whether it completes
    or not. *)
Lemma trickcard_flags (card : string) (ts : Z) (a : App) (d : Deal) :
  deal a = Some d ->
  exists d', deal (trickcard card ts a).2 = Some d' /\
    blast1_complete d' = blast1_complete d /\ blast2_complete d' = blast2_complete d /\
    amDummy d' = amDummy d /\ reseating d' = reseating d /\
    actionTime d' =
      actionTime d ++ [if blast1_complete d then ts - lastActionTime d else 0] /\
    auction d' = auction d.
Proof.
  intros Hd.
  assert (Hc : exists d', deal (card_to_trick card ts a).2 = Some d' /\
    blast1_complete d' = blast1_complete d /\ blast2_complete d' = blast2_complete d /\
    amDummy d' = amDummy d /\ reseating d' = reseating d /\
    actionTime d' =
      actionTime d ++ [if blast1_complete d then ts - lastActionTime d else 0] /\
    auction d' = auction d);
    [|destruct (trickcard_state card ts a) as [-> | ->];
      [exact Hc|revert Hc; by apply deal_fields_saved]].
  unfold card_to_trick. rewrite Hd.
  set (d1 := set_lastActionTime ts _).
  destruct (opening_lead_cases (set_deal (Some d1) a) d1 eq_refl)
    as [[Hseen ->]|[[Hseen ->]|(Hseen & c & dn & dc & Hdc & ->)]]; cbn [snd fst].
  - destruct (trick_push_flags card (set_deal (Some d1) a) d1 eq_refl)
      as (d' & Hd' & H1 & H2 & H3 & H4 & H5 & H6).
    exists d'. by rewrite H1, H2, H3, H4, H5, H6.
  - by exists d1.
  - set (d2 := set_tricks _ _).
    destruct (trick_push_flags card (mkApp (Some d2) (Some (mkTrick
                (JS.rem (JS.add (JS.of_option dc) (JS.Num 1)) 4) [])) (table a)) d2 eq_refl)
      as (d' & Hd' & H1 & H2 & H3 & H4 & H5 & H6).
    exists d'. by rewrite H1, H2, H3, H4, H5, H6.
Qed.

Lemma catch_up_step (a : App) (e : Event) (n : nat) :
  (exists d, deal a = Some d /\ blast1_complete d = false /\ amDummy d = false /\
             reseating d = false /\ actionTime d = replicate n 0) ->
  is_recap e ->
  exists d, deal (dispatch a e) = Some d /\ blast1_complete d = false /\ amDummy d = false /\
            reseating d = false /\ actionTime d = replicate (S n) 0.
Proof.
  intros (d & Hd & Hb1 & Hdum & Hres & Hat) He.
  assert (Hsnoc : replicate n 0 ++ [0] = replicate (S n) 0).
  { change [0] with (replicate 1 0). rewrite <- replicate_add. f_equal. lia. }
  unfold dispatch, processWebsocket. unfold is_recap in He.
  destruct (msg e); try done.
  - unfold on_sc_call_made. rewrite Hd, Hdum, Hres, Hb1. cbn [orb snd].
    auction_end_cases;
      [|apply (deal_fields_saved (fun d => blast1_complete d = false /\ amDummy d = false /\
                  reseating d = false /\ actionTime d = replicate (S n) 0));
        [done|]];
      (eexists; split; [reflexivity|]; cbn; by rewrite Hat, Hsnoc).
  - unfold on_sc_card_played. rewrite Hd, Hdum. cbn [negb orb].
    destruct (trickcard_flags card (timeStamp e) a d Hd)
      as (d' & Hd' & H1 & _ & H3 & H4 & H5 & _).
    exists d'. rewrite H1, H3, H4, H5, Hb1, Hat, Hsnoc. done.
Qed.

(** X22. Messages that catch up carry no timing.  The calls and cards that
    the server sends after the [<sc_deal>] of a new board and before the
    first [<sc_deal_blast_complete>] are each recorded with action time 0,
    whatever their time stamps, and [saveDealTiming] packs each of them as
    0, the mark for "no timing information". *)
Theorem catch_up_untimed (a : App) (m : DealMsg) (ts : Z) (es : list Event) :
  Forall is_recap es ->
  exists d, deal (run es (set_deal (Some (new_deal m ts)) a)) = Some d /\
            actionTime d = replicate (length es) 0 /\
            tail (pack_timing d) = replicate (length es) 0.
Proof.
  intros Hes.
  assert (Hgen : forall es, Forall is_recap es -> forall a0 n,
    (exists d, deal a0 = Some d /\ blast1_complete d = false /\ amDummy d = false /\
               reseating d = false /\ actionTime d = replicate n 0) ->
    exists d, deal (run es a0) = Some d /\ actionTime d = replicate (n + length es) 0).
  { clear. induction 1 as [|e es He _ IH]; intros a0 n Hinv.
    - destruct Hinv as (d & Hd & _ & _ & _ & Hat). exists d. by rewrite Nat.add_0_r.
    - rewrite run_cons. cbn [length]. rewrite <- Nat.add_succ_comm.
      apply IH. by apply catch_up_step. }
  destruct (Hgen es Hes (set_deal (Some (new_deal m ts)) a) 0%nat) as (d & Hd & Hat).
  { by eexists. }
  cbn [Nat.add] in Hat.
  exists d. split; [done|]. split; [done|].
  unfold pack_timing. cbn [tail]. rewrite Hat.
  generalize (length es). clear.
  intros n. induction n as [|n IH]; [done|].
  cbn [replicate map]. by rewrite IH.
Qed.

Lemma catch_up_untimed_witness :
  exists d, deal (run (map (at_time 9) [sc_call_made "1S"; sc_call_made "p"; sc_card_played "D4"])
                    (set_deal (Some (new_deal full_deal_msg 0)) (app0 None))) = Some d /\
            actionTime d = replicate (length (map (at_time 9)
                             [sc_call_made "1S"; sc_call_made "p"; sc_card_played "D4"])) 0 /\
            tail (pack_timing d) = replicate (length (map (at_time 9)
                             [sc_call_made "1S"; sc_call_made "p"; sc_card_played "D4"])) 0.
Proof.
  apply (catch_up_untimed (app0 None) full_deal_msg 0). repeat constructor.
Defined.

(** ** The states in which the tracker follows the deal *)

Lemma well_tracked_of_playing (a' : App) (d : Deal) (p : list string) (tb : option Table) :
  seenOpeningLead d = true -> amDummy d = false -> reseating d = false ->
  bound_from_auction d -> p <> [] ->
  strip a' = strip (playing d (first_leader d) p tb) ->
  (forall d', deal a' = Some d' ->
     length (actionTime d') = (length (auction d) + length p)%nat) ->
  well_tracked a'.
Proof.
  intros Hseen Hdum Hres Hb Hp Hs Hlen.
  destruct a' as [[d'|] t' tb']; [|discriminate].
  specialize (Hlen d' eq_refl).
  pose proof (f_equal deal Hs) as Hd'. pose proof (f_equal trick Hs) as Ht'.
  unfold strip, playing in Hd', Ht'. cbn [deal trick table option_map] in Hd', Ht'.
  apply (inj Some) in Hd'. clear Hs.
  assert (Hf : forall {A} (f : Deal -> A),
            (forall x, f (strip_deal x) = f x) ->
            f d' = f (set_tricks (Some (rev (build (denom d) (first_leader d) p).1))
                        (set_play p d))).
  { intros A f Hfx. rewrite <- (Hfx d'), Hd'. apply Hfx. }
  pose proof (Hf _ amDummy (fun _ => eq_refl)) as H1.
  pose proof (Hf _ reseating (fun _ => eq_refl)) as H2.
  pose proof (Hf _ seenOpeningLead (fun _ => eq_refl)) as H3.
  pose proof (Hf _ play (fun _ => eq_refl)) as H4.
  pose proof (Hf _ auction (fun _ => eq_refl)) as H5.
  pose proof (Hf _ dealer (fun _ => eq_refl)) as H6.
  pose proof (Hf _ contract (fun _ => eq_refl)) as H7.
  pose proof (Hf _ denom (fun _ => eq_refl)) as H8.
  pose proof (Hf _ declarer (fun _ => eq_refl)) as H9.
  pose proof (Hf _ tricks (fun _ => eq_refl)) as H10.
  cbn in H1, H2, H3, H4, H5, H6, H7, H8, H9, H10.
  exists d'. split; [done|]. rewrite H1, H2, H3, H4, H5.
  split; [done|]. split; [done|]. split; [done|]. right.
  split; [done|]. split; [done|].
  split; [by apply (bound_from_auction_same d)|].
  unfold first_leader in *. rewrite H8, H9, H10. by split.
Qed.

Lemma well_tracked_saved (a : App) : well_tracked a -> well_tracked (saved a).
Proof.
  intros (d & Hd & Hdum & Hres & Hlen & Hphase).
  exists (set_timingSaved true d). rewrite deal_saved, trick_saved, Hd.
  split; [done|]. split; [done|]. split; [done|]. split; [done|].
  destruct Hphase as [Hp|(Hs & Hp & Hb & Hts & Ht)]; [by left|right].
  split; [done|]. split; [done|].
  split; [by apply (bound_from_auction_same d)|]. by split.
Qed.

(** The opening lead of a deal whose auction [auctionContract] accepts. *)
Lemma dispatch_opening_card (d : Deal) (t : option Trick) (tb : option Table)
    (c : string) (ts : Z) :
  seenOpeningLead d = false -> play d = [] -> amDummy d = false ->
  (auctionContract (mkApp (Some d) t tb)).1 = JS.Normal ->
  exists cn dn dc,
    bound_from_auction (set_bindings cn dn dc d) /\
    strip (dispatch (mkApp (Some d) t tb) (mkEvent (sc_card_played c) ts)) =
    strip (playing (set_seenOpeningLead true (set_bindings cn dn dc d))
             (first_leader (set_bindings cn dn dc d)) [c] tb).
Proof.
  intros Hseen Hplay Hdum Hn.
  destruct (auctionContract (mkApp (Some d) t tb)) as [[|e] a1] eqn:Hrun; [|done].
  destruct (auctionContract_normal_form (mkApp (Some d) t tb) a1 d eq_refl Hrun)
    as (cn & dn & dc & _ & Hall).
  exists cn, dn, dc.
  assert (Hb : bound_from_auction (set_bindings cn dn dc d)).
  { unfold bound_from_auction.
    rewrite (Hall (mkApp (Some (set_bindings cn dn dc d)) None None)
               (set_bindings cn dn dc d) eq_refl eq_refl eq_refl).
    by destruct d. }
  split; [exact Hb|].
  rewrite <- (dispatch_first_card (set_bindings cn dn dc d) t tb c ts Hseen Hplay Hdum Hb).
  unfold dispatch, processWebsocket, on_sc_card_played. cbn [msg timeStamp deal].
  cbn [amDummy set_bindings set_declarer set_denom set_contract]. rewrite Hdum.
  cbn [negb orb]. rewrite !strip_trickcard. unfold card_to_trick, opening_lead.
  cbn [deal set_deal seenOpeningLead set_lastActionTime set_actionTime set_play
       set_bindings set_declarer set_denom set_contract].
  rewrite Hseen.
  repeat match goal with |- context [auctionContract (set_deal (Some ?x) ?y)] =>
    rewrite (Hall (set_deal (Some x) y) x eq_refl eq_refl eq_refl) end.
  destruct d. reflexivity.
Qed.

(** X23. The hypothesis of X2 is an invariant of play at a table: a state
    in which the tracker follows the deal stays one after a call made while
    no card has been played, after a card (the opening lead provided that
    [auctionContract] accepts the auction), and after an undo within the
    actions recorded, unless the undo takes back exactly all the cards
    played. *)
Theorem well_tracked_kept (a : App) (e : Event) :
  well_tracked a -> in_turn a e -> well_tracked (dispatch a e).
Proof.
  intros (d & Hd & Hdum & Hres & Hlen & Hphase) Hturn.
  unfold in_turn in Hturn. rewrite Hd in Hturn.
  assert (Hinv : timing_inv a).
  { intros d' Hd'. rewrite Hd in Hd'. by injection Hd' as <-. }
  destruct e as [m ts]. cbn [msg] in Hturn.
  destruct m as [call|call|card|card|m| |u]; try done.
  - (* a call *)
    unfold dispatch, processWebsocket, on_sc_call_made. cbn [msg timeStamp].
    rewrite Hd, Hdum, Hres. cbn [orb snd].
    assert (Hs : seenOpeningLead d = false).
    { destruct Hphase as [[Hs _]|(_ & Hp & _)]; [done|by destruct Hp]. }
    auction_end_cases; [|apply well_tracked_saved];
      (eexists; split; [reflexivity|]; cbn; rewrite Hdum, Hres, Hturn;
       split; [done|]; split; [done|];
       split; [rewrite !length_app, Hlen, Hturn; cbn; lia|];
       left; by split).
  - (* a card *)
    assert (Hdisp : dispatch a (mkEvent (sc_card_played card) ts) = (trickcard card ts a).2).
    { unfold dispatch, processWebsocket, on_sc_card_played. cbn [msg timeStamp].
      by rewrite Hd, Hdum. }
    assert (Htm : forall d', deal (dispatch a (mkEvent (sc_card_played card) ts)) = Some d' ->
              length (actionTime d') = (length (auction d) + length (play d ++ [card]))%nat).
    { intros d' Hd'. rewrite Hdisp in Hd'.
      pose proof (lists_of_trickcard card ts a d Hd) as Hl.
      unfold lists_of in Hl. cbn [snd] in Hl. rewrite Hd' in Hl. injection Hl as H1 H2 H3.
      rewrite H1, !length_app, Hlen. cbn. lia. }
    destruct a as [da t tb]. cbn [deal] in Hd. subst da.
    destruct Hphase as [[Hs Hp]|(Hs & Hp & Hb & Hts & Ht)].
    + destruct Hturn as [Hturn|Hn]; [congruence|].
      destruct (dispatch_opening_card d t tb card ts Hs Hp Hdum Hn)
        as (cn & dn & dc & Hb & Hstrip).
      rewrite Hp in Htm. cbn [app] in Htm.
      apply (well_tracked_of_playing _
               (set_seenOpeningLead true (set_bindings cn dn dc d)) [card] tb);
        try done.
      by apply (bound_from_auction_same (set_bindings cn dn dc d)).
    + cbn [trick] in Ht.
      apply (well_tracked_of_playing _ d (play d ++ [card]) tb); try done.
      { by destruct (play d). }
      rewrite Hdisp.
      rewrite <- (playing_self (mkApp (Some d) t tb) d (first_leader d) eq_refl Hts Ht) at 1.
      by apply trickcard_playing.
  - (* an undo *)
    assert (Hdisp : dispatch a (mkEvent (sc_undo u) ts) = (undo u ts a).2) by reflexivity.
    rewrite Hdisp.
    destruct (undo_count u) as [k|] eqn:Hu.
    2: { unfold undo. rewrite Hu. cbn [snd]. exists d. by repeat split. }
    destruct Hturn as [Hk Hne].
    destruct (Nat.le_gt_cases k (length (play d))) as [Hin|Hout].
    + destruct Hphase as [[Hs Hp]|(Hs & Hp & Hb & Hts & Ht)].
      * rewrite Hp in Hin. cbn in Hin. assert (k = 0%nat) as -> by lia.
        unfold undo. rewrite Hu, Hd. cbn [Nat.ltb Nat.leb].
        unfold rewind_tricks.
        cbn [deal set_deal seenOpeningLead set_play set_actionTime set_lastActionTime].
        rewrite Hs. cbn [snd].
        eexists. split; [reflexivity|]. cbn.
        rewrite !Nat.sub_0_r, !firstn_all, Hdum, Hres, Hs, Hp.
        split; [done|]. split; [done|]. split; [by rewrite Hlen, Hp|]. by left.
      * destruct (undo_playing a d (first_leader d) u ts k Hd Hs Hts Ht Hu Hin)
          as [_ Hstrip]; [lia|].
        apply (well_tracked_of_playing _ d (take (length (play d) - k) (play d)) (table a));
          try done.
        { destruct Hne as [Hne|Hne]; [|done].
          intros Hnil. apply (f_equal length) in Hnil.
          rewrite length_take in Hnil. cbn in Hnil. lia. }
        intros d' Hd'.
        assert (Hka : (k <= length (actionTime d))%nat) by lia.
        pose proof (undo_lists u ts a d k Hd Hu Hka Hlen) as Hl.
        unfold lists_of in Hl. rewrite Hd' in Hl.
        injection Hl as H1 _ _. rewrite H1, !length_take. lia.
    + rewrite (undo_rolls_into_auction a d u ts k Hinv Hd Hu) by lia.
      cbn [snd]. eexists. split; [reflexivity|]. cbn. rewrite Hres.
      split; [done|]. split; [done|].
      split; [rewrite !length_take; lia|]. by left.
Qed.

Lemma well_tracked_kept_witness :
  well_tracked (dispatch two_cards_played (at_time 5 (sc_card_played "D6"))).
Proof.
  apply (well_tracked_kept two_cards_played (at_time 5 (sc_card_played "D6"))).
  - exists (the_deal two_cards_played). split; [reflexivity|].
    split; [reflexivity|]. split; [reflexivity|]. split; [reflexivity|]. right.
    split; [reflexivity|]. split; [discriminate|]. split; [reflexivity|].
    split; reflexivity.
  - by left.
Defined.
